(** * DADB: schema catalog, timeline view, data store and transaction facade

    A shallow embedding of [dadb/_schema.py] together with the parts of the
    [Database] handle it is called with.  Python code that mutates the handle
    and may raise is written in a state-and-exception monad in which the
    state survives a raise, as it does in Python: after an exception the
    handle is still there, with whatever had been done to it. *)

From Stdlib Require Import ZArith Ascii String.
From Stdlib.Strings Require Import Byte.
From stdpp Require Import base option list strings gmap.

Local Open Scope string_scope.
Local Open Scope list_scope.
Local Open Scope Z_scope.

(** ** Exceptions and outcomes *)

Inductive exn : Type :=
| ValueError (msg : string)
| TypeError (msg : string)
| SQLError (msg : string)
| NoSuchDataObjectError (msg : string)
| RepositoryMismatch (msg : string).

Inductive outcome (A : Type) : Type :=
| Returns (a : A)
| Raises (e : exn).
Arguments Returns {A} a.
Arguments Raises {A} e.

(** ** _schema.py: column and table descriptors *)

(** [col = namedtuple('col', 'name description coldef')] *)
Record col : Type := mkcol {
  col_name : string;
  col_description : string;
  coldef : string
}.

(** [tbl = namedtuple('table', 'name description fields tblconstraint')] *)
Record tbl : Type := mktbl {
  tbl_name : string;
  tbl_description : string;
  fields : list col;
  tblconstraint : option string
}.

Definition SCHEMAVERSION : Z := 3.

Definition ENUMTBLNAME : string := "_enum_".
Definition MODELTBLNAME : string := "_model_".
Definition FIELDTBLNAME : string := "_field_".
Definition MAPTBLNAME : string := "_maptable_".
Definition PROPTBLNAME : string := "_proptable_".

Definition _reserved_ : tbl :=
  mktbl "_reserved_" "state keeping for reopening database"
    [ mkcol "pkey_" "name to use for pkey columns" "TEXT";
      mkcol "schemaversion" "version number of database schema" "INTEGER NOT NULL";
      mkcol "apiversion" "version number of DADB API" "INTEGER NOT NULL";
      mkcol "prefix_" "prefix used in all table and field names" "TEXT";
      mkcol "timeline_blacklist" "list of modelnames to exclude from timeline" "TEXT" ]
    None.

Definition _enumtable_ : tbl :=
  mktbl ENUMTBLNAME "table that points to autogenerated enum tables"
    [ mkcol "id_" "id of enum in this database" "INTEGER PRIMARY KEY AUTOINCREMENT";
      mkcol "name_" "original name of the enum" "TEXT NOT NULL";
      mkcol "table_" "table name for this enum" "TEXT NOT NULL";
      mkcol "source_" "label for source, i.e. autogenerated" "TEXT NOT NULL";
      mkcol "version_" "version of the enum definition" "INTEGER NOT NULL";
      mkcol "table_prefix_" "prefix used in tablename" "TEXT NOT NULL" ]
    None.

Definition _modeltable_ : tbl :=
  mktbl MODELTBLNAME "keep track of autogenerated model tables"
    [ mkcol "id_" "id of model in this database" "INTEGER PRIMARY KEY AUTOINCREMENT";
      mkcol "name_" "original name of the model" "TEXT NOT NULL";
      mkcol "table_" "table name for this model" "TEXT NOT NULL";
      mkcol "source_" "label for source, i.e. autogenerated" "TEXT NOT NULL";
      mkcol "version_" "version of the model" "INTEGER NOT NULL";
      mkcol "table_prefix_" "prefix used in tablename" "TEXT NOT NULL";
      mkcol "field_prefix_" "prefix used in fieldnames" "TEXT NOT NULL";
      mkcol "explicit_dedup_" "deduplicate explicitly inserted items" "INTEGER";
      mkcol "implicit_dedup_" "deduplicate implicitly inserted items" "INTEGER";
      mkcol "fail_on_dup_" "whether to fail on duplicate item insert" "INTEGER" ]
    None.

Definition _fieldtable_ : tbl :=
  mktbl FIELDTBLNAME "fielddescriptors for model fields"
    [ mkcol "id_" "id of fielddescriptor" "INTEGER PRIMARY KEY AUTOINCREMENT";
      mkcol "modelid_" "pointer to model entry" "INTEGER NOT NULL";
      mkcol "name_" "original name of field" "TEXT NOT NULL";
      mkcol "colname_" "name of column in model table" "TEXT";
      mkcol "datatype_" "description of datatype" "TEXT";
      mkcol "nullable_" "whether NULL values are allowed" "INTEGER";
      mkcol "multiple_" "whether field contains list of values" "INTEGER";
      mkcol "submodel_" "field contains pointer to other model" "INTEGER";
      mkcol "enum_" "field contains pointer to enum" "INTEGER";
      mkcol "preview_" "field is included in previews" "INTEGER" ]
    (Some "UNIQUE (modelid_, name_)").

Definition _maptable_ : tbl :=
  mktbl MAPTBLNAME "descriptor for mapped fields"
    [ mkcol "field_" "points to model_field" "INTEGER";
      mkcol "maptable_" "name of m:n mapping table" "TEXT UNIQUE";
      mkcol "enum_" "points to enum if field contains enums" "INTEGER";
      mkcol "model_" "points to model if modelitems in field" "INTEGER" ]
    (Some "PRIMARY KEY (field_, maptable_)").

Definition _propertytable_ : tbl :=
  mktbl PROPTBLNAME "descriptor for property fields"
    [ mkcol "field_" "points to field" "INTEGER";
      mkcol "datatype_" "description of datatype" "TEXT";
      mkcol "proptable_" "name of property table" "TEXT" ]
    (Some "PRIMARY KEY (field_, proptable_)").

(** list of the 5 operational tables *)
Definition _operational_tables_ : list tbl :=
  [_enumtable_; _modeltable_; _fieldtable_; _maptable_; _propertytable_].

Definition _data_ : tbl :=
  mktbl "data" "metadata on a single data object"
    [ mkcol "id" "id of data object" "INTEGER PRIMARY KEY AUTOINCREMENT";
      mkcol "md5" "md5 hash of data-object" "TEXT NOT NULL";
      mkcol "sha1" "sha1 hash of data-object" "TEXT NOT NULL";
      mkcol "sha256" "sha256 hash of data-object" "TEXT NOT NULL";
      mkcol "size" "total size of data-object" "INTEGER NOT NULL";
      mkcol "stored" "1 if data is in database, 0 otherwise" "INTEGER NOT NULL" ]
    None.

Definition _block_ : tbl :=
  mktbl "block" "stores single blocks of data"
    [ mkcol "id" "id of this block" "INTEGER PRIMARY KEY AUTOINCREMENT";
      mkcol "sha1" "sha1 hash of block" "TEXT NOT NULL";
      mkcol "size" "size of block" "INTEGER NOT NULL";
      mkcol "data" "the actual data in this block" "BLOB NOT NULL" ]
    None.

Definition _blockmap_ : tbl :=
  mktbl "blockmap" "maps blocks to data objects"
    [ mkcol "dataid" "id of data object" "INTEGER NOT NULL";
      mkcol "blkid" "id of block object" "INTEGER NOT NULL";
      mkcol "offset" "offset of block in data object" "INTEGER NOT NULL" ]
    (Some "PRIMARY KEY (dataid, offset)").

(** list of the 3 data tables *)
Definition _data_tables_ : list tbl := [_data_; _block_; _blockmap_].

(** [str.replace] for a single character. *)
Fixpoint replace_char (old new : ascii) (s : string) : string :=
  match s with
  | EmptyString => EmptyString
  | String c rest =>
      String (if Ascii.eqb c old then new else c) (replace_char old new rest)
  end.

(** converts given string to a prefixed SQLite name *)
Definition validname (name : string) (prefix : string) : string :=
  let name := replace_char "." "_" name in
  let name := replace_char "+" "_" name in
  prefix +:+ name.

(** generate the table definition for an enum *)
Definition enum_tabledef (prefix tblname : string) : tbl :=
  let _val := prefix +:+ "val" in
  let _name := prefix +:+ "name" in
  mktbl tblname "auto-generated enum table"
    [ mkcol _val "enum_value" "INTEGER PRIMARY KEY NOT NULL";
      mkcol _name "enum_string" "TEXT NOT NULL" ]
    (Some ("UNIQUE (" +:+ _val +:+ ", " +:+ _name +:+ ")")).

(** [sep.join(parts)] *)
Fixpoint join (sep : string) (parts : list string) : string :=
  match parts with
  | [] => ""
  | [p] => p
  | p :: rest => p +:+ sep +:+ join sep rest
  end.

(** ** The repository file *)

(** A row of the [_fieldinfo_] view (the columns the timeline code reads).
    A column that can be NULL is an [option]: SQL NULL reaches Python as
    [None].  [fieldname_] is [_field_.name_], declared [TEXT NOT NULL];
    [modelname_] and [modeltable_] come from a LEFT JOIN, [columnname_],
    [datatype_] and [preview_] are nullable columns of [_field_]. *)
Record fieldinfo : Type := mkfieldinfo {
  modelname_ : option string;
  modeltable_ : option string;
  fieldname_ : string;
  columnname_ : option string;
  datatype_ : option string;
  preview_ : option Z
}.

(** Rows of the [_reserved_], [data], [block] and [blockmap] tables, with the
    columns declared above. *)
Record reserved_row : Type := mkreserved {
  pkey_ : string;
  schemaversion : Z;
  apiversion : Z;
  prefix_ : string;
  timeline_blacklist : option string
}.

Record data_row : Type := mkdata {
  data_id : Z;
  data_md5 : string;
  data_sha1 : string;
  data_sha256 : string;
  data_size : Z;
  data_stored : Z
}.

Record block_row : Type := mkblock {
  block_id : Z;
  block_sha1 : string;
  block_size : Z;
  block_data : list byte
}.

Record blockmap_row : Type := mkblockmap {
  dataid : Z;
  blkid : Z;
  offset : Z
}.

(** What the repository file holds.  [st_models] are the [(name_, table_)]
    pairs of the [_model_] rows, [st_fieldinfo] the result set of the
    [_fieldinfo_] view, [st_views] the views by name with their defining
    text, and the two counters are the [sqlite_sequence] entries behind
    [AUTOINCREMENT]. *)
Record store : Type := mkstore {
  st_tables : list tbl;
  st_reserved : list reserved_row;
  st_models : list (string * string);
  st_fieldinfo : list fieldinfo;
  st_views : gmap string string;
  st_data : list data_row;
  st_block : list block_row;
  st_blockmap : list blockmap_row;
  st_seq_data : Z;
  st_seq_block : Z
}.

Definition set_views (v : gmap string string) (s : store) : store :=
  mkstore (st_tables s) (st_reserved s) (st_models s) (st_fieldinfo s) v
          (st_data s) (st_block s) (st_blockmap s) (st_seq_data s) (st_seq_block s).

(** The connection: what it currently sees ([content]), the state a
    ROLLBACK returns to while a transaction is active ([journal]), and the
    statements handed to the cursor so far, oldest first ([executed]). *)
Record connection : Type := mkconnection {
  content : store;
  journal : option store;
  executed : list string
}.

(** The closed set of datatypes of the registry. *)
Inductive datatype : Type :=
| Datetime | Date | Integer | String_ | Bytes | Bool | TimeDelta | Float
| NULL | Data.

(** The [Database] handle: the attributes the code under study reads. *)
Record Database : Type := mkDatabase {
  dbname : string;
  dbcon : connection;
  prefix : string;
  pkey : string;
  models : gmap string string;
  enums : gmap string string;
  datatypes : list (string * datatype);
  tables : list (string * tbl)
}.

Definition set_dbcon (c : connection) (db : Database) : Database :=
  mkDatabase (dbname db) c (prefix db) (pkey db) (models db) (enums db)
             (datatypes db) (tables db).

(** ** Python control flow: state that survives an exception *)

Definition py (A : Type) : Type := Database → outcome A * Database.

Definition ret {A} (a : A) : py A := λ db, (Returns a, db).
Definition raise {A} (e : exn) : py A := λ db, (Raises e, db).
Definition bind {A B} (m : py A) (k : A → py B) : py B :=
  λ db, match m db with
        | (Returns a, db') => k a db'
        | (Raises e, db') => (Raises e, db')
        end.
(** [try: m  except: h; raise] *)
Definition on_exception {A} (m : py A) (h : py unit) : py A :=
  λ db, match m db with
        | (Returns a, db') => (Returns a, db')
        | (Raises e, db') =>
            match h db' with
            | (Returns _, db'') => (Raises e, db'')
            | (Raises e', db'') => (Raises e', db'')
            end
        end.
(** Reading an attribute of the handle: [db.prefix], [db.models], ... *)
Definition attr {A} (f : Database → A) : py A := λ db, (Returns (f db), db).

Notation "'do' x <- m ; k" := (bind m (λ x, k))
  (at level 10, x name, m at level 100, k at level 200).
Notation "'run' m ; k" := (bind m (λ _, k))
  (at level 10, m at level 100, k at level 200).

(** ** The relational backend *)

(** [strip_prefix p s] is [Some r] when [s = p ++ r]. *)
Fixpoint strip_prefix (p s : string) : option string :=
  match p with
  | EmptyString => Some s
  | String a p' =>
      match s with
      | EmptyString => None
      | String b s' => if Ascii.eqb a b then strip_prefix p' s' else None
      end
  end.

(** The text before the first space and the text after it. *)
Fixpoint split_space (s : string) : string * option string :=
  match s with
  | EmptyString => (EmptyString, None)
  | String c rest =>
      if Ascii.eqb c " " then (EmptyString, Some rest)
      else let '(w, r) := split_space rest in (String c w, r)
  end.

Inductive statement : Type :=
| BEGIN
| COMMIT
| ROLLBACK
| DROP_VIEW_IF_EXISTS (view : string)
| CREATE_VIEW (view : string) (select : string).

(** The statements the code under study issues, recognised by their text. *)
Definition parse (q : string) : option statement :=
  if String.eqb q "BEGIN TRANSACTION" then Some BEGIN
  else if String.eqb q "COMMIT" then Some COMMIT
  else if String.eqb q "ROLLBACK" then Some ROLLBACK
  else match strip_prefix "DROP VIEW IF EXISTS " q with
       | Some v => Some (DROP_VIEW_IF_EXISTS v)
       | None =>
           match strip_prefix "CREATE VIEW " q with
           | Some r =>
               match split_space r with
               | (v, Some r') =>
                   match strip_prefix "AS " r' with
                   | Some body => Some (CREATE_VIEW v body)
                   | None => None
                   end
               | (_, None) => None
               end
           | None => None
           end
       end.

(** Modelled from the spec: the relational backend ([_database.py] and the
    SQLite binding are not among the sources).  Section 4.1 gives it
    single-level BEGIN/COMMIT/ROLLBACK and DDL issuance; the error texts are
    the ones [models/stringsmodel.py] compares against.  Outside a
    transaction a statement takes effect at once; inside one it changes
    [content] only, and ROLLBACK puts the [journal] back. *)
Definition run_statement (st : statement) (c : connection)
  : outcome unit * connection :=
  match st with
  | BEGIN =>
      match journal c with
      | Some _ =>
          (Raises (SQLError "SQLError: cannot start a transaction within a transaction"), c)
      | None => (Returns tt, mkconnection (content c) (Some (content c)) (executed c))
      end
  | COMMIT =>
      match journal c with
      | Some _ => (Returns tt, mkconnection (content c) None (executed c))
      | None => (Raises (SQLError "SQLError: cannot commit - no transaction is active"), c)
      end
  | ROLLBACK =>
      match journal c with
      | Some s => (Returns tt, mkconnection s None (executed c))
      | None => (Raises (SQLError "SQLError: cannot rollback - no transaction is active"), c)
      end
  | DROP_VIEW_IF_EXISTS v =>
      (Returns tt,
       mkconnection (set_views (delete v (st_views (content c))) (content c))
                    (journal c) (executed c))
  | CREATE_VIEW v body =>
      match st_views (content c) !! v with
      | Some _ => (Raises (SQLError ("SQLError: table " +:+ v +:+ " already exists")), c)
      | None =>
          (Returns tt,
           mkconnection (set_views (<[v := body]> (st_views (content c))) (content c))
                        (journal c) (executed c))
      end
  end.

(** [db.dbcur.execute(q)] *)
Definition execute (q : string) : py unit :=
  λ db,
    let c := dbcon db in
    let c := mkconnection (content c) (journal c) (executed c ++ [q]) in
    match parse q with
    | None => (Raises (SQLError "SQLError: syntax error"), set_dbcon c db)
    | Some st =>
        let '(r, c') := run_statement st c in (r, set_dbcon c' db)
    end.

(** The value of a named column of a [_fieldinfo_] row. *)
Definition fieldinfo_column (column : string) (r : fieldinfo)
  : option (option string) :=
  if String.eqb column "modelname_" then Some (modelname_ r)
  else if String.eqb column "modeltable_" then Some (modeltable_ r)
  else if String.eqb column "fieldname_" then Some (Some (fieldname_ r))
  else if String.eqb column "columnname_" then Some (columnname_ r)
  else if String.eqb column "datatype_" then Some (datatype_ r)
  else None.

Definition value_eqb (a b : option string) : bool :=
  match a, b with
  | Some x, Some y => String.eqb x y
  | _, _ => false
  end.

(** Modelled from the spec: [db.select('_fieldinfo_', where={column: value},
    cursor=db.dbcur)] of the absent [_database.py], section 4.1: the rows of
    the view whose [column] equals [value], in the order of the view.  A
    NULL never compares equal. *)
Definition select_fieldinfo (column : string) (value : option string)
  : py (list fieldinfo) :=
  λ db,
    let rows := st_fieldinfo (content (dbcon db)) in
    match fieldinfo_column column (mkfieldinfo None None "" None None None) with
    | None => (Raises (SQLError ("SQLError: no such column: " +:+ column)), db)
    | Some _ =>
        (Returns (List.filter
                    (λ r, value_eqb (default None (fieldinfo_column column r)) value)
                    rows), db)
    end.

(** Modelled from the spec: the transaction facade of the absent
    [_database.py], section 4.8.  [begin_transaction] returns true if it
    started a transaction and false if one was already active. *)
Definition begin_transaction : py bool :=
  λ db, match execute "BEGIN TRANSACTION" db with
        | (Returns _, db') => (Returns true, db')
        | (Raises (SQLError _), db') => (Returns false, db')
        | (Raises e, db') => (Raises e, db')
        end.

(** Modelled from the spec: [end_transaction] commits; with no transaction
    active the backend's error surfaces, which is what
    [models/stringsmodel.py] catches around its call. *)
Definition end_transaction : py unit := execute "COMMIT".

(** Modelled from the spec: [rollback_transaction] rolls back the outermost
    transaction and returns whether one was active. *)
Definition rollback_transaction : py bool :=
  λ db, match execute "ROLLBACK" db with
        | (Returns _, db') => (Returns true, db')
        | (Raises (SQLError _), db') => (Returns false, db')
        | (Raises e, db') => (Raises e, db')
        end.

(** ** _schema.py: the timeline view *)

(** The [excluded] argument as Python passes it: [None], a list of model
    names, or something that is not a list. *)
Inductive exclusion : Type :=
| PyNone
| PyList (names : list string)
| PyOther.

Definition nl : string := String (ascii_of_nat 10) EmptyString.

(** [for x in xs: body(x)], collecting the results: a list comprehension
    whose element expression may raise. *)
Fixpoint for_each {A B} (body : A → py B) (xs : list A) : py (list B) :=
  match xs with
  | [] => ret []
  | x :: rest =>
      do y <- body x;
      do ys <- for_each body rest;
      ret (y :: ys)
  end.

(** [value in names] for a column value, which may be [None]. *)
Definition in_names (value : option string) (names : list string) : bool :=
  match value with
  | Some v => existsb (String.eqb v) names
  | None => false
  end.

(** The loop over [excluded] that both functions share:
    [if mname not in db.models: raise ValueError(...)]. *)
Fixpoint check_excluded (names : list string) : py unit :=
  match names with
  | [] => ret tt
  | mname :: rest =>
      do registered <- attr models;
      match registered !! mname with
      | None => raise (ValueError "timeline exclusion list contains invalid modelname")
      | Some _ => check_excluded rest
      end
  end.

(** The [if excluded is not None:] block, returning the two filtered lists. *)
Definition apply_exclusion (excluded : exclusion) (dtfields dfields : list fieldinfo)
  : py (list fieldinfo * list fieldinfo) :=
  match excluded with
  | PyNone => ret (dtfields, dfields)
  | PyList names =>
      run check_excluded names;
      ret (List.filter (λ f, negb (in_names (modelname_ f) names)) dtfields,
           List.filter (λ f, negb (in_names (modelname_ f) names)) dfields)
  | PyOther => raise (ValueError "expected list of modelnames to exclude from timeline")
  end.

(** determine which fields to include in timeline *)
Definition timeline_fields (excluded : exclusion) : py (list fieldinfo) :=
  do dtfields <- select_fieldinfo "datatype_" (Some "Datetime");
  do dfields <- select_fieldinfo "datatype_" (Some "Date");
  do fs <- apply_exclusion excluded dtfields dfields;
  ret (fst fs ++ snd fs).

(** A [{:s}] replacement field: a [str] formats as itself, [None] raises. *)
Definition format_s (v : option string) : py string :=
  match v with
  | Some s => ret s
  | None => raise (TypeError "unsupported format string passed to NoneType.__format__")
  end.

(** [getattr(c, 'datatype_') not in ['Bytes', None, '']] *)
Definition has_text_datatype (c : fieldinfo) : bool :=
  match datatype_ c with
  | None => false
  | Some d => negb (String.eqb d "Bytes" || String.eqb d "")
  end.

(** [bool(getattr(c, 'preview_')) is True] *)
Definition in_preview (c : fieldinfo) : bool :=
  match preview_ c with
  | None => false
  | Some n => negb (n =? 0)
  end.

(** The base query [q] of [_modeltimeline_subquery] with its eight
    replacement fields filled in. *)
Definition subquery_text (a1 a2 a3 a4 a5 a6 a7 a8 : string) : string :=
  "SELECT " +:+ a1 +:+ " AS timestamp_," +:+ nl +:+
  " '" +:+ a2 +:+ "' AS timestampfield_," +:+ nl +:+
  " '" +:+ a3 +:+ "' AS table_" +:+ nl +:+
  ", " +:+ a4 +:+ a5 +:+ nl +:+
  ", " +:+ a6 +:+ " AS preview_" +:+ nl +:+
  " FROM " +:+ a7 +:+ " " +:+ nl +:+
  "WHERE " +:+ a8 +:+ " is not NULL".

(** One entry of the preview: ['{:s}:' || COALESCE(CAST({:s} AS TEXT),'')\n] *)
Definition preview_entry (c : string * option string) : py string :=
  do cname <- format_s (snd c);
  ret ("'" +:+ fst c +:+ ":' || COALESCE(CAST(" +:+ cname +:+ " AS TEXT),'')" +:+ nl).

(** [_modeltimeline_subquery], the columns to use in the preview: the
    [(fieldname_, columnname_)] pairs of the model's columns that are
    neither binary nor without a datatype, and that are marked for
    previews. *)
Definition preview_columns (fd : fieldinfo) : py (list (string * option string)) :=
  do columns <- select_fieldinfo "modeltable_" (modeltable_ fd);
  let columns := List.filter has_text_datatype columns in
  let columns := List.filter in_preview columns in
  ret (map (λ cc, (fieldname_ cc, columnname_ cc)) columns).

(** [_modeltimeline_subquery], the preview expression built from them. *)
Definition preview_expression (colnames : list (string * option string)) : py string :=
  if (Z.of_nat (length colnames) =? 0) then ret "''"
  else do colnames <- for_each preview_entry colnames;
       ret (join " || '|' || " colnames).

(** subqueries for getting timeinfo from models *)
Definition _modeltimeline_subquery (fd : fieldinfo) : py string :=
  do colnames <- preview_columns fd;
  do preview <- preview_expression colnames;
  do a1 <- format_s (columnname_ fd);
  do a3 <- format_s (modeltable_ fd);
  do a4 <- attr prefix;
  do a5 <- attr pkey;
  ret (subquery_text a1 a1 a3 a4 a5 preview a3 a1).

(** creates a timeline view in the given DADB database *)
Definition create_timeline_view (excluded : exclusion) : py unit :=
  do started_transaction <- begin_transaction;
  do p <- attr prefix;
  run execute ("DROP VIEW IF EXISTS " +:+ p +:+ "Timeline_");
  do dtfields <- select_fieldinfo "datatype_" (Some "Datetime");
  do dfields <- select_fieldinfo "datatype_" (Some "Date");
  do fs <- apply_exclusion excluded dtfields dfields;
  do subdt <- for_each _modeltimeline_subquery (fst fs);
  do subd <- for_each _modeltimeline_subquery (snd fs);
  let allfields := subdt ++ subd in
  if (Z.of_nat (length allfields) =? 0) then
    (if started_transaction then execute "COMMIT" else ret tt)
  else
    do p <- attr prefix;
    run execute ("CREATE VIEW " +:+ p +:+ "Timeline_ AS " +:+
                 join (nl +:+ nl +:+ "UNION" +:+ nl +:+ nl) allfields +:+
                 " ORDER BY timestamp_");
    if started_transaction then execute "COMMIT" else ret tt.

(** ** The data store and the repository life cycle *)

(** The three digests of [hashlib], as hexadecimal text. *)
Class hashlib : Type := {
  md5 : list byte → string;
  sha1 : list byte → string;
  sha256 : list byte → string
}.

(** Modelled from the spec: [BLOCKSIZE = 50 MiB], section 4.3 (the constant
    lives in the absent [_data.py]). *)
Definition BLOCKSIZE : Z := 50 * 1024 * 1024.

(** [while True: blk = stream.read(n); if not blk: break; ...]: the
    successive reads of at most [n] bytes, up to the first empty one. *)
Fixpoint slices_fuel (fuel n : nat) (s : list byte) : list (list byte) :=
  match fuel with
  | O => []
  | S fuel' =>
      match take n s with
      | [] => []
      | blk => blk :: slices_fuel fuel' n (drop n s)
      end
  end.

Definition slices (n : nat) (s : list byte) : list (list byte) :=
  slices_fuel (length s) n s.

Definition set_data_tables (d : list data_row) (b : list block_row)
    (m : list blockmap_row) (sd sb : Z) (s : store) : store :=
  mkstore (st_tables s) (st_reserved s) (st_models s) (st_fieldinfo s)
          (st_views s) d b m sd sb.

(** [SELECT ... FROM block WHERE sha1 = ? AND size = ?], first row. *)
Definition find_block (h : string) (size : Z) (blocks : list block_row)
  : option block_row :=
  List.find (λ b, String.eqb (block_sha1 b) h && (block_size b =? size)) blocks.

(** [SELECT ... FROM block WHERE id = ?] *)
Definition block_by_id (i : Z) (blocks : list block_row) : option block_row :=
  List.find (λ b, block_id b =? i) blocks.

(** [SELECT ... FROM data WHERE sha256 = ? AND stored = 1], first row. *)
Definition find_stored_data (h : string) (rows : list data_row)
  : option data_row :=
  List.find (λ d, String.eqb (data_sha256 d) h && (data_stored d =? 1)) rows.

(** [SELECT ... FROM data WHERE id = ?] *)
Definition data_by_id (i : Z) (rows : list data_row) : option data_row :=
  List.find (λ d, data_id d =? i) rows.

(** [ORDER BY offset], as a stable insertion sort. *)
Fixpoint insert_by_offset (r : blockmap_row) (l : list blockmap_row)
  : list blockmap_row :=
  match l with
  | [] => [r]
  | x :: rest =>
      if offset r <=? offset x then r :: l else x :: insert_by_offset r rest
  end.

Definition order_by_offset (l : list blockmap_row) : list blockmap_row :=
  foldr insert_by_offset [] l.

(** The blockmap rows of one data object, in offset order. *)
Definition blockmap_of (i : Z) (s : store) : list blockmap_row :=
  order_by_offset (List.filter (λ r, dataid r =? i) (st_blockmap s)).

(** The bytes of the blocks the rows point to, concatenated; [None] when a
    row points to no block. *)
Fixpoint blocks_content (rows : list blockmap_row) (blocks : list block_row)
  : option (list byte) :=
  match rows with
  | [] => Some []
  | r :: rest =>
      match block_by_id (blkid r) blocks, blocks_content rest blocks with
      | Some b, Some tl => Some (block_data b ++ tl)
      | _, _ => None
      end
  end.

Definition stored_content (i : Z) (s : store) : option (list byte) :=
  blocks_content (blockmap_of i s) (st_block s).

(** The handle [get_data] returns: the columns of the data row. *)
Record DataHandle : Type := mkDataHandle {
  handle_id : Z;
  handle_md5 : string;
  handle_sha1 : string;
  handle_sha256 : string;
  handle_length : Z;
  handle_stored : Z
}.

(** The pairing every helper of the repository uses to close what it
    opened: [if started_transaction is True: db.end_transaction()]
    ([models/zipmodel.py], [models/stringsmodel.py]). *)
Definition end_if_started (started_transaction : bool) : py unit :=
  if started_transaction then end_transaction else ret tt.

Section Repository.
Context {H : hashlib}.
Variable APIVERSION : Z.

(** Modelled from the spec: one slice of [insert_data], section 4.3: a
    block with the same sha1 and size is reused, otherwise a new block is
    inserted under the next id. *)
Definition place_block (blk : list byte) (s : store) : Z * store :=
  let h := sha1 blk in
  let size := Z.of_nat (length blk) in
  match find_block h size (st_block s) with
  | Some b => (block_id b, s)
  | None =>
      let bid := st_seq_block s + 1 in
      (bid, set_data_tables (st_data s)
              (st_block s ++ [mkblock bid h size blk])
              (st_blockmap s) (st_seq_data s) bid s)
  end.

(** Modelled from the spec: the per-slice loop of [insert_data], section
    4.3: each slice is placed and [(dataid, blkid, offset)] is appended
    to blockmap. *)
Fixpoint insert_blocks (did off : Z) (blks : list (list byte)) (s : store)
  : store :=
  match blks with
  | [] => s
  | blk :: rest =>
      let '(bid, s) := place_block blk s in
      let s := set_data_tables (st_data s) (st_block s)
                 (st_blockmap s ++ [mkblockmap did bid off])
                 (st_seq_data s) (st_seq_block s) s in
      insert_blocks did (off + Z.of_nat (length blk)) rest s
  end.

(** Modelled from the spec: the effect of [insert_data] on the tables,
    section 4.3, for a block size of [n] bytes: a data row with the same
    sha256 and [stored = 1] is returned as it is; otherwise a data row is
    inserted under the next id and the payload is stored slice by slice. *)
Definition store_data (n : nat) (payload : list byte) (s : store) : Z * store :=
  match find_stored_data (sha256 payload) (st_data s) with
  | Some d => (data_id d, s)
  | None =>
      let did := st_seq_data s + 1 in
      let row := mkdata did (md5 payload) (sha1 payload) (sha256 payload)
                   (Z.of_nat (length payload)) 1 in
      let s := set_data_tables (st_data s ++ [row]) (st_block s)
                 (st_blockmap s) did (st_seq_block s) s in
      (did, insert_blocks did 0 (slices n payload) s)
  end.

(** DML through the cursor: it changes what the connection sees. *)
Definition modify_content {A} (f : store → A * store) : py A :=
  λ db,
    let c := dbcon db in
    let '(a, s) := f (content c) in
    (Returns a, set_dbcon (mkconnection s (journal c) (executed c)) db).

(** Modelled from the spec: [insert_data(stream)] of the absent
    [_database.py] / [_data.py], with the block size as a parameter.
    Section 7 wraps every multi-statement operation in a transaction,
    with the begin/end pairing of section 4.8. *)
Definition insert_data_with (n : nat) (stream : list byte) : py Z :=
  do started_transaction <- begin_transaction;
  do id <- modify_content (store_data n stream);
  run end_if_started started_transaction;
  ret id.

Definition insert_data (stream : list byte) : py Z :=
  insert_data_with (Z.to_nat BLOCKSIZE) stream.

(** Modelled from the spec: [get_data(id)], section 4.3 and 4.6: a handle
    on the data row, [NoSuchDataObjectError] when the id is not present;
    [length] equals [data.size]. *)
Definition get_data (id : Z) : py DataHandle :=
  do rows <- attr (λ db, st_data (content (dbcon db)));
  match data_by_id id rows with
  | None => raise (NoSuchDataObjectError "data object not found")
  | Some d =>
      ret (mkDataHandle (data_id d) (data_md5 d) (data_sha1 d)
             (data_sha256 d) (data_size d) (data_stored d))
  end.

(** Modelled from the spec: [handle.read()] on a fresh handle, section
    4.3: the blocks are fetched when read is called, in offset order
    across block boundaries; a metadata-only object cannot be read. *)
Definition read (h : DataHandle) : py (list byte) :=
  do s <- attr (λ db, content (dbcon db));
  if handle_stored h =? 1 then
    match stored_content (handle_id h) s with
    | Some bytes => ret bytes
    | None => raise (SQLError "SQLError: no such block")
    end
  else raise (ValueError "data object is not stored").

Definition PREFIX : string := "x".
Definition PKEY : string := "id".

(** Modelled from the spec: the datatype registry of the absent
    [_datatype.py], section 4.2, in its order. *)
Definition datatype_registry : list (string * datatype) :=
  [ ("Datetime", Datetime); ("Date", Date); ("Integer", Integer);
    ("String", String_); ("Bytes", Bytes); ("Bool", Bool);
    ("TimeDelta", TimeDelta); ("Float", Float); ("NULL", NULL);
    ("Data", Data) ].

(** A data table under its prefixed name. *)
Definition prefixed (prefix : string) (t : tbl) : tbl :=
  mktbl (validname (tbl_name t) prefix) (tbl_description t) (fields t)
        (tblconstraint t).

(** Modelled from the spec: the tables of a repository, section 6: the
    six meta tables and the three content tables under the prefix. *)
Definition repository_tables (prefix : string) : list tbl :=
  _reserved_ :: _operational_tables_ ++ map (prefixed prefix) _data_tables_.

(** Modelled from the spec: [Database(name).create()], section 3.5: DDL
    for the tables and the seed of [_reserved_]. *)
Definition create (name : string) : Database :=
  let s := mkstore (repository_tables PREFIX)
             [mkreserved PKEY SCHEMAVERSION APIVERSION PREFIX None]
             [] [] ∅ [] [] [] 0 0 in
  mkDatabase name (mkconnection s None []) PREFIX PKEY ∅ ∅
    datatype_registry
    (map (λ t, (tbl_name t, t)) (repository_tables PREFIX)).

(** Modelled from the spec: [close()], section 3.5: an in-flight
    transaction rolls back; what is left is the repository file. *)
Definition close (db : Database) : store :=
  match journal (dbcon db) with
  | Some s => s
  | None => content (dbcon db)
  end.

(** Modelled from the spec: [Database(name).load()], section 3.4 (5) and
    3.5: the [_reserved_] row must carry the compiled-in versions, prefix
    and pkey; the model cache is rebuilt from the catalog. *)
Definition load (name : string) (file : store) : outcome Database :=
  match st_reserved file with
  | [r] =>
      if (schemaversion r =? SCHEMAVERSION) && (apiversion r =? APIVERSION)
         && String.eqb (prefix_ r) PREFIX && String.eqb (pkey_ r) PKEY
      then
        Returns
          (mkDatabase name (mkconnection file None []) (prefix_ r) (pkey_ r)
             (list_to_map (st_models file)) ∅ datatype_registry
             (map (λ t, (tbl_name t, t)) (repository_tables (prefix_ r))))
      else Raises (RepositoryMismatch "incompatible repository")
  | _ => Raises (RepositoryMismatch "no reserved row")
  end.

End Repository.

(** ** Notions used to state the properties *)

(** A transaction is active on the handle. *)
Definition active (db : Database) : bool :=
  match journal (dbcon db) with
  | Some _ => true
  | None => false
  end.

(** The views the connection sees. *)
Definition views (db : Database) : gmap string string :=
  st_views (content (dbcon db)).

(** What the timeline code reads of a handle. *)
Definition catalog (db : Database)
  : list fieldinfo * gmap string string * string * string :=
  (st_fieldinfo (content (dbcon db)), models db, prefix db, pkey db).

(** A computation that only reads the catalog: it leaves the handle as it
    is, and its outcome is the same on two handles with the same catalog. *)
Definition query {A} (m : py A) : Prop :=
  ∀ db : Database,
    snd (m db) = db ∧
    ∀ db' : Database, catalog db = catalog db' → fst (m db) = fst (m db').

(** The name of the timeline view of a handle. *)
Definition timeline_name (db : Database) : string := prefix db +:+ "Timeline_".

(** The handle after the first two statements of [create_timeline_view]:
    a transaction is active and the timeline view is gone. *)
Definition after_drop (db : Database) : Database :=
  set_dbcon
    (mkconnection
       (set_views (delete (timeline_name db) (views db)) (content (dbcon db)))
       (Some (default (content (dbcon db)) (journal (dbcon db))))
       (executed (dbcon db) ++
        ["BEGIN TRANSACTION"; "DROP VIEW IF EXISTS " +:+ timeline_name db]))
    db.

(** The sub-selects of the timeline: one per field [timeline_fields] keeps. *)
Definition timeline_subqueries (excluded : exclusion) : py (list string) :=
  do fds <- timeline_fields excluded;
  for_each _modeltimeline_subquery fds.

(** The text of the CREATE VIEW statement for a list of sub-selects. *)
Definition create_view_text (p : string) (allfields : list string) : string :=
  "CREATE VIEW " +:+ p +:+ "Timeline_ AS " +:+
  join (nl +:+ nl +:+ "UNION" +:+ nl +:+ nl) allfields +:+ " ORDER BY timestamp_".

(** The names an [excluded] argument excludes. *)
Definition excluded_names (excluded : exclusion) : list string :=
  match excluded with
  | PyList names => names
  | _ => []
  end.

(** An [excluded] argument the check lets through: [None], or a list of
    registered model names. *)
Definition accepted (db : Database) (excluded : exclusion) : bool :=
  match excluded with
  | PyNone => true
  | PyList names =>
      forallb (λ n, match models db !! n with Some _ => true | None => false end)
              names
  | PyOther => false
  end.

(** The rows of [_fieldinfo_] the timeline is made of for a list of excluded
    model names: the Datetime fields, then the Date fields, of the models
    that are not excluded. *)
Definition temporal_fields (rows : list fieldinfo) (names : list string)
  : list fieldinfo :=
  List.filter (λ f, value_eqb (datatype_ f) (Some "Datetime")
                    && negb (in_names (modelname_ f) names)) rows ++
  List.filter (λ f, value_eqb (datatype_ f) (Some "Date")
                    && negb (in_names (modelname_ f) names)) rows.

(** The row has a column name and a model table (neither is NULL). *)
Definition named (r : fieldinfo) : bool :=
  match columnname_ r, modeltable_ r with
  | Some _, Some _ => true
  | _, _ => false
  end.

(** The row has a column name. *)
Definition has_column (r : fieldinfo) : bool :=
  match columnname_ r with
  | Some _ => true
  | None => false
  end.

(** The columns of the table [t] that go into its preview: marked for
    previews, with a datatype that is not NULL, not empty and not Bytes. *)
Definition preview_rows (rows : list fieldinfo) (t : option string)
  : list fieldinfo :=
  List.filter (λ c, value_eqb (modeltable_ c) t
                    && has_text_datatype c && in_preview c) rows.

(** The names the sub-select of the field [fd] is built from are in
    place: the column and the table of [fd], and the column of every
    preview column of that table. *)
Definition subselect_named (rows : list fieldinfo) (fd : fieldinfo) : bool :=
  named fd && forallb has_column (preview_rows rows (modeltable_ fd)).

(** The columns the preview would have if only Bytes columns were left out. *)
Definition claimed_preview_rows (rows : list fieldinfo) (t : option string)
  : list fieldinfo :=
  List.filter (λ c, value_eqb (modeltable_ c) t
                    && negb (value_eqb (datatype_ c) (Some "Bytes"))
                    && in_preview c) rows.

(** The entry of one column in the preview expression. *)
Definition entry_text (c : fieldinfo) : string :=
  "'" +:+ fieldname_ c +:+ ":' || COALESCE(CAST(" +:+
  default "" (columnname_ c) +:+ " AS TEXT),'')" +:+ nl.

(** The preview expression over a list of columns: the SQL empty string
    when there is none, else their entries joined by [|| '|' ||]. *)
Definition preview_text (cols : list fieldinfo) : string :=
  match cols with
  | [] => "''"
  | _ => join " || '|' || " (map entry_text cols)
  end.

(** The sub-select of a temporal field [fd] over the rows of the view. *)
Definition subselect (rows : list fieldinfo) (p k : string) (fd : fieldinfo)
  : string :=
  let c := default "" (columnname_ fd) in
  let t := default "" (modeltable_ fd) in
  subquery_text c c t p k (preview_text (preview_rows rows (modeltable_ fd))) t c.

(** The sub-select with the name of the field, not of its column, in the
    [timestampfield_] literal. *)
Definition claimed_subselect (rows : list fieldinfo) (p k : string)
    (fd : fieldinfo) : string :=
  let c := default "" (columnname_ fd) in
  let t := default "" (modeltable_ fd) in
  subquery_text c (fieldname_ fd) t p k
    (preview_text (preview_rows rows (modeltable_ fd))) t c.

(** The string has no space in it. *)
Fixpoint no_space (s : string) : bool :=
  match s with
  | EmptyString => true
  | String c rest => negb (Ascii.eqb c " ") && no_space rest
  end.

(** The exception of the exclusion loop. *)
Definition invalid_modelname : exn :=
  ValueError "timeline exclusion list contains invalid modelname".

(** ** The invariant of the content tables *)

(** No two byte strings share a sha1, none share a sha256: the assumption
    under which a digest identifies its content. *)
Definition collision_free (H : hashlib) : Prop :=
  (∀ a b : list byte, sha1 a = sha1 b → a = b) ∧
  (∀ a b : list byte, sha256 a = sha256 b → a = b).

(** The payload collides with nothing the store holds, for a block size of
    [n] bytes: a stored data object with the sha256 of the payload has the
    payload as its content, and a block of the store, or a slice of the
    payload, with the sha1 and the size of a slice of the payload has the
    bytes of that slice.  This is what reuse by digest relies on; it can
    hold for digests of fixed width, which have collisions elsewhere. *)
Definition no_collision {H : hashlib} (n : nat) (payload : list byte) (s : store)
  : Prop :=
  (∀ d bytes, d ∈ st_data s → data_stored d = 1 →
     stored_content (data_id d) s = Some bytes →
     sha256 bytes = sha256 payload → bytes = payload) ∧
  (∀ blk x, blk ∈ slices n payload →
     x ∈ map block_data (st_block s) ++ slices n payload →
     sha1 x = sha1 blk → length x = length blk → x = blk).

(** Offsets that do not decrease, starting at [lo] or after. *)
Fixpoint ascending (lo : Z) (rows : list blockmap_row) : Prop :=
  match rows with
  | [] => True
  | r :: rest => lo ≤ offset r ∧ ascending (offset r) rest
  end.

(** Section 3.4 (2, 3) with what AUTOINCREMENT gives: every block carries
    the sha1 and the size of its bytes; ids are unique and not above their
    sequence counter; every stored data object reads back as bytes of the
    recorded sha256 and size. *)
Record consistent {H : hashlib} (s : store) : Prop := mkconsistent {
  blocks_hashed :
    ∀ b, b ∈ st_block s →
         block_sha1 b = sha1 (block_data b) ∧
         block_size b = Z.of_nat (length (block_data b));
  block_ids_fresh : ∀ b, b ∈ st_block s → block_id b ≤ st_seq_block s;
  block_ids_unique : NoDup (map block_id (st_block s));
  data_ids_fresh : ∀ d, d ∈ st_data s → data_id d ≤ st_seq_data s;
  data_ids_unique : NoDup (map data_id (st_data s));
  blockmap_fresh : ∀ r, r ∈ st_blockmap s → dataid r ≤ st_seq_data s;
  stored_readable :
    ∀ d, d ∈ st_data s → data_stored d = 1 →
         ∃ bytes, stored_content (data_id d) s = Some bytes ∧
                  data_sha256 d = sha256 bytes ∧
                  data_size d = Z.of_nat (length bytes)
}.

(** The part of the invariant that is about the blocks. *)
Definition blocks_consistent {H : hashlib} (s : store) : Prop :=
  (∀ b, b ∈ st_block s →
        block_sha1 b = sha1 (block_data b) ∧
        block_size b = Z.of_nat (length (block_data b))) ∧
  (∀ b, b ∈ st_block s → block_id b ≤ st_seq_block s) ∧
  NoDup (map block_id (st_block s)).

(** Digests that are collision free by construction (the bytes themselves
    as text), to run the data store on. *)
Definition verbatim_digests : hashlib :=
  {| md5 := string_of_list_byte;
     sha1 := string_of_list_byte;
     sha256 := string_of_list_byte |}.

(** Digests of fixed width, and so with collisions: the first byte of the
    content, as text. *)
Definition first_byte_digests : hashlib :=
  {| md5 := λ bytes, string_of_list_byte (take 1 bytes);
     sha1 := λ bytes, string_of_list_byte (take 1 bytes);
     sha256 := λ bytes, string_of_list_byte (take 1 bytes) |}.

(** The seven bytes of the transaction test. *)
Definition seven_bytes : list byte := [x00; x01; x02; x03; x04; x05; x06].

(** ** A small repository to run the code on *)

(** One model [file] with a text field, a Datetime field, a binary field and
    a submodel field without a datatype; a timeline view from an earlier
    call is present. *)
Definition example_fieldinfo : list fieldinfo :=
  [ mkfieldinfo (Some "file") (Some "xfile") "name" (Some "xname") (Some "String") (Some 1);
    mkfieldinfo (Some "file") (Some "xfile") "mtime" (Some "xmtime") (Some "Datetime") (Some 1);
    mkfieldinfo (Some "file") (Some "xfile") "blob" (Some "xblob") (Some "Bytes") (Some 1);
    mkfieldinfo (Some "file") (Some "xfile") "parent" (Some "xparent") None (Some 1) ].

Definition example_store : store :=
  mkstore (repository_tables "x") [mkreserved "id" SCHEMAVERSION 1 "x" None]
    [("file", "xfile")] example_fieldinfo
    {[ "xTimeline_" := "SELECT 1 AS timestamp_ ORDER BY timestamp_" ]}
    [] [] [] 0 0.

Definition example_db : Database :=
  mkDatabase "example.db" (mkconnection example_store None []) "x" "id"
    {[ "file" := "xfile" ]} ∅ datatype_registry
    (map (λ t, (tbl_name t, t)) (repository_tables "x")).

(** The example with one more field of [file], a list of tags: it has no
    column in the table of the model and no datatype in [_field_]. *)
Definition tagged_fieldinfo : list fieldinfo :=
  example_fieldinfo ++
  [ mkfieldinfo (Some "file") (Some "xfile") "tags" None None (Some 1) ].

Definition tagged_db : Database :=
  mkDatabase "tagged.db"
    (mkconnection
       (mkstore (repository_tables "x") [mkreserved "id" SCHEMAVERSION 1 "x" None]
          [("file", "xfile")] tagged_fieldinfo ∅ [] [] [] 0 0)
       None [])
    "x" "id" {[ "file" := "xfile" ]} ∅ datatype_registry
    (map (λ t, (tbl_name t, t)) (repository_tables "x")).

(** The Datetime field of the example. *)
Definition example_mtime : fieldinfo :=
  mkfieldinfo (Some "file") (Some "xfile") "mtime" (Some "xmtime") (Some "Datetime") (Some 1).



(** The same repository when the digest is the first byte. *)
Definition first_byte_db : Database :=
  let h := string_of_list_byte [x00] in
  mkDatabase "stored.db"
    (mkconnection
       (mkstore (repository_tables "x") [mkreserved "id" SCHEMAVERSION 1 "x" None]
          [] [] ∅
          [mkdata 1 h h h 7 1] [mkblock 1 h 7 seven_bytes] [mkblockmap 1 1 0] 1 1)
       None ["BEGIN TRANSACTION"; "COMMIT"])
    "x" "id" ∅ ∅ datatype_registry
    (map (λ t, (tbl_name t, t)) (repository_tables "x")).

(** Two bytes that are not in it, with another first byte. *)
Definition two_bytes : list byte := [x07; x08].

Definition union_text (allfields : list string) : string :=
  join (nl +:+ nl +:+ "UNION" +:+ nl +:+ nl) allfields +:+ " ORDER BY timestamp_".

(** The repository a successful call leaves: the timeline view is gone when
    there is no sub-select, and is the UNION of the sub-selects otherwise. *)
Definition timeline_content (db : Database) (subs : list string) : store :=
  set_views
    (if Z.of_nat (length subs) =? 0
     then delete (timeline_name db) (views db)
     else <[timeline_name db := union_text subs]>
            (delete (timeline_name db) (views db)))
    (content (dbcon db)).


Definition format_None : exn :=
  TypeError "unsupported format string passed to NoneType.__format__".

Definition unnamed_db : Database :=
  mkDatabase "unnamed.db"
    (mkconnection
       (mkstore (repository_tables "x") [mkreserved "id" SCHEMAVERSION 1 "x" None]
          [("event", "xevent")]
          [mkfieldinfo (Some "event") (Some "xevent") "seen" None (Some "Datetime") (Some 1)]
          ∅ [] [] [] 0 0)
       None [])
    "x" "id" {[ "event" := "xevent" ]} ∅ datatype_registry
    (map (λ t, (tbl_name t, t)) (repository_tables "x")).


(** The character occurs in the string. *)
Fixpoint occurs (c : ascii) (s : string) : bool :=
  match s with
  | EmptyString => false
  | String x rest => Ascii.eqb x c || occurs c rest
  end.


(** ** models/zipmodel.py: the extra field of a zip entry *)
(** The exceptions [_parse_extra] can raise: [struct.error] of [unpack],
    [IndexError] of [field[0]], and its own [ValueError]s. *)
Inductive extra_exn : Type :=
| struct_error
| IndexError
| ExtraValueError (msg : string).

Inductive raised (A : Type) : Type :=
| Done (a : A)
| Raised (e : extra_exn).
Arguments Done {A} a.
Arguments Raised {A} e.

Definition and_then {A B} (m : raised A) (k : A → raised B) : raised B :=
  match m with
  | Done a => k a
  | Raised e => Raised e
  end.

Notation "'attempt' x <- m ; k" := (and_then m (λ x, k))
  (at level 10, x name, m at level 100, k at level 200).

(** [datetime.fromtimestamp(seconds, utc)] *)
Inductive datetime : Type :=
| fromtimestamp (seconds : Z).

(** [data[a:b]] for [0 <= a]. *)
Definition slice {A} (a b : nat) (data : list A) : list A :=
  take (b - a) (drop a data).

(** The unsigned little-endian number in the bytes. *)
Fixpoint le_uint (bs : list byte) : Z :=
  match bs with
  | [] => 0
  | b :: rest => Z.of_N (Byte.to_N b) + 256 * le_uint rest
  end.

(** The number of bytes of a format character of [struct]: in a [<] format
    [B] is 1, [H] is 2, [I] and [L] are 4, [Q] is 8. *)
Definition format_size (c : ascii) : nat :=
  if Ascii.eqb c "B" then 1
  else if Ascii.eqb c "H" then 2
  else if Ascii.eqb c "I" then 4
  else if Ascii.eqb c "L" then 4
  else if Ascii.eqb c "Q" then 8
  else 0.

Fixpoint format_sizes (fmt : string) : list nat :=
  match fmt with
  | EmptyString => []
  | String c rest =>
      if Ascii.eqb c "<" then format_sizes rest
      else format_size c :: format_sizes rest
  end.

Fixpoint unpack_fields (sizes : list nat) (buffer : list byte) : list Z :=
  match sizes with
  | [] => []
  | n :: rest => le_uint (take n buffer) :: unpack_fields rest (drop n buffer)
  end.

(** [struct.unpack(fmt, buffer)] for the little-endian unsigned formats the
    module uses: the buffer must have exactly the size of the format. *)
Definition _unpack (fmt : string) (buffer : list byte) : raised (list Z) :=
  if Nat.eqb (length buffer) (list_sum (format_sizes fmt))
  then Done (unpack_fields (format_sizes fmt) buffer)
  else Raised struct_error.

(** The local variables of [_parse_extra] that outlive an iteration. *)
Record extra_state : Type := mkextra {
  mtime : option datetime;
  atime : option datetime;
  ctime : option datetime;
  btime : option datetime;
  uid : option Z;
  gid : option Z;
  inode : option Z;
  device : option Z;
  swap_timestamps : bool
}.

Definition set_mtime (v : datetime) (s : extra_state) : extra_state :=
  mkextra (Some v) (atime s) (ctime s) (btime s) (uid s) (gid s) (inode s)
          (device s) (swap_timestamps s).
Definition set_atime (v : datetime) (s : extra_state) : extra_state :=
  mkextra (mtime s) (Some v) (ctime s) (btime s) (uid s) (gid s) (inode s)
          (device s) (swap_timestamps s).
Definition set_ctime (v : datetime) (s : extra_state) : extra_state :=
  mkextra (mtime s) (atime s) (Some v) (btime s) (uid s) (gid s) (inode s)
          (device s) (swap_timestamps s).
Definition set_btime (v : datetime) (s : extra_state) : extra_state :=
  mkextra (mtime s) (atime s) (ctime s) (Some v) (uid s) (gid s) (inode s)
          (device s) (swap_timestamps s).
Definition set_uid (v : Z) (s : extra_state) : extra_state :=
  mkextra (mtime s) (atime s) (ctime s) (btime s) (Some v) (gid s) (inode s)
          (device s) (swap_timestamps s).
Definition set_gid (v : Z) (s : extra_state) : extra_state :=
  mkextra (mtime s) (atime s) (ctime s) (btime s) (uid s) (Some v) (inode s)
          (device s) (swap_timestamps s).
Definition set_inode_device (i d : Z) (s : extra_state) : extra_state :=
  mkextra (mtime s) (atime s) (ctime s) (btime s) (uid s) (gid s) (Some i)
          (Some d) (swap_timestamps s).
Definition set_swap_timestamps (s : extra_state) : extra_state :=
  mkextra (mtime s) (atime s) (ctime s) (btime s) (uid s) (gid s) (inode s)
          (device s) true.

(** One timestamp of a UT block:
    [if flags&bit and offset+4 <= size: t = unpack('<I', field[offset:offset+4])[0];
     t = fromtimestamp(t, utc); offset += 4]. *)
Definition ut_timestamp (bit flags size : Z) (field : list byte)
    (set : datetime → extra_state → extra_state) (acc : extra_state * nat)
  : raised (extra_state * nat) :=
  let '(s, off) := acc in
  if negb (Z.land flags bit =? 0) && (Z.of_nat off + 4 <=? size) then
    attempt t <- _unpack "<I" (slice off (off + 4) field);
    Done (set (fromtimestamp (nth 0 t 0)) s, (off + 4)%nat)
  else Done (s, off).

(** The body of the [while] loop after the header is parsed: the effect of
    one block with the given magic, declared size and carved-out field. *)
Definition parse_block (magic size : Z) (field : list byte) (s : extra_state)
  : raised extra_state :=
  if magic =? 0x5455 then
    match field with
    | [] => Raised IndexError
    | f0 :: _ =>
        let flags := Z.of_N (Byte.to_N f0) in
        attempt a1 <- ut_timestamp 1 flags size field set_mtime (s, 1%nat);
        attempt a2 <- ut_timestamp 2 flags size field set_atime a1;
        attempt a3 <- ut_timestamp 4 flags size field set_btime a2;
        attempt a4 <- ut_timestamp 8 flags size field set_ctime a3;
        Done (fst a4)
    end
  else if magic =? 0x4e49 then
    attempt v <- _unpack "<QI" field;
    Done (set_inode_device (nth 0 v 0) (nth 1 v 0) s)
  else if magic =? 0x5855 then
    if size =? 8 then
      attempt v <- _unpack "<LL" field;
      Done (set_mtime (fromtimestamp (nth 1 v 0))
              (set_atime (fromtimestamp (nth 0 v 0)) s))
    else if size =? 12 then
      attempt v <- _unpack "<LLHH" field;
      Done (set_gid (nth 3 v 0)
              (set_uid (nth 2 v 0)
                 (set_mtime (fromtimestamp (nth 1 v 0))
                    (set_atime (fromtimestamp (nth 0 v 0)) s))))
    else Done s
  else if magic =? 0x7875 then
    attempt v <- _unpack "<BB" (slice 0 2 field);
    let uidsize := nth 1 v 0 in
    if uidsize =? 4 then
      attempt w <- _unpack "<IB" (slice 2 7 field);
      let s := set_uid (nth 0 w 0) s in
      if uidsize =? 4 then
        attempt g <- _unpack "<I" (slice 7 11 field);
        Done (set_gid (nth 0 g 0) s)
      else Done s
    else Done s
  else if magic =? 0x4b47 then
    let s := set_swap_timestamps s in
    match field with
    | [] => Raised IndexError
    | field0 :: _ =>
        if negb (Z.of_N (Byte.to_N field0) =? 1)
        then Raised (ExtraValueError "Assumption broken: only observed value 1 here")
        else Done s
    end
  else Done s.

(** The [while pos < maxpos] loop; a turn of the loop moves [pos] forward by
    at least four, so [fuel] turns are enough for any data of at most
    [fuel] bytes; [None] would mean the fuel ran out. *)
Fixpoint parse_loop (fuel : nat) (data : list byte) (pos : nat) (s : extra_state)
  : option (raised extra_state) :=
  if Z.of_nat pos <? Z.of_nat (length data) - 4 then
    match fuel with
    | O => None
    | S fuel' =>
        match _unpack "<HH" (slice pos (pos + 4) data) with
        | Raised e => Some (Raised e)
        | Done header =>
            let magic := nth 0 header 0 in
            let size := nth 1 header 0 in
            let field := slice (pos + 4) (pos + 4 + Z.to_nat size) data in
            let pos := (pos + 4 + Z.to_nat size)%nat in
            match parse_block magic size field s with
            | Raised e => Some (Raised e)
            | Done s' => parse_loop fuel' data pos s'
            end
        end
    end
  else Some (Done s).

(** The tuple [_parse_extra] returns. *)
Definition extra_tuple : Type :=
  option datetime * option datetime * option datetime * option datetime *
  option Z * option Z * option Z * option Z.

(** parse a subset of the extra info stored in some zip files *)
Definition _parse_extra (data : list byte) : option (raised extra_tuple) :=
  match parse_loop (length data) data 0
          (mkextra None None None None None None None None false) with
  | None => None
  | Some (Raised e) => Some (Raised e)
  | Some (Done s) =>
      if swap_timestamps s
      then Some (Raised (ExtraValueError "This needs more testing."))
      else Some (Done (mtime s, atime s, ctime s, btime s,
                       uid s, gid s, inode s, device s))
  end.

(** ** Encoders, to state round trips of [_parse_extra] *)
(** The byte with the value [v mod 256]. *)
Definition byte_of_Z (v : Z) : byte :=
  match Byte.of_N (Z.to_N (v mod 256)) with
  | Some b => b
  | None => x00
  end.

(** [v] as [n] bytes, little-endian. *)
Fixpoint le_bytes (n : nat) (v : Z) : list byte :=
  match n with
  | O => []
  | S n' => byte_of_Z v :: le_bytes n' (v / 256)
  end.

(** An extra block: the magic and the size of the payload as two
    little-endian 16-bit numbers, then the payload. *)
Definition extra_block (magic : Z) (payload : list byte) : list byte :=
  le_bytes 2 magic ++ le_bytes 2 (Z.of_nat (length payload)) ++ payload.

(** The local variables before the loop. *)
Definition extra_defaults : extra_state :=
  mkextra None None None None None None None None false.

(** The magics [_parse_extra] knows. *)
Definition known_magic (magic : Z) : bool :=
  (magic =? 0x5455) || (magic =? 0x4e49) || (magic =? 0x5855) ||
  (magic =? 0x7875) || (magic =? 0x4b47).

(** The loop run on [data] from its start with the variables as in [s]. *)
Definition parse_from (s : extra_state) (data : list byte)
  : option (raised extra_state) :=
  parse_loop (length data) data 0 s.

(** What [_parse_extra] does after the loop. *)
Definition after_loop (r : option (raised extra_state))
  : option (raised extra_tuple) :=
  match r with
  | None => None
  | Some (Raised e) => Some (Raised e)
  | Some (Done s) =>
      if swap_timestamps s
      then Some (Raised (ExtraValueError "This needs more testing."))
      else Some (Done (mtime s, atime s, ctime s, btime s,
                       uid s, gid s, inode s, device s))
  end.

(** A sequence of extra blocks, given by magic and payload. *)
Definition extra_blocks (blocks : list (Z * list byte)) : list byte :=
  concat (map (λ b, extra_block (fst b) (snd b)) blocks).

(** Magic and payload fit the 16-bit header and the payload is not empty. *)
Definition proper_block (b : Z * list byte) : Prop :=
  0 ≤ fst b < 65536 ∧ 0 < Z.of_nat (length (snd b)) < 65536.



(** The flag bit of a UT block for a timestamp that may be stored. *)
Definition ut_flag (bit : Z) (t : option Z) : Z :=
  match t with
  | Some _ => bit
  | None => 0
  end.

(** The four bytes of a stored timestamp. *)
Definition ut_time (t : option Z) : list byte :=
  match t with
  | Some v => le_bytes 4 v
  | None => []
  end.

(** The payload of a UT block: the flags, then the timestamps the flags
    announce, in the order of the bits. *)
Definition ut_payload (t1 t2 t3 t4 : option Z) : list byte :=
  byte_of_Z (ut_flag 1 t1 + ut_flag 2 t2 + ut_flag 4 t3 + ut_flag 8 t4) ::
  ut_time t1 ++ ut_time t2 ++ ut_time t3 ++ ut_time t4.

(** A timestamp that fits its four bytes. *)
Definition timestamp32 (t : option Z) : Prop :=
  match t with
  | Some v => 0 ≤ v < 2 ^ 32
  | None => True
  end.



(** The blocks taken in order, each with the size of its payload, up to
    the first one that raises. *)
Fixpoint parse_blocks (blocks : list (Z * list byte)) (s : extra_state)
  : raised extra_state :=
  match blocks with
  | [] => Done s
  | b :: rest =>
      attempt s' <- parse_block (fst b) (Z.of_nat (length (snd b))) (snd b) s;
      parse_blocks rest s'
  end.


(** ** models/stringsmodel.py: search terms *)
(** [s.split(sep)] for a separator of one character: the pieces between
    the separators, empty pieces included. *)
Fixpoint split_on (sep : ascii) (s : string) : list string :=
  match s with
  | EmptyString => [EmptyString]
  | String c rest =>
      if Ascii.eqb c sep then EmptyString :: split_on sep rest
      else match split_on sep rest with
           | [] => [String c EmptyString]
           | w :: ws => String c w :: ws
           end
  end.

(** [[c for c in components if c != '']] *)
Definition drop_empty (components : list string) : list string :=
  List.filter (λ c, negb (String.eqb c "")) components.

(** convert the given search term(s) to LIKE query *)
Definition _like_query (search_string : string) : string :=
  let components := split_on "*" search_string in
  let components := drop_empty components in
  let qstring := join "%" components in
  let qstring := "%" +:+ qstring +:+ "%" in
  qstring.

(** The double quote. *)
Definition dquote : string := String (ascii_of_nat 34) EmptyString.

(** convert the search string to a proper FTS phrase *)
Definition _string_to_fts_phrase (string : String.string) : String.string :=
  let components := split_on "*" string in
  let components := drop_empty components in
  let components := map (λ c, dquote +:+ c +:+ dquote) components in
  let phrase := join "*" components in
  let phrase := phrase +:+ "*" in
  phrase.

(** A search word: not empty and without an asterisk. *)
Definition search_word (w : string) : Prop :=
  w ≠ "" ∧ occurs "*" w = false.

(** ** models/stringsmodel.py: reading a file block by block *)
Module stringsmodel.

(** Size of the blocks fed into strings command *)
Definition BLOCKSIZE : Z := 50 * 1024 * 1024.

(** Default maximum number of bytes in a search hit *)
Definition DEFAULT_HIT_SPAN : Z := 4096.

(** Maximum number of bytes in a search hit *)
Definition MAX_HIT_SPAN : Z := 16384.

(** [f.data.seek(offset); f.data.read(n)] on a file with the content
    [data]: at most [n] bytes from [offset] on, fewer at the end of the
    file. *)
Definition read_at (data : list byte) (offset n : Z) : list byte :=
  take (Z.to_nat n) (drop (Z.to_nat offset) data).

(** What [_process_file] yields: [block_offset, result, error]. *)
Definition strings_output : Type := Z * option string * option string.


Section blocks.

(** [_process_block(block, encoding)]: the output of the [strings] command
    on the block, and the error. *)
Variable _process_block : list byte → string → option string * option string.

(** The [while block_offset < f.size] loop of [_process_file], on a file
    [f] with [f.size = len(data)]; [None] would mean the fuel ran out. *)
Fixpoint process_loop (fuel : nat) (data : list byte) (encoding : string)
    (block_offset : Z) : option (list strings_output) :=
  if block_offset <? Z.of_nat (length data) then
    match fuel with
    | O => None
    | S fuel' =>
        let block := read_at data block_offset BLOCKSIZE in
        let '(result, error) := _process_block block encoding in
        let yielded :=
          match result with
          | Some _ => [(block_offset, result, error)]
          | None => []
          end in
        if block_offset + Z.of_nat (length block) =? Z.of_nat (length data)
        then Some yielded
        else
          match process_loop fuel' data encoding
                  (block_offset + (Z.of_nat (length block) - MAX_HIT_SPAN)) with
          | Some rest => Some (yielded ++ rest)
          | None => None
          end
    end
  else Some [].

(** process the file in a blockwise manner *)
Definition _process_file (data : list byte) (encoding : string)
  : option (list strings_output) :=
  if Z.of_nat (length data) <? BLOCKSIZE then
    let '(out, err) := _process_block data encoding in
    Some [(0, out, err)]
  else process_loop (length data) data encoding 0.

(** The compiled regular expressions and [regex.finditer(block)], as the
    [(start, end)] spans of the matches. *)
Variable regex : Type.
Variable finditer : regex → list byte → list (Z * Z).

(** [_build_regexes(string, hit_span)] *)
Variable _build_regexes : string → Z → list regex.





End blocks.

End stringsmodel.


(** * Properties *)


(** ** The backend and the transaction facade *)

Lemma strip_prefix_app p s : strip_prefix p (p +:+ s) = Some s.
Proof.
  induction p as [|a p IH]; simpl; [reflexivity|].
  rewrite Ascii.eqb_refl. exact IH.
Qed.

Lemma parse_drop v :
  parse ("DROP VIEW IF EXISTS " +:+ v) = Some (DROP_VIEW_IF_EXISTS v).
Proof. reflexivity. Qed.

Lemma execute_drop v db :
  execute ("DROP VIEW IF EXISTS " +:+ v) db =
  (Returns tt,
   set_dbcon
     (mkconnection
        (set_views (delete v (st_views (content (dbcon db)))) (content (dbcon db)))
        (journal (dbcon db))
        (executed (dbcon db) ++ ["DROP VIEW IF EXISTS " +:+ v]))
     db).
Proof. reflexivity. Qed.

Lemma begin_transaction_idle db :
  journal (dbcon db) = None →
  begin_transaction db =
  (Returns true,
   set_dbcon (mkconnection (content (dbcon db)) (Some (content (dbcon db)))
                (executed (dbcon db) ++ ["BEGIN TRANSACTION"])) db).
Proof.
  intros Hj. unfold begin_transaction, execute. simpl. rewrite Hj. reflexivity.
Qed.

Lemma begin_transaction_active db j :
  journal (dbcon db) = Some j →
  begin_transaction db =
  (Returns false,
   set_dbcon (mkconnection (content (dbcon db)) (Some j)
                (executed (dbcon db) ++ ["BEGIN TRANSACTION"])) db).
Proof.
  intros Hj. unfold begin_transaction, execute. simpl. rewrite Hj. reflexivity.
Qed.

Lemma end_transaction_active db j :
  journal (dbcon db) = Some j →
  end_transaction db =
  (Returns tt,
   set_dbcon (mkconnection (content (dbcon db)) None
                (executed (dbcon db) ++ ["COMMIT"])) db).
Proof.
  intros Hj. unfold end_transaction, execute. simpl. rewrite Hj. reflexivity.
Qed.

Lemma rollback_transaction_active db j :
  journal (dbcon db) = Some j →
  rollback_transaction db =
  (Returns true,
   set_dbcon (mkconnection j None (executed (dbcon db) ++ ["ROLLBACK"])) db).
Proof.
  intros Hj. unfold rollback_transaction, execute. simpl. rewrite Hj. reflexivity.
Qed.

Lemma rollback_transaction_idle db :
  journal (dbcon db) = None →
  rollback_transaction db =
  (Returns false,
   set_dbcon (mkconnection (content (dbcon db)) None
                (executed (dbcon db) ++ ["ROLLBACK"])) db).
Proof.
  intros Hj. unfold rollback_transaction, execute. simpl. rewrite Hj.
  destruct db as [n [c j e] p k m en dt tb]; simpl in *; subst; reflexivity.
Qed.

Lemma end_transaction_idle db :
  journal (dbcon db) = None →
  end_transaction db =
  (Raises (SQLError "SQLError: cannot commit - no transaction is active"),
   set_dbcon (mkconnection (content (dbcon db)) None
                (executed (dbcon db) ++ ["COMMIT"])) db).
Proof.
  intros Hj. unfold end_transaction, execute. simpl. rewrite Hj. reflexivity.
Qed.

(** C3, as the facade has it: with no transaction active
    [begin_transaction] returns true and starts one; while it is active
    every further [begin_transaction] returns false and leaves the
    transaction as it is; [end_transaction] commits the active transaction
    whoever calls it, the inner caller included, after which no transaction
    is active, a further [end_transaction] raises the error of the backend
    and nothing is left to roll back; [rollback_transaction] returns
    whether a transaction was active, so a second rollback in a row returns
    false. *)
Theorem nested_begin (db : Database) :
  active db = false →
  ∃ db1 : Database,
    begin_transaction db = (Returns true, db1) ∧ active db1 = true ∧
    content (dbcon db1) = content (dbcon db) ∧
    (∀ dbi : Database, active dbi = true →
       ∃ dbi' dbo dbe : Database,
         begin_transaction dbi = (Returns false, dbi') ∧ active dbi' = true ∧
         content (dbcon dbi') = content (dbcon dbi) ∧
         journal (dbcon dbi') = journal (dbcon dbi) ∧
         (* the caller that holds false commits all the same *)
         end_transaction dbi' = (Returns tt, dbo) ∧ active dbo = false ∧
         content (dbcon dbo) = content (dbcon dbi) ∧
         (* and leaves nothing to commit or to roll back *)
         end_transaction dbo =
           (Raises (SQLError "SQLError: cannot commit - no transaction is active"),
            dbe) ∧
         content (dbcon dbe) = content (dbcon dbi) ∧
         fst (rollback_transaction dbo) = Returns false) ∧
    (∀ dbo : Database, active dbo = true →
       ∃ dbo' : Database,
         end_transaction dbo = (Returns tt, dbo') ∧ active dbo' = false ∧
         content (dbcon dbo') = content (dbcon dbo)) ∧
    (∀ dbr : Database,
       ∃ dbr' dbr'' : Database,
         rollback_transaction dbr = (Returns (active dbr), dbr') ∧
         active dbr' = false ∧
         (∀ j, journal (dbcon dbr) = Some j → content (dbcon dbr') = j) ∧
         rollback_transaction dbr' = (Returns false, dbr'')).
Proof.
  unfold active. intros Hidle.
  assert (Hj : journal (dbcon db) = None)
    by (destruct (journal (dbcon db)); [discriminate|reflexivity]).
  eexists. split; [apply begin_transaction_idle, Hj|].
  split; [reflexivity|]. split; [reflexivity|]. split; [|split].
  - intros dbi Hact.
    destruct (journal (dbcon dbi)) as [j|] eqn:Hji; [|discriminate].
    do 3 eexists. split; [apply (begin_transaction_active _ j), Hji|].
    split; [reflexivity|]. split; [reflexivity|].
    split; [reflexivity|].
    split; [apply (end_transaction_active _ j); reflexivity|].
    split; [reflexivity|]. split; [reflexivity|].
    split; [apply end_transaction_idle; reflexivity|].
    split; [reflexivity|].
    rewrite rollback_transaction_idle by reflexivity. reflexivity.
  - intros dbo Hact.
    destruct (journal (dbcon dbo)) as [j|] eqn:Hjo; [|discriminate].
    eexists. split; [apply (end_transaction_active _ j), Hjo|].
    split; reflexivity.
  - intros dbr. destruct (journal (dbcon dbr)) as [j|] eqn:E.
    + do 2 eexists. split; [apply (rollback_transaction_active _ j E)|].
      split; [reflexivity|].
      split; [intros j' Hj'; simpl; congruence|].
      apply rollback_transaction_idle. reflexivity.
    + do 2 eexists. split; [apply (rollback_transaction_idle _ E)|].
      split; [reflexivity|].
      split; [intros j' Hj'; discriminate|].
      apply rollback_transaction_idle. reflexivity.
Qed.

(** ** Computations that only read the catalog *)

Lemma query_ret {A} (a : A) : query (ret a).
Proof. intros db. split; [reflexivity|]. intros; reflexivity. Qed.

Lemma query_raise {A} (e : exn) : query (@raise A e).
Proof. intros db. split; [reflexivity|]. intros; reflexivity. Qed.

Lemma query_bind {A B} (m : py A) (k : A → py B) :
  query m → (∀ a, query (k a)) → query (bind m k).
Proof.
  intros Hm Hk db. unfold bind.
  destruct (Hm db) as [Hs Hf].
  destruct (m db) as [r d] eqn:E. simpl in Hs. subst d. split.
  - destruct r; [apply Hk | reflexivity].
  - intros db' Hc. specialize (Hf db' Hc).
    destruct (Hm db') as [Hs' _].
    destruct (m db') as [r' d'] eqn:E'. simpl in *. subst.
    destruct r'; [apply Hk; assumption | reflexivity].
Qed.

Lemma query_for_each {A B} (body : A → py B) (xs : list A) :
  (∀ x, query (body x)) → query (for_each body xs).
Proof.
  intros Hb. induction xs as [|x xs IH]; simpl.
  - apply query_ret.
  - apply query_bind; [apply Hb|]. intros y.
    apply query_bind; [exact IH|]. intros ys. apply query_ret.
Qed.

Lemma query_attr_models : query (attr models).
Proof.
  intros db. split; [reflexivity|]. intros db' Hc. unfold attr. simpl.
  unfold catalog in Hc. congruence.
Qed.

Lemma query_attr_prefix : query (attr prefix).
Proof.
  intros db. split; [reflexivity|]. intros db' Hc. unfold attr. simpl.
  unfold catalog in Hc. congruence.
Qed.

Lemma query_attr_pkey : query (attr pkey).
Proof.
  intros db. split; [reflexivity|]. intros db' Hc. unfold attr. simpl.
  unfold catalog in Hc. congruence.
Qed.

Lemma query_select_fieldinfo column value : query (select_fieldinfo column value).
Proof.
  intros db. unfold select_fieldinfo. split.
  - destruct (fieldinfo_column column _); reflexivity.
  - intros db' Hc. unfold catalog in Hc.
    assert (E : st_fieldinfo (content (dbcon db)) = st_fieldinfo (content (dbcon db')))
      by congruence.
    rewrite E. destruct (fieldinfo_column column _); reflexivity.
Qed.

Lemma query_format_s v : query (format_s v).
Proof. destruct v; [apply query_ret | apply query_raise]. Qed.

Lemma query_check_excluded names : query (check_excluded names).
Proof.
  induction names as [|n names IH]; simpl.
  - apply query_ret.
  - apply query_bind; [apply query_attr_models|]. intros ms.
    destruct (ms !! n); [exact IH | apply query_raise].
Qed.

Lemma query_apply_exclusion excluded dt d : query (apply_exclusion excluded dt d).
Proof.
  destruct excluded as [|names|]; simpl.
  - apply query_ret.
  - apply query_bind; [apply query_check_excluded|]. intros _. apply query_ret.
  - apply query_raise.
Qed.

Lemma query_timeline_fields excluded : query (timeline_fields excluded).
Proof.
  unfold timeline_fields.
  apply query_bind; [apply query_select_fieldinfo|]. intros dt.
  apply query_bind; [apply query_select_fieldinfo|]. intros d.
  apply query_bind; [apply query_apply_exclusion|]. intros fs.
  apply query_ret.
Qed.

Lemma query_preview_entry c : query (preview_entry c).
Proof.
  unfold preview_entry. apply query_bind; [apply query_format_s|].
  intros n. apply query_ret.
Qed.

Lemma query_preview_columns fd : query (preview_columns fd).
Proof.
  unfold preview_columns. apply query_bind; [apply query_select_fieldinfo|].
  intros cs. apply query_ret.
Qed.

Lemma query_preview_expression colnames : query (preview_expression colnames).
Proof.
  unfold preview_expression. destruct (_ =? 0); [apply query_ret|].
  apply query_bind; [apply query_for_each, query_preview_entry|].
  intros l. apply query_ret.
Qed.

Lemma query_modeltimeline_subquery fd : query (_modeltimeline_subquery fd).
Proof.
  unfold _modeltimeline_subquery.
  apply query_bind; [apply query_preview_columns|]. intros cs.
  apply query_bind; [apply query_preview_expression|]. intros pv.
  apply query_bind; [apply query_format_s|]. intros a1.
  apply query_bind; [apply query_format_s|]. intros a3.
  apply query_bind; [apply query_attr_prefix|]. intros a4.
  apply query_bind; [apply query_attr_pkey|]. intros a5.
  apply query_ret.
Qed.

Lemma query_timeline_subqueries excluded : query (timeline_subqueries excluded).
Proof.
  unfold timeline_subqueries.
  apply query_bind; [apply query_timeline_fields|]. intros fds.
  apply query_for_each, query_modeltimeline_subquery.
Qed.

(** What a query does, in one equation. *)
Lemma query_run {A} (m : py A) db : query m → m db = (fst (m db), db).
Proof.
  intros Hq. destruct (Hq db) as [Hs _].
  destruct (m db) as [r d]. simpl in *. congruence.
Qed.

Lemma bind_query {A B} (m : py A) (k : A → py B) db :
  query m →
  bind m k db =
  match fst (m db) with
  | Returns a => k a db
  | Raises e => (Raises e, db)
  end.
Proof. intros Hq. unfold bind. rewrite (query_run m db Hq). reflexivity. Qed.

Lemma fst_bind_query {A B} (m : py A) (k : A → py B) db :
  query m →
  fst (bind m k db) =
  match fst (m db) with
  | Returns a => fst (k a db)
  | Raises e => Raises e
  end.
Proof.
  intros Hq. rewrite (bind_query m k db Hq). destruct (fst (m db)); reflexivity.
Qed.

Lemma for_each_app {A B} (body : A → py B) (xs ys : list A) db :
  (∀ x, query (body x)) →
  fst (for_each body (xs ++ ys) db) =
  match fst (for_each body xs db) with
  | Raises e => Raises e
  | Returns l =>
      match fst (for_each body ys db) with
      | Raises e => Raises e
      | Returns l' => Returns (l ++ l')
      end
  end.
Proof.
  intros Hb. induction xs as [|x xs IH]; simpl.
  - destruct (fst (for_each body ys db)); reflexivity.
  - rewrite !(fst_bind_query (body x)) by apply Hb.
    destruct (fst (body x db)) as [y|e]; [|reflexivity].
    rewrite (fst_bind_query (for_each body (xs ++ ys)))
      by (apply query_for_each, Hb).
    rewrite (fst_bind_query (for_each body xs)) by (apply query_for_each, Hb).
    rewrite IH.
    destruct (fst (for_each body xs db)) as [l|e]; [|reflexivity].
    destruct (fst (for_each body ys db)) as [l'|e]; reflexivity.
Qed.

Lemma catalog_after_drop db : catalog (after_drop db) = catalog db.
Proof. reflexivity. Qed.

(** The first two statements of [create_timeline_view]. *)
Lemma create_timeline_view_start db :
  (do started <- begin_transaction;
   do p <- attr prefix;
   run execute ("DROP VIEW IF EXISTS " +:+ p +:+ "Timeline_");
   ret started) db = (Returns (negb (active db)), after_drop db).
Proof.
  unfold bind, active, after_drop, timeline_name, views.
  destruct (journal (dbcon db)) as [j|] eqn:Hj.
  - rewrite (begin_transaction_active db j Hj). unfold attr.
    rewrite execute_drop. unfold ret, set_dbcon. simpl.
    rewrite <- app_assoc. reflexivity.
  - rewrite (begin_transaction_idle db Hj). unfold attr.
    rewrite execute_drop. unfold ret, set_dbcon. simpl.
    rewrite <- app_assoc. reflexivity.
Qed.

(** [create_timeline_view] in one equation: the two statements that lead
    to [after_drop], then the sub-selects, then the CREATE VIEW if there are
    any, and the COMMIT if the call started the transaction. *)
Lemma create_timeline_view_eq excluded db :
  create_timeline_view excluded db =
  match fst (timeline_subqueries excluded db) with
  | Raises e => (Raises e, after_drop db)
  | Returns allfields =>
      if Z.of_nat (length allfields) =? 0
      then end_if_started (negb (active db)) (after_drop db)
      else (run execute (create_view_text (prefix db) allfields);
            end_if_started (negb (active db))) (after_drop db)
  end.
Proof.
  pose proof (create_timeline_view_start db) as Hstart.
  unfold create_timeline_view.
  unfold bind at 1 2 3. unfold bind at 1 2 3 in Hstart.
  destruct (begin_transaction db) as [[started|e] db1]; [|discriminate].
  destruct (attr prefix db1) as [[p|e] db1']; [|discriminate].
  destruct (execute _ db1') as [[[]|e] db2]; [|discriminate].
  injection Hstart as -> ->.
  rewrite <- (proj2 (query_timeline_subqueries excluded (after_drop db)) db
                (catalog_after_drop db)).
  unfold timeline_subqueries.
  rewrite (fst_bind_query (timeline_fields excluded))
    by apply query_timeline_fields.
  unfold timeline_fields.
  set (D := after_drop db).
  rewrite (fst_bind_query (select_fieldinfo "datatype_" (Some "Datetime")))
    by apply query_select_fieldinfo.
  rewrite (bind_query (select_fieldinfo "datatype_" (Some "Datetime")))
    by apply query_select_fieldinfo.
  destruct (fst (select_fieldinfo "datatype_" (Some "Datetime") D)) as [dt|e];
    [|reflexivity].
  rewrite (fst_bind_query (select_fieldinfo "datatype_" (Some "Date")))
    by apply query_select_fieldinfo.
  rewrite (bind_query (select_fieldinfo "datatype_" (Some "Date")))
    by apply query_select_fieldinfo.
  destruct (fst (select_fieldinfo "datatype_" (Some "Date") D)) as [d|e];
    [|reflexivity].
  rewrite (fst_bind_query (apply_exclusion excluded dt d))
    by apply query_apply_exclusion.
  rewrite (bind_query (apply_exclusion excluded dt d))
    by apply query_apply_exclusion.
  destruct (fst (apply_exclusion excluded dt d D)) as [[fdt fd]|e];
    [|reflexivity].
  simpl fst. simpl snd. cbv iota beta.
  rewrite (for_each_app _ fdt fd D query_modeltimeline_subquery).
  rewrite (bind_query (for_each _modeltimeline_subquery fdt))
    by apply query_for_each, query_modeltimeline_subquery.
  destruct (fst (for_each _modeltimeline_subquery fdt D)) as [subdt|e];
    [|reflexivity].
  rewrite (bind_query (for_each _modeltimeline_subquery fd))
    by apply query_for_each, query_modeltimeline_subquery.
  destruct (fst (for_each _modeltimeline_subquery fd D)) as [subd|e];
    [|reflexivity].
  destruct (Z.of_nat (length (subdt ++ subd)) =? 0); [reflexivity|].
  reflexivity.
Qed.

(** ** The exclusion list *)

Lemma check_excluded_invalid names mname db :
  mname ∈ names → models db !! mname = None →
  fst (check_excluded names db) = Raises invalid_modelname.
Proof.
  intros Hin Hnone. induction names as [|n names IH].
  - inversion Hin.
  - simpl. rewrite (fst_bind_query (attr models)) by apply query_attr_models.
    simpl. destruct (models db !! n) eqn:E.
    + apply IH. apply elem_of_cons in Hin as [->|Hin]; [congruence|exact Hin].
    + reflexivity.
Qed.

Lemma select_fieldinfo_datatype value db :
  select_fieldinfo "datatype_" value db =
  (Returns (List.filter (λ r, value_eqb (datatype_ r) value)
              (st_fieldinfo (content (dbcon db)))), db).
Proof. reflexivity. Qed.

Lemma select_fieldinfo_modeltable value db :
  select_fieldinfo "modeltable_" value db =
  (Returns (List.filter (λ r, value_eqb (modeltable_ r) value)
              (st_fieldinfo (content (dbcon db)))), db).
Proof. reflexivity. Qed.

(** [timeline_fields] is the outcome of the exclusion applied to the
    Datetime rows and the Date rows. *)
Lemma timeline_fields_eq excluded db :
  fst (timeline_fields excluded db) =
  match
    fst (apply_exclusion excluded
           (List.filter (λ r, value_eqb (datatype_ r) (Some "Datetime"))
              (st_fieldinfo (content (dbcon db))))
           (List.filter (λ r, value_eqb (datatype_ r) (Some "Date"))
              (st_fieldinfo (content (dbcon db)))) db)
  with
  | Returns fs => Returns (fst fs ++ snd fs)
  | Raises e => Raises e
  end.
Proof.
  unfold timeline_fields, bind. rewrite !select_fieldinfo_datatype.
  destruct (apply_exclusion _ _ _ db) as [[fs|e] d]; reflexivity.
Qed.

Lemma timeline_fields_invalid names mname db :
  mname ∈ names → models db !! mname = None →
  fst (timeline_fields (PyList names) db) = Raises invalid_modelname.
Proof.
  intros Hin Hnone. rewrite timeline_fields_eq.
  unfold apply_exclusion.
  rewrite (fst_bind_query (check_excluded names)) by apply query_check_excluded.
  rewrite (check_excluded_invalid names mname db Hin Hnone). reflexivity.
Qed.

Lemma timeline_subqueries_raises excluded e db :
  fst (timeline_fields excluded db) = Raises e →
  fst (timeline_subqueries excluded db) = Raises e.
Proof.
  intros Hf. unfold timeline_subqueries.
  rewrite (fst_bind_query (timeline_fields excluded)) by apply query_timeline_fields.
  rewrite Hf. reflexivity.
Qed.

Lemma timeline_subqueries_empty excluded db :
  fst (timeline_fields excluded db) = Returns [] →
  fst (timeline_subqueries excluded db) = Returns [].
Proof.
  intros Hf. unfold timeline_subqueries.
  rewrite (fst_bind_query (timeline_fields excluded)) by apply query_timeline_fields.
  rewrite Hf. reflexivity.
Qed.

Lemma create_timeline_view_raises excluded e db :
  fst (timeline_fields excluded db) = Raises e →
  create_timeline_view excluded db = (Raises e, after_drop db).
Proof.
  intros Hf. rewrite create_timeline_view_eq.
  rewrite (timeline_subqueries_raises excluded e db Hf). reflexivity.
Qed.

(** C7: an exclusion list with a name that is not a registered model makes
    [timeline_fields] and [create_timeline_view] fail with ValueError. *)
Theorem invalid_exclusion_raises_ValueError
    (db : Database) (names : list string) (mname : string) :
  mname ∈ names → models db !! mname = None →
  fst (timeline_fields (PyList names) db) =
    Raises (ValueError "timeline exclusion list contains invalid modelname") ∧
  fst (create_timeline_view (PyList names) db) =
    Raises (ValueError "timeline exclusion list contains invalid modelname").
Proof.
  intros Hin Hnone.
  pose proof (timeline_fields_invalid names mname db Hin Hnone) as Hf.
  split; [exact Hf|].
  rewrite (create_timeline_view_raises _ _ _ Hf). reflexivity.
Qed.

Lemma invalid_exclusion_raises_ValueError_witness :
  "nosuch" ∈ ["file"; "nosuch"] ∧ models example_db !! "nosuch" = None ∧
  fst (create_timeline_view (PyList ["file"; "nosuch"]) example_db) =
    Raises (ValueError "timeline exclusion list contains invalid modelname").
Proof.
  assert (Hin : "nosuch" ∈ ["file"; "nosuch"]) by (apply list_elem_of_In; simpl; tauto).
  assert (Hnone : models example_db !! "nosuch" = None) by reflexivity.
  split; [exact Hin|]. split; [exact Hnone|].
  exact (proj2 (invalid_exclusion_raises_ValueError example_db _ _ Hin Hnone)).
Defined.

(** ** Failure inside the transaction *)

(** C8, the code at a failing input: the repository has a timeline view and
    no active transaction; the call with an unregistered name raises
    ValueError and returns with the transaction it began still active and
    the DROP VIEW pending in it: nothing was rolled back. *)
Theorem failed_call_leaves_transaction_open :
  let r := create_timeline_view (PyList ["nosuch"]) example_db in
  active example_db = false ∧
  views example_db !! "xTimeline_" = Some "SELECT 1 AS timestamp_ ORDER BY timestamp_" ∧
  fst r = Raises (ValueError "timeline exclusion list contains invalid modelname") ∧
  active (snd r) = true ∧
  views (snd r) !! "xTimeline_" = None ∧
  executed (dbcon (snd r)) = ["BEGIN TRANSACTION"; "DROP VIEW IF EXISTS xTimeline_"].
Proof. vm_compute. repeat split; reflexivity. Qed.

(** ** The empty timeline *)

Lemma end_if_started_after_drop db :
  end_if_started (negb (active db)) (after_drop db) =
  (Returns tt,
   set_dbcon
     (mkconnection (content (dbcon (after_drop db)))
        (if active db then journal (dbcon db) else None)
        (executed (dbcon (after_drop db)) ++ (if active db then [] else ["COMMIT"])))
     db).
Proof.
  unfold active, end_if_started.
  destruct db as [n [c [j|] e] p k m en dt tb]; simpl.
  - unfold ret, after_drop, set_dbcon. simpl. rewrite app_nil_r. reflexivity.
  - reflexivity.
Qed.

Lemma lookup_after_drop db : views (after_drop db) !! timeline_name db = None.
Proof. unfold views, after_drop. simpl. apply lookup_delete_eq. Qed.

(** C9: when no temporal field is left for the timeline,
    [create_timeline_view] returns normally, the handle sees no timeline
    view, and the statements the call executed are BEGIN (always
    attempted), the DROP VIEW, and the COMMIT if the call started the
    transaction: none of them is a CREATE VIEW. *)
Theorem empty_timeline_creates_no_view (db : Database) (excluded : exclusion) :
  fst (timeline_fields excluded db) = Returns [] →
  ∃ db' : Database,
    create_timeline_view excluded db = (Returns tt, db') ∧
    views db' !! timeline_name db = None ∧
    executed (dbcon db') =
      executed (dbcon db) ++
      ["BEGIN TRANSACTION"; "DROP VIEW IF EXISTS " +:+ timeline_name db] ++
      (if active db then [] else ["COMMIT"]) ∧
    Forall (λ q, strip_prefix "CREATE VIEW" q = None)
      (drop (length (executed (dbcon db))) (executed (dbcon db'))).
Proof.
  intros Hf. rewrite create_timeline_view_eq.
  rewrite (timeline_subqueries_empty excluded db Hf). simpl.
  rewrite end_if_started_after_drop.
  eexists. split; [reflexivity|].
  assert (Hlog : executed (dbcon (set_dbcon
     (mkconnection (content (dbcon (after_drop db)))
        (if active db then journal (dbcon db) else None)
        (executed (dbcon (after_drop db)) ++ (if active db then [] else ["COMMIT"])))
     db)) = executed (dbcon db) ++
      ["BEGIN TRANSACTION"; "DROP VIEW IF EXISTS " +:+ timeline_name db] ++
      (if active db then [] else ["COMMIT"])).
  { simpl. rewrite <- app_assoc. reflexivity. }
  split; [apply lookup_after_drop|].
  split; [exact Hlog|].
  rewrite Hlog. rewrite drop_app_length.
  destruct (active db); repeat constructor.
Qed.

Lemma empty_timeline_creates_no_view_witness :
  fst (timeline_fields (PyList ["file"]) example_db) = Returns [] ∧
  ∃ db' : Database,
    create_timeline_view (PyList ["file"]) example_db = (Returns tt, db') ∧
    views db' !! "xTimeline_" = None.
Proof.
  assert (Hf : fst (timeline_fields (PyList ["file"]) example_db) = Returns [])
    by reflexivity.
  split; [exact Hf|].
  destruct (empty_timeline_creates_no_view example_db _ Hf) as (db' & H1 & H2 & _).
  exists db'. split; [exact H1 | exact H2].
Defined.

(** ** The stale view *)

Lemma execute_executed q db :
  executed (dbcon (snd (execute q db))) = executed (dbcon db) ++ [q].
Proof.
  unfold execute. destruct (parse q) as [st|]; [|reflexivity].
  destruct st; simpl; try reflexivity.
  - destruct (journal (dbcon db)); reflexivity.
  - destruct (journal (dbcon db)); reflexivity.
  - destruct (journal (dbcon db)); reflexivity.
  - destruct (st_views (content (dbcon db)) !! view); reflexivity.
Qed.

Lemma end_if_started_executed started db :
  ∃ rest, executed (dbcon (snd (end_if_started started db))) =
          executed (dbcon db) ++ rest.
Proof.
  destruct started; simpl.
  - exists ["COMMIT"]. apply execute_executed.
  - exists []. rewrite app_nil_r. reflexivity.
Qed.

Lemma create_timeline_view_executed excluded db :
  ∃ rest,
    executed (dbcon (snd (create_timeline_view excluded db))) =
    executed (dbcon db) ++
    "BEGIN TRANSACTION" :: ("DROP VIEW IF EXISTS " +:+ timeline_name db) :: rest.
Proof.
  rewrite create_timeline_view_eq.
  assert (Hd : ∀ d rest,
    executed (dbcon d) = executed (dbcon (after_drop db)) ++ rest →
    executed (dbcon d) = executed (dbcon db) ++
      "BEGIN TRANSACTION" :: ("DROP VIEW IF EXISTS " +:+ timeline_name db) :: rest).
  { intros d rest ->. simpl. rewrite <- app_assoc. reflexivity. }
  destruct (fst (timeline_subqueries excluded db)) as [allfields|e].
  - destruct (Z.of_nat (length allfields) =? 0).
    + destruct (end_if_started_executed (negb (active db)) (after_drop db))
        as [rest Hrest].
      exists rest. apply Hd, Hrest.
    + unfold bind.
      pose proof (execute_executed (create_view_text (prefix db) allfields)
                    (after_drop db)) as Hx.
      destruct (execute _ (after_drop db)) as [[[]|e] d']; simpl in Hx.
      * destruct (end_if_started_executed (negb (active db)) d') as [rest Hrest].
        eexists. apply Hd. rewrite Hrest, Hx, <- app_assoc. reflexivity.
      * eexists. apply Hd. simpl. exact Hx.
  - exists []. apply Hd. simpl. rewrite app_nil_r. reflexivity.
Qed.

Lemma create_timeline_view_empty excluded db :
  fst (timeline_fields excluded db) = Returns [] →
  fst (create_timeline_view excluded db) = Returns tt ∧
  views (snd (create_timeline_view excluded db)) !! timeline_name db = None.
Proof.
  intros Hf. rewrite create_timeline_view_eq.
  rewrite (timeline_subqueries_empty excluded db Hf). simpl.
  rewrite end_if_started_after_drop. split; [reflexivity|].
  apply lookup_after_drop.
Qed.

(** C10: every call executes the DROP VIEW of the timeline view first,
    right after the attempt to begin a transaction; it has taken effect
    when the fields are computed, since a call in which that computation
    fails ends without the view; and a call that finds no temporal field
    returns normally and leaves no timeline view, whatever views existed
    before. *)
Theorem stale_timeline_view_is_dropped (db : Database) (excluded : exclusion) :
  (∃ rest,
     executed (dbcon (snd (create_timeline_view excluded db))) =
     executed (dbcon db) ++
     "BEGIN TRANSACTION" :: ("DROP VIEW IF EXISTS " +:+ timeline_name db) :: rest) ∧
  (∀ e, fst (timeline_fields excluded db) = Raises e →
        fst (create_timeline_view excluded db) = Raises e ∧
        views (snd (create_timeline_view excluded db)) !! timeline_name db = None) ∧
  (fst (timeline_fields excluded db) = Returns [] →
   fst (create_timeline_view excluded db) = Returns tt ∧
   views (snd (create_timeline_view excluded db)) !! timeline_name db = None).
Proof.
  split; [apply create_timeline_view_executed|]. split.
  - intros e Hf. rewrite (create_timeline_view_raises excluded e db Hf).
    split; [reflexivity|]. apply lookup_after_drop.
  - apply create_timeline_view_empty.
Qed.

Lemma stale_timeline_view_is_dropped_witness :
  is_Some (views example_db !! "xTimeline_") ∧
  fst (timeline_fields (PyList ["file"]) example_db) = Returns [] ∧
  views (snd (create_timeline_view (PyList ["file"]) example_db)) !! "xTimeline_" = None.
Proof.
  split; [eexists; reflexivity|].
  assert (Hf : fst (timeline_fields (PyList ["file"]) example_db) = Returns [])
    by reflexivity.
  split; [exact Hf|].
  exact (proj2 (proj2 (proj2 (stale_timeline_view_is_dropped example_db _)) Hf)).
Defined.

(** ** The sub-selects *)

Lemma filter_filter {A} (f g : A → bool) (l : list A) :
  List.filter f (List.filter g l) = List.filter (λ x, g x && f x) l.
Proof.
  induction l as [|x l IH]; simpl; [reflexivity|].
  destruct (g x); simpl; [|exact IH].
  destruct (f x); rewrite IH; reflexivity.
Qed.

Lemma preview_columns_eq fd db :
  preview_columns fd db =
  (Returns (map (λ cc, (fieldname_ cc, columnname_ cc))
              (preview_rows (st_fieldinfo (content (dbcon db))) (modeltable_ fd))),
   db).
Proof.
  unfold preview_columns, bind. rewrite select_fieldinfo_modeltable.
  unfold ret, preview_rows. rewrite !filter_filter.
  erewrite List.filter_ext; [reflexivity|].
  intros c. simpl. rewrite andb_assoc. reflexivity.
Qed.

Lemma for_each_returns {A B} (body : A → py B) (f : A → B) (xs : list A) db :
  (∀ x, query (body x)) →
  Forall (λ x, fst (body x db) = Returns (f x)) xs →
  fst (for_each body xs db) = Returns (map f xs).
Proof.
  intros Hq Hall. induction Hall as [|x xs Hx Hxs IH]; simpl; [reflexivity|].
  rewrite (fst_bind_query (body x)) by apply Hq. rewrite Hx.
  rewrite (fst_bind_query (for_each body xs)) by apply query_for_each, Hq.
  rewrite IH. reflexivity.
Qed.

Lemma preview_entry_eq (c : fieldinfo) db :
  is_Some (columnname_ c) →
  fst (preview_entry (fieldname_ c, columnname_ c) db) = Returns (entry_text c).
Proof.
  intros [n Hn]. unfold preview_entry, entry_text. simpl. rewrite Hn. reflexivity.
Qed.

Lemma preview_expression_eq (cols : list fieldinfo) db :
  Forall (λ c, is_Some (columnname_ c)) cols →
  fst (preview_expression (map (λ cc, (fieldname_ cc, columnname_ cc)) cols) db) =
  Returns (preview_text cols).
Proof.
  intros Hall. unfold preview_expression, preview_text.
  destruct cols as [|c cols]; [reflexivity|].
  rewrite length_map.
  replace (Z.of_nat (length (c :: cols)) =? 0) with false
    by (symmetry; apply Z.eqb_neq; simpl length; lia).
  rewrite (fst_bind_query (for_each preview_entry _))
    by apply query_for_each, query_preview_entry.
  rewrite (for_each_returns preview_entry
             (λ pr, "'" +:+ fst pr +:+ ":' || COALESCE(CAST(" +:+
                    default "" (snd pr) +:+ " AS TEXT),'')" +:+ nl)).
  - rewrite map_map. reflexivity.
  - apply query_preview_entry.
  - apply Forall_map. eapply Forall_impl; [exact Hall|].
    intros x Hx. apply (preview_entry_eq x db Hx).
Qed.

Lemma modeltimeline_subquery_eq fd db :
  named fd = true →
  Forall (λ c, is_Some (columnname_ c))
    (preview_rows (st_fieldinfo (content (dbcon db))) (modeltable_ fd)) →
  fst (_modeltimeline_subquery fd db) =
  Returns (subselect (st_fieldinfo (content (dbcon db))) (prefix db) (pkey db) fd).
Proof.
  intros Hn Hall. unfold named in Hn.
  destruct (columnname_ fd) as [c|] eqn:Hc; [|discriminate].
  destruct (modeltable_ fd) as [t|] eqn:Ht; [|discriminate].
  unfold _modeltimeline_subquery, subselect, bind.
  rewrite preview_columns_eq.
  rewrite (query_run (preview_expression _) db (query_preview_expression _)).
  rewrite ?Ht, ?Hc.
  rewrite (preview_expression_eq _ db Hall).
  reflexivity.
Qed.

(** ** The fields of the timeline *)

Lemma check_excluded_accepted names db :
  forallb (λ n, match models db !! n with Some _ => true | None => false end)
          names = true →
  fst (check_excluded names db) = Returns tt.
Proof.
  induction names as [|n names IH]; simpl; [reflexivity|].
  intros Hall. apply andb_prop in Hall as [Hn Hall].
  rewrite (fst_bind_query (attr models)) by apply query_attr_models.
  simpl. destruct (models db !! n); [apply IH, Hall | discriminate].
Qed.

Lemma in_names_nil v : in_names v [] = false.
Proof. destruct v; reflexivity. Qed.

Lemma timeline_fields_accepted excluded db :
  accepted db excluded = true →
  fst (timeline_fields excluded db) =
  Returns (temporal_fields (st_fieldinfo (content (dbcon db)))
             (excluded_names excluded)).
Proof.
  intros Hacc. rewrite timeline_fields_eq. unfold temporal_fields.
  destruct excluded as [|names|]; simpl in *; [| |discriminate].
  - f_equal. f_equal; apply List.filter_ext; intros f;
      rewrite in_names_nil, andb_true_r; reflexivity.
  - rewrite (fst_bind_query (check_excluded names)) by apply query_check_excluded.
    rewrite (check_excluded_accepted names db Hacc). simpl.
    rewrite !filter_filter. reflexivity.
Qed.

Lemma temporal_fields_spec rows names f :
  f ∈ temporal_fields rows names ↔
  f ∈ rows ∧
  (datatype_ f = Some "Datetime" ∨ datatype_ f = Some "Date") ∧
  in_names (modelname_ f) names = false.
Proof.
  unfold temporal_fields. rewrite elem_of_app, !list_elem_of_In, !filter_In.
  assert (Hv : ∀ d, value_eqb (datatype_ f) (Some d) = true ↔ datatype_ f = Some d).
  { intros d. unfold value_eqb. destruct (datatype_ f) as [x|].
    - rewrite String.eqb_eq. split; congruence.
    - split; discriminate. }
  rewrite !andb_true_iff, !negb_true_iff, !Hv. tauto.
Qed.

(** ** The CREATE VIEW statement *)

Lemma append_assoc (a b c : string) : (a +:+ b) +:+ c = a +:+ b +:+ c.
Proof.
  induction a as [|x a IH]; [reflexivity|].
  change (String x ((a +:+ b) +:+ c) = String x (a +:+ b +:+ c)).
  f_equal. exact IH.
Qed.

Lemma no_space_app (a b : string) : no_space (a +:+ b) = no_space a && no_space b.
Proof.
  induction a as [|x a IH]; [reflexivity|].
  change (negb (Ascii.eqb x " ") && no_space (a +:+ b) =
          negb (Ascii.eqb x " ") && no_space a && no_space b).
  rewrite IH, andb_assoc. reflexivity.
Qed.

Lemma split_space_app (v r : string) :
  no_space v = true → split_space (v +:+ String " " r) = (v, Some r).
Proof.
  induction v as [|x v IH]; [reflexivity|].
  intros Hv. simpl in Hv. apply andb_prop in Hv as [Hx Hv].
  apply negb_true_iff in Hx.
  change (split_space (String x (v +:+ String " " r)) = (String x v, Some r)).
  simpl. rewrite Hx, (IH Hv). reflexivity.
Qed.

Lemma parse_create_view (p : string) (allfields : list string) :
  no_space p = true →
  parse (create_view_text p allfields) =
  Some (CREATE_VIEW (p +:+ "Timeline_")
          (join (nl +:+ nl +:+ "UNION" +:+ nl +:+ nl) allfields +:+
           " ORDER BY timestamp_")).
Proof.
  intros Hp. unfold create_view_text.
  set (body := join _ allfields +:+ " ORDER BY timestamp_").
  unfold parse.
  change (String.eqb ("CREATE VIEW " +:+ p +:+ "Timeline_ AS " +:+ body)
            "BEGIN TRANSACTION") with false.
  change (String.eqb ("CREATE VIEW " +:+ p +:+ "Timeline_ AS " +:+ body)
            "COMMIT") with false.
  change (String.eqb ("CREATE VIEW " +:+ p +:+ "Timeline_ AS " +:+ body)
            "ROLLBACK") with false.
  change (strip_prefix "DROP VIEW IF EXISTS "
            ("CREATE VIEW " +:+ p +:+ "Timeline_ AS " +:+ body)) with (@None string).
  cbv iota.
  change (strip_prefix "CREATE VIEW "
            ("CREATE VIEW " +:+ p +:+ "Timeline_ AS " +:+ body))
    with (Some (p +:+ "Timeline_ AS " +:+ body)).
  cbv iota.
  change (p +:+ "Timeline_ AS " +:+ body)
    with (p +:+ "Timeline_" +:+ String " " ("AS " +:+ body)).
  rewrite <- append_assoc.
  rewrite split_space_app
    by (rewrite no_space_app, Hp; reflexivity).
  reflexivity.
Qed.

Lemma execute_create_view_after_drop (allfields : list string) db :
  no_space (prefix db) = true →
  ∃ d : Database,
    execute (create_view_text (prefix db) allfields) (after_drop db) = (Returns tt, d) ∧
    views d !! timeline_name db =
      Some (join (nl +:+ nl +:+ "UNION" +:+ nl +:+ nl) allfields +:+
            " ORDER BY timestamp_") ∧
    journal (dbcon d) = journal (dbcon (after_drop db)).
Proof.
  intros Hp. unfold execute. rewrite (parse_create_view _ _ Hp).
  unfold run_statement. cbn [content journal executed dbcon after_drop set_dbcon].
  fold (timeline_name db).
  replace (st_views (set_views (delete (timeline_name db) (views db))
                       (content (dbcon db))) !! timeline_name db)
    with (@None string) by (symmetry; apply lookup_delete_eq).
  eexists. split; [reflexivity|]. split; [|reflexivity].
  unfold views. simpl. apply lookup_insert_eq.
Qed.

Lemma end_if_started_views db d :
  journal (dbcon d) = journal (dbcon (after_drop db)) →
  ∃ d' : Database,
    end_if_started (negb (active db)) d = (Returns tt, d') ∧ views d' = views d.
Proof.
  intros Hj. unfold active, end_if_started.
  destruct (journal (dbcon db)) as [j|] eqn:E; simpl.
  - eexists. split; reflexivity.
  - unfold end_transaction, execute. simpl. rewrite Hj. simpl.
    eexists. split; reflexivity.
Qed.

(** ** The timeline view *)

Lemma named_rows_preview rows t :
  forallb named rows = true →
  Forall (λ c, is_Some (columnname_ c)) (preview_rows rows t).
Proof.
  intros Hall. apply Forall_forall. intros c Hc.
  apply list_elem_of_In, filter_In in Hc as [Hc _].
  rewrite forallb_forall in Hall. specialize (Hall c Hc).
  unfold named in Hall. destruct (columnname_ c); [eauto|discriminate].
Qed.

Lemma preview_rows_named rows fd :
  subselect_named rows fd = true →
  Forall (λ c, is_Some (columnname_ c)) (preview_rows rows (modeltable_ fd)).
Proof.
  intros Hn. apply andb_prop in Hn as [_ Hn].
  apply Forall_forall. intros c Hc. apply list_elem_of_In in Hc.
  rewrite forallb_forall in Hn. specialize (Hn c Hc).
  unfold has_column in Hn. destruct (columnname_ c); [eauto|discriminate].
Qed.

Lemma timeline_subqueries_accepted excluded db :
  accepted db excluded = true →
  forallb (subselect_named (st_fieldinfo (content (dbcon db))))
    (temporal_fields (st_fieldinfo (content (dbcon db)))
       (excluded_names excluded)) = true →
  fst (timeline_subqueries excluded db) =
  Returns (map (subselect (st_fieldinfo (content (dbcon db))) (prefix db) (pkey db))
             (temporal_fields (st_fieldinfo (content (dbcon db)))
                (excluded_names excluded))).
Proof.
  intros Hacc Hnamed. unfold timeline_subqueries.
  rewrite (fst_bind_query (timeline_fields excluded)) by apply query_timeline_fields.
  rewrite (timeline_fields_accepted excluded db Hacc).
  apply for_each_returns; [apply query_modeltimeline_subquery|].
  apply Forall_forall. intros f Hf.
  rewrite forallb_forall in Hnamed.
  specialize (Hnamed f (proj1 (list_elem_of_In _ _) Hf)).
  apply modeltimeline_subquery_eq.
  - apply andb_prop in Hnamed as [Hn _]. exact Hn.
  - apply preview_rows_named, Hnamed.
Qed.

(** Names in place on every row are more than the sub-selects need. *)
Lemma named_rows_subselect rows fds :
  forallb named rows = true →
  (∀ f, f ∈ fds → f ∈ rows) →
  forallb (subselect_named rows) fds = true.
Proof.
  intros Hall Hsub. apply forallb_forall. intros f Hf.
  apply list_elem_of_In in Hf.
  rewrite forallb_forall in Hall. unfold subselect_named.
  rewrite (Hall f) by (apply list_elem_of_In, Hsub, Hf). simpl.
  apply forallb_forall. intros c Hc. apply filter_In in Hc as [Hc _].
  specialize (Hall c Hc). unfold named in Hall. unfold has_column.
  destruct (columnname_ c); [reflexivity|discriminate].
Qed.

Lemma NoDup_List_filter {A} (f : A → bool) (l : list A) :
  NoDup l → NoDup (List.filter f l).
Proof.
  intros Hnd. apply NoDup_ListNoDup, List.NoDup_filter, NoDup_ListNoDup, Hnd.
Qed.

Lemma temporal_fields_NoDup rows names :
  NoDup rows → NoDup (temporal_fields rows names).
Proof.
  intros Hnd. unfold temporal_fields. apply NoDup_app.
  split; [apply NoDup_List_filter, Hnd|].
  split; [|apply NoDup_List_filter, Hnd].
  intros f H1 H2.
  apply list_elem_of_In, filter_In in H1 as [_ H1].
  apply list_elem_of_In, filter_In in H2 as [_ H2].
  apply andb_prop in H1 as [H1 _]. apply andb_prop in H2 as [H2 _].
  unfold value_eqb in *. destruct (datatype_ f) as [d|]; [|discriminate].
  apply String.eqb_eq in H1, H2. subst d. discriminate.
Qed.

(** C5, as the code has it: for an accepted exclusion list, a prefix
    without a space, and temporal fields that are kept whose sub-selects
    have their names in place (the column and the table of the field, the
    column of each preview column of its table; other rows may lack them),
    a call that finds temporal fields returns normally and the timeline
    view is the UNION of one sub-select per Datetime or Date row of the
    models that are not excluded, ordered by [timestamp_]; each sub-select
    has the column of the field as [timestamp_], the name of that column
    as the literal [timestampfield_], the table of the model as the
    literal [table_], the primary key column, and the preview, from the
    rows of the table where the column is not NULL. *)
Theorem timeline_view_is_union (db : Database) (excluded : exclusion) :
  let rows := st_fieldinfo (content (dbcon db)) in
  let fds := temporal_fields rows (excluded_names excluded) in
  accepted db excluded = true →
  forallb (subselect_named rows) fds = true →
  fds ≠ [] →
  no_space (prefix db) = true →
  ∃ db' : Database,
    create_timeline_view excluded db = (Returns tt, db') ∧
    views db' !! timeline_name db =
      Some (join (nl +:+ nl +:+ "UNION" +:+ nl +:+ nl)
              (map (subselect rows (prefix db) (pkey db)) fds) +:+
            " ORDER BY timestamp_") ∧
    (∀ f, f ∈ fds ↔
          f ∈ rows ∧
          (datatype_ f = Some "Datetime" ∨ datatype_ f = Some "Date") ∧
          in_names (modelname_ f) (excluded_names excluded) = false) ∧
    (NoDup rows → NoDup fds) ∧
    (∀ f, f ∈ fds →
       ∃ c t preview,
         columnname_ f = Some c ∧ modeltable_ f = Some t ∧
         subselect rows (prefix db) (pkey db) f =
           "SELECT " +:+ c +:+ " AS timestamp_," +:+ nl +:+
           " '" +:+ c +:+ "' AS timestampfield_," +:+ nl +:+
           " '" +:+ t +:+ "' AS table_" +:+ nl +:+
           ", " +:+ prefix db +:+ pkey db +:+ nl +:+
           ", " +:+ preview +:+ " AS preview_" +:+ nl +:+
           " FROM " +:+ t +:+ " " +:+ nl +:+
           "WHERE " +:+ c +:+ " is not NULL").
Proof.
  intros rows fds Hacc Hnamed Hne Hp.
  rewrite create_timeline_view_eq.
  rewrite (timeline_subqueries_accepted excluded db Hacc Hnamed).
  fold rows. fold fds. rewrite length_map.
  replace (Z.of_nat (length fds) =? 0) with false
    by (symmetry; apply Z.eqb_neq; destruct fds; [congruence | simpl length; lia]).
  unfold bind.
  destruct (execute_create_view_after_drop
              (map (subselect rows (prefix db) (pkey db)) fds) db Hp)
    as (d & He & Hv & Hj).
  rewrite He.
  destruct (end_if_started_views db d Hj) as (d' & He' & Hv').
  exists d'. split; [exact He'|].
  split; [rewrite Hv'; exact Hv|].
  split; [intros f; apply temporal_fields_spec|].
  split; [apply temporal_fields_NoDup|].
  intros f Hf.
  rewrite forallb_forall in Hnamed.
  specialize (Hnamed f (proj1 (list_elem_of_In _ _) Hf)).
  apply andb_prop in Hnamed as [Hnamed _].
  unfold named in Hnamed.
  destruct (columnname_ f) as [c|] eqn:Hc; [|discriminate].
  destruct (modeltable_ f) as [t|] eqn:Ht; [|discriminate].
  exists c, t, (preview_text (preview_rows rows (Some t))).
  split; [reflexivity|]. split; [reflexivity|].
  unfold subselect. rewrite Hc, Ht. reflexivity.
Qed.

(** The repository of the witness has a field without a column: not every
    row has its names in place, the sub-select of the one temporal field
    has. *)
Lemma timeline_view_is_union_witness :
  accepted tagged_db PyNone = true ∧
  forallb named tagged_fieldinfo = false ∧
  forallb (subselect_named tagged_fieldinfo) (temporal_fields tagged_fieldinfo [])
    = true ∧
  temporal_fields tagged_fieldinfo [] ≠ [] ∧
  no_space "x" = true ∧
  ∃ db' : Database,
    create_timeline_view PyNone tagged_db = (Returns tt, db') ∧
    views db' !! "xTimeline_" =
      Some (subselect tagged_fieldinfo "x" "id" example_mtime +:+
            " ORDER BY timestamp_").
Proof.
  assert (H1 : accepted tagged_db PyNone = true) by reflexivity.
  assert (H2 : forallb (subselect_named (st_fieldinfo (content (dbcon tagged_db))))
                 (temporal_fields (st_fieldinfo (content (dbcon tagged_db)))
                    (excluded_names PyNone)) = true) by reflexivity.
  assert (H3 : temporal_fields (st_fieldinfo (content (dbcon tagged_db)))
                 (excluded_names PyNone) ≠ []) by (vm_compute; discriminate).
  assert (H4 : no_space (prefix tagged_db) = true) by reflexivity.
  split; [exact H1|]. split; [reflexivity|]. split; [exact H2|].
  split; [exact H3|]. split; [exact H4|].
  destruct (timeline_view_is_union tagged_db PyNone H1 H2 H3 H4)
    as (db' & Hr & Hv & _).
  exists db'. split; [exact Hr | exact Hv].
Defined.

(** C5 as stated fails: the field [mtime] of the example has the column
    [xmtime]; the sub-select the code builds carries ['xmtime'], the name
    of the column, as [timestampfield_], and so differs from the sub-select
    with the name of the field in that place. *)
Lemma timestampfield_is_not_the_field_name :
  fieldname_ example_mtime = "mtime" ∧
  columnname_ example_mtime = Some "xmtime" ∧
  fst (_modeltimeline_subquery example_mtime example_db) =
    Returns
      ("SELECT xmtime AS timestamp_," +:+ nl +:+
       " 'xmtime' AS timestampfield_," +:+ nl +:+
       " 'xfile' AS table_" +:+ nl +:+
       ", xid" +:+ nl +:+
       ", 'name:' || COALESCE(CAST(xname AS TEXT),'')" +:+ nl +:+
       " || '|' || 'mtime:' || COALESCE(CAST(xmtime AS TEXT),'')" +:+ nl +:+
       " AS preview_" +:+ nl +:+
       " FROM xfile " +:+ nl +:+
       "WHERE xmtime is not NULL") ∧
  fst (_modeltimeline_subquery example_mtime example_db) ≠
    Returns (claimed_subselect example_fieldinfo "x" "id" example_mtime).
Proof.
  split; [reflexivity|]. split; [reflexivity|]. split; [reflexivity|].
  vm_compute. intros H. discriminate H.
Qed.

(** ** The preview *)

Lemma preview_rows_spec rows t c :
  c ∈ preview_rows rows (Some t) ↔
  c ∈ rows ∧ modeltable_ c = Some t ∧
  datatype_ c ≠ None ∧ datatype_ c ≠ Some "" ∧ datatype_ c ≠ Some "Bytes" ∧
  preview_ c ≠ None ∧ preview_ c ≠ Some 0.
Proof.
  unfold preview_rows. rewrite list_elem_of_In, filter_In, <- list_elem_of_In.
  rewrite !andb_true_iff.
  assert (Ht : value_eqb (modeltable_ c) (Some t) = true ↔ modeltable_ c = Some t).
  { unfold value_eqb. destruct (modeltable_ c) as [x|].
    - rewrite String.eqb_eq. split; congruence.
    - split; discriminate. }
  assert (Hd : has_text_datatype c = true ↔
               datatype_ c ≠ None ∧ datatype_ c ≠ Some "" ∧ datatype_ c ≠ Some "Bytes").
  { unfold has_text_datatype. destruct (datatype_ c) as [d|].
    - rewrite negb_true_iff, orb_false_iff, !String.eqb_neq.
      split; [intros [H1 H2]; repeat split; congruence|].
      intros (_ & H1 & H2). split; congruence.
    - split; [discriminate|]. intros [H _]. congruence. }
  assert (Hp : in_preview c = true ↔ preview_ c ≠ None ∧ preview_ c ≠ Some 0).
  { unfold in_preview. destruct (preview_ c) as [n|].
    - rewrite negb_true_iff, Z.eqb_neq. split; [intros H; split; congruence|].
      intros [_ H] ->. congruence.
    - split; [discriminate|]. intros [H _]. congruence. }
  rewrite Ht, Hd, Hp. tauto.
Qed.

(** C6, as the code has it: in the sub-select of a field whose model table
    is [t], [preview_] is built over exactly the rows of that table whose
    preview flag is set (not NULL, not 0) and whose datatype is neither
    NULL, nor the empty string, nor Bytes; it joins with [|| '|' ||] one
    entry ['<fieldname>:' || COALESCE(CAST(<col> AS TEXT),'')] per such
    row, in the order of the view, and is the empty SQL string when there
    is none. *)
Theorem preview_of_subselect (db : Database) (fd : fieldinfo) (c t : string) :
  let rows := st_fieldinfo (content (dbcon db)) in
  let cols := preview_rows rows (Some t) in
  columnname_ fd = Some c → modeltable_ fd = Some t →
  Forall (λ r, is_Some (columnname_ r)) cols →
  fst (_modeltimeline_subquery fd db) =
    Returns (subquery_text c c t (prefix db) (pkey db) (preview_text cols) t c) ∧
  (∀ r, r ∈ cols ↔
        r ∈ rows ∧ modeltable_ r = Some t ∧
        datatype_ r ≠ None ∧ datatype_ r ≠ Some "" ∧ datatype_ r ≠ Some "Bytes" ∧
        preview_ r ≠ None ∧ preview_ r ≠ Some 0) ∧
  (cols = [] → preview_text cols = "''") ∧
  (cols ≠ [] →
   preview_text cols =
     join " || '|' || "
       (map (λ r, "'" +:+ fieldname_ r +:+ ":' || COALESCE(CAST(" +:+
                  default "" (columnname_ r) +:+ " AS TEXT),'')" +:+ nl) cols)).
Proof.
  intros rows cols Hc Ht Hall.
  split.
  - rewrite modeltimeline_subquery_eq.
    + unfold subselect. rewrite Hc, Ht. reflexivity.
    + unfold named. rewrite Hc, Ht. reflexivity.
    + rewrite Ht. exact Hall.
  - split; [intros r; apply preview_rows_spec|].
    split; [intros ->; reflexivity|].
    intros Hne. unfold preview_text. destruct cols; [congruence|reflexivity].
Qed.

Lemma preview_of_subselect_witness :
  columnname_ example_mtime = Some "xmtime" ∧
  modeltable_ example_mtime = Some "xfile" ∧
  Forall (λ r, is_Some (columnname_ r)) (preview_rows example_fieldinfo (Some "xfile")) ∧
  fst (_modeltimeline_subquery example_mtime example_db) =
    Returns (subquery_text "xmtime" "xmtime" "xfile" "x" "id"
               (preview_text (preview_rows example_fieldinfo (Some "xfile")))
               "xfile" "xmtime").
Proof.
  assert (H1 : columnname_ example_mtime = Some "xmtime") by reflexivity.
  assert (H2 : modeltable_ example_mtime = Some "xfile") by reflexivity.
  assert (H3 : Forall (λ r, is_Some (columnname_ r))
                 (preview_rows (st_fieldinfo (content (dbcon example_db)))
                    (Some "xfile")))
    by (apply named_rows_preview; reflexivity).
  split; [exact H1|]. split; [exact H2|]. split; [exact H3|].
  exact (proj1 (preview_of_subselect example_db example_mtime _ _ H1 H2 H3)).
Defined.

(** C6 as stated fails: the column [parent] of the example belongs to the
    model, is marked for previews and its datatype is not Bytes (it is
    NULL), yet the preview of the code does not have it. *)
Lemma preview_leaves_out_column_without_datatype :
  let parent :=
    mkfieldinfo (Some "file") (Some "xfile") "parent" (Some "xparent") None (Some 1) in
  parent ∈ example_fieldinfo ∧
  modeltable_ parent = modeltable_ example_mtime ∧
  datatype_ parent ≠ Some "Bytes" ∧
  in_preview parent = true ∧
  parent ∈ claimed_preview_rows example_fieldinfo (Some "xfile") ∧
  fst (preview_columns example_mtime example_db) =
    Returns [("name", Some "xname"); ("mtime", Some "xmtime")] ∧
  fst (preview_columns example_mtime example_db) ≠
    Returns (map (λ cc, (fieldname_ cc, columnname_ cc))
               (claimed_preview_rows example_fieldinfo (Some "xfile"))).
Proof.
  cbv zeta.
  split; [apply list_elem_of_In; simpl; tauto|].
  split; [reflexivity|]. split; [discriminate|]. split; [reflexivity|].
  split; [apply list_elem_of_In; vm_compute; tauto|].
  split; [reflexivity|].
  vm_compute. intros H. discriminate H.
Qed.

(** ** Reopening a repository *)

(** C4: a repository that is created, closed and loaded again has the
    prefix [x], the pkey [id], the ten datatypes in their order and the
    nine tables in their order. *)
Theorem reopen_identity (APIVERSION : Z) (name : string) :
  ∃ db : Database,
    load APIVERSION name (close (create APIVERSION name)) = Returns db ∧
    prefix db = "x" ∧
    pkey db = "id" ∧
    map fst (datatypes db) =
      ["Datetime"; "Date"; "Integer"; "String"; "Bytes"; "Bool"; "TimeDelta";
       "Float"; "NULL"; "Data"] ∧
    map fst (tables db) =
      ["_reserved_"; "_enum_"; "_model_"; "_field_"; "_maptable_";
       "_proptable_"; "xdata"; "xblock"; "xblockmap"].
Proof.
  unfold load, close, create. simpl.
  rewrite Z.eqb_refl. simpl.
  eexists. split; [reflexivity|]. repeat split.
Qed.

Lemma nested_begin_witness :
  active example_db = false ∧
  ∃ db1 db2 db3 : Database,
    begin_transaction example_db = (Returns true, db1) ∧
    begin_transaction db1 = (Returns false, db2) ∧
    end_transaction db2 = (Returns tt, db3) ∧
    active db3 = false.
Proof.
  assert (H : active example_db = false) by reflexivity.
  split; [exact H|].
  destruct (nested_begin example_db H) as (db1 & Hb & Ha & _ & Hin & _).
  destruct (Hin db1 Ha) as (db2 & db3 & _ & Hb2 & _ & _ & _ & He & Ha3 & _).
  exists db1, db2, db3.
  split; [exact Hb|]. split; [exact Hb2|]. split; [exact He | exact Ha3].
Defined.

(** C3 as stated fails: the outer caller begins a transaction on the
    example and drops the timeline view in it; an inner caller begins
    (false) and calls [end_transaction]: that call commits.  No
    transaction is active any more, the rollback of the outer caller
    returns false and cannot bring the view back, and the
    [end_transaction] of the outer caller raises. *)
Lemma inner_end_transaction_commits :
  ∃ db1 db2 db3 db4 db5 : Database,
    begin_transaction example_db = (Returns true, db1) ∧
    execute "DROP VIEW IF EXISTS xTimeline_" db1 = (Returns tt, db2) ∧
    begin_transaction db2 = (Returns false, db3) ∧
    end_transaction db3 = (Returns tt, db4) ∧
    active db4 = false ∧
    fst (end_transaction db4) =
      Raises (SQLError "SQLError: cannot commit - no transaction is active") ∧
    rollback_transaction db4 = (Returns false, db5) ∧
    is_Some (views example_db !! "xTimeline_") ∧
    views db5 !! "xTimeline_" = None.
Proof.
  do 5 eexists.
  split; [reflexivity|]. split; [reflexivity|]. split; [reflexivity|].
  split; [reflexivity|]. split; [reflexivity|]. split; [reflexivity|].
  split; [reflexivity|]. split; [|vm_compute; reflexivity].
  eexists. vm_compute. reflexivity.
Qed.

(** ** The data store *)

Lemma slices_fuel_concat (n : nat) :
  (0 < n)%nat →
  ∀ (fuel : nat) (s : list byte),
    (length s ≤ fuel)%nat → concat (slices_fuel fuel n s) = s.
Proof.
  intros Hn fuel. induction fuel as [|fuel IH]; intros s Hlen.
  - destruct s; [reflexivity | simpl in Hlen; lia].
  - simpl. destruct (take n s) as [|b blk] eqn:E.
    + destruct s as [|x s]; [reflexivity|].
      destruct n; [lia | discriminate].
    + rewrite concat_cons, IH.
      * rewrite <- E. apply take_drop.
      * rewrite length_drop.
        destruct s; [rewrite take_nil in E; discriminate|]. simpl in *. lia.
Qed.

Lemma slices_concat (n : nat) (s : list byte) :
  (0 < n)%nat → concat (slices n s) = s.
Proof. intros Hn. apply slices_fuel_concat; [exact Hn | reflexivity]. Qed.

Lemma slices_fuel_nil (fuel n : nat) : slices_fuel fuel n [] = [].
Proof. destruct fuel; [reflexivity|]. simpl. rewrite take_nil. reflexivity. Qed.

(** A stream that fits in one block is one slice. *)
Lemma slices_short (n : nat) (s : list byte) :
  s ≠ [] → (length s ≤ n)%nat → slices n s = [s].
Proof.
  intros Hne Hlen. unfold slices.
  destruct s as [|x s]; [congruence|].
  change (length (x :: s)) with (S (length s)).
  cbn [slices_fuel].
  rewrite (take_ge (x :: s) n Hlen), (drop_ge (x :: s) n Hlen), slices_fuel_nil.
  reflexivity.
Qed.

Lemma find_app_l {A} (f : A → bool) (l k : list A) (x : A) :
  List.find f l = Some x → List.find f (l ++ k) = Some x.
Proof.
  induction l as [|y l IH]; simpl; [discriminate|].
  destruct (f y); [tauto | exact IH].
Qed.

Lemma find_app_r {A} (f : A → bool) (l k : list A) :
  (∀ x, x ∈ l → f x = false) → List.find f (l ++ k) = List.find f k.
Proof.
  induction l as [|y l IH]; simpl; [reflexivity|].
  intros Hall. rewrite (Hall y) by (left). apply IH.
  intros x Hx. apply Hall. right. exact Hx.
Qed.

Lemma find_unique {A} (key : A → Z) (l : list A) (x : A) :
  NoDup (map key l) → x ∈ l →
  List.find (λ y, key y =? key x) l = Some x.
Proof.
  induction l as [|y l IH]; simpl; intros Hnd Hin; [inversion Hin|].
  apply NoDup_cons in Hnd as [Hy Hnd].
  apply elem_of_cons in Hin as [->|Hin].
  - rewrite Z.eqb_refl. reflexivity.
  - destruct (key y =? key x) eqn:E; [|apply IH; assumption].
    apply Z.eqb_eq in E. exfalso. apply Hy. rewrite E.
    apply list_elem_of_In, in_map, list_elem_of_In, Hin.
Qed.

Lemma filter_all {A} (f : A → bool) (l : list A) :
  (∀ x, x ∈ l → f x = true) → List.filter f l = l.
Proof.
  induction l as [|y l IH]; simpl; [reflexivity|].
  intros Hall. rewrite (Hall y) by left. f_equal. apply IH.
  intros x Hx. apply Hall. right. exact Hx.
Qed.

Lemma filter_none {A} (f : A → bool) (l : list A) :
  (∀ x, x ∈ l → f x = false) → List.filter f l = [].
Proof.
  induction l as [|y l IH]; simpl; [reflexivity|].
  intros Hall. rewrite (Hall y) by left. apply IH.
  intros x Hx. apply Hall. right. exact Hx.
Qed.

Lemma ascending_weaken lo lo' rows :
  lo' ≤ lo → ascending lo rows → ascending lo' rows.
Proof. destruct rows; simpl; [tauto|]. intros ? [? ?]. split; [lia|assumption]. Qed.

Lemma order_by_offset_ascending lo rows :
  ascending lo rows → order_by_offset rows = rows.
Proof.
  revert lo. induction rows as [|r rows IH]; intros lo; [reflexivity|].
  simpl. intros [_ Hrest]. rewrite (IH _ Hrest).
  destruct rows as [|x rows]; [reflexivity|].
  simpl in *. destruct Hrest as [Hle _].
  apply Z.leb_le in Hle. rewrite Hle. reflexivity.
Qed.

Lemma blocks_content_app rows blocks extra bytes :
  blocks_content rows blocks = Some bytes →
  blocks_content rows (blocks ++ extra) = Some bytes.
Proof.
  revert bytes. induction rows as [|r rows IH]; intros bytes; simpl; [tauto|].
  unfold block_by_id in *.
  destruct (List.find _ blocks) as [b|] eqn:Eb; [|discriminate].
  rewrite (find_app_l _ _ extra _ Eb).
  destruct (blocks_content rows blocks) as [tl|]; [|discriminate].
  rewrite (IH tl eq_refl). tauto.
Qed.

Section DataStore.
Context {H : hashlib}.

Lemma place_block_spec blk s :
  blocks_consistent s →
  (∀ b, b ∈ st_block s → sha1 (block_data b) = sha1 blk →
        length (block_data b) = length blk → block_data b = blk) →
  ∃ extra b,
    st_block (snd (place_block blk s)) = st_block s ++ extra ∧
    st_blockmap (snd (place_block blk s)) = st_blockmap s ∧
    st_data (snd (place_block blk s)) = st_data s ∧
    st_seq_data (snd (place_block blk s)) = st_seq_data s ∧
    block_by_id (fst (place_block blk s)) (st_block (snd (place_block blk s))) = Some b ∧
    block_data b = blk ∧
    Forall (λ x, block_data x = blk) extra ∧
    blocks_consistent (snd (place_block blk s)).
Proof.
  intros (Hh & Hf & Hu) Hnc. unfold place_block.
  destruct (find_block _ _ (st_block s)) as [b|] eqn:E.
  - exists [], b. simpl. rewrite app_nil_r.
    apply find_some in E as [Hin Hb].
    apply list_elem_of_In in Hin.
    apply andb_prop in Hb as [Hs Hsz].
    apply String.eqb_eq in Hs. apply Z.eqb_eq in Hsz.
    split; [reflexivity|]. split; [reflexivity|]. split; [reflexivity|].
    split; [reflexivity|].
    split; [apply (find_unique block_id); assumption|].
    split; [|split; [constructor | exact (conj Hh (conj Hf Hu))]].
    destruct (Hh b Hin) as [Hsha Hlen].
    apply (Hnc b Hin); [congruence | lia].
  - set (nb := mkblock (st_seq_block s + 1) (sha1 blk) (Z.of_nat (length blk)) blk).
    exists [nb], nb. simpl.
    assert (Hfresh : ∀ x, x ∈ st_block s → (block_id x =? block_id nb) = false).
    { intros x Hx. apply Z.eqb_neq. specialize (Hf x Hx). simpl. lia. }
    split; [reflexivity|]. split; [reflexivity|]. split; [reflexivity|].
    split; [reflexivity|].
    split.
    { unfold block_by_id.
      change (st_seq_block s + 1) with (block_id nb).
      rewrite (find_app_r _ _ _ Hfresh). simpl. rewrite Z.eqb_refl. reflexivity. }
    split; [reflexivity|].
    split; [constructor; [reflexivity | constructor]|].
    split; [|split].
    + intros b Hb. apply elem_of_app in Hb as [Hb|Hb]; [apply Hh, Hb|].
      apply list_elem_of_singleton in Hb. subst b. split; reflexivity.
    + intros b Hb. apply elem_of_app in Hb as [Hb|Hb].
      * specialize (Hf b Hb). simpl. lia.
      * apply list_elem_of_singleton in Hb. subst b. simpl. lia.
    + simpl. rewrite List.map_app. apply NoDup_app. split; [exact Hu|].
      split; [|apply NoDup_singleton].
      intros i Hi Hi'. simpl in Hi'. apply list_elem_of_singleton in Hi'.
      apply list_elem_of_In, in_map_iff in Hi as (x & <- & Hx).
      apply list_elem_of_In in Hx. specialize (Hf x Hx). lia.
Qed.

Lemma insert_blocks_spec blks :
  ∀ did off s,
    blocks_consistent s →
    (∀ blk x, blk ∈ blks → x ∈ map block_data (st_block s) ++ blks →
              sha1 x = sha1 blk → length x = length blk → x = blk) →
    ∃ newrows extra,
      st_blockmap (insert_blocks did off blks s) = st_blockmap s ++ newrows ∧
      st_block (insert_blocks did off blks s) = st_block s ++ extra ∧
      st_data (insert_blocks did off blks s) = st_data s ∧
      st_seq_data (insert_blocks did off blks s) = st_seq_data s ∧
      Forall (λ r, dataid r = did) newrows ∧
      ascending off newrows ∧
      blocks_content newrows (st_block (insert_blocks did off blks s)) =
        Some (concat blks) ∧
      blocks_consistent (insert_blocks did off blks s).
Proof.
  induction blks as [|blk rest IH]; intros did off s Hs Hnc.
  - exists [], []. simpl. rewrite !app_nil_r.
    split; [reflexivity|]. split; [reflexivity|]. split; [reflexivity|].
    split; [reflexivity|]. split; [constructor|]. split; [exact I|].
    split; [reflexivity | exact Hs].
  - simpl.
    assert (Hnc1 : ∀ b, b ∈ st_block s → sha1 (block_data b) = sha1 blk →
                        length (block_data b) = length blk → block_data b = blk).
    { intros b Hb. apply (Hnc blk (block_data b)); [left|].
      apply elem_of_app. left.
      apply list_elem_of_In, in_map, list_elem_of_In, Hb. }
    destruct (place_block_spec blk s Hs Hnc1)
      as (extra1 & b & Hb1 & Hm1 & Hd1 & Hsd1 & Hlook & Hdata & Hex1 & Hc1).
    destruct (place_block blk s) as [bid s1]. simpl in Hb1, Hm1, Hd1, Hsd1, Hlook, Hc1.
    set (s2 := set_data_tables (st_data s1) (st_block s1)
                 (st_blockmap s1 ++ [mkblockmap did bid off])
                 (st_seq_data s1) (st_seq_block s1) s1).
    assert (Hc2 : blocks_consistent s2) by exact Hc1.
    assert (Hnc2 : ∀ blk' x, blk' ∈ rest →
                     x ∈ map block_data (st_block s2) ++ rest →
                     sha1 x = sha1 blk' → length x = length blk' → x = blk').
    { intros blk' x Hblk' Hx. apply (Hnc blk' x); [right; exact Hblk'|].
      change (st_block s2) with (st_block s1) in Hx. rewrite Hb1 in Hx.
      rewrite List.map_app in Hx.
      apply elem_of_app in Hx as [Hx|Hx];
        [apply elem_of_app in Hx as [Hx|Hx]|].
      - apply elem_of_app. left. exact Hx.
      - apply elem_of_app. right.
        apply list_elem_of_In, in_map_iff in Hx as (y & <- & Hy).
        rewrite Forall_forall in Hex1.
        rewrite (Hex1 y (proj2 (list_elem_of_In _ _) Hy)). left.
      - apply elem_of_app. right. right. exact Hx. }
    destruct (IH did (off + Z.of_nat (length blk)) s2 Hc2 Hnc2)
      as (newrows & extra & Hm & Hb & Hd & Hsd & Hall & Hasc & Hcont & Hc).
    exists (mkblockmap did bid off :: newrows), (extra1 ++ extra).
    split; [rewrite Hm; simpl; rewrite Hm1, <- app_assoc; reflexivity|].
    split; [rewrite Hb; simpl; rewrite Hb1, <- app_assoc; reflexivity|].
    split; [rewrite Hd; exact Hd1|].
    split; [rewrite Hsd; exact Hsd1|].
    split; [constructor; [reflexivity | exact Hall]|].
    split.
    { simpl. split; [lia|]. eapply ascending_weaken; [|exact Hasc]. simpl. lia. }
    split; [|exact Hc].
    simpl. rewrite Hcont. rewrite Hb. simpl.
    unfold block_by_id in *. rewrite (find_app_l _ _ extra _ Hlook).
    rewrite Hdata. reflexivity.
Qed.

Lemma stored_content_extend id s s' newrows extra bytes :
  st_blockmap s' = st_blockmap s ++ newrows →
  st_block s' = st_block s ++ extra →
  (∀ r, r ∈ newrows → dataid r ≠ id) →
  stored_content id s = Some bytes →
  stored_content id s' = Some bytes.
Proof.
  intros Hm Hb Hnew. unfold stored_content, blockmap_of.
  rewrite Hm, Hb, List.filter_app.
  rewrite (filter_none _ newrows), app_nil_r.
  - apply blocks_content_app.
  - intros r Hr. apply Z.eqb_neq, Hnew, Hr.
Qed.

Lemma stored_content_new id s s' newrows lo bytes :
  st_blockmap s' = st_blockmap s ++ newrows →
  (∀ r, r ∈ st_blockmap s → dataid r ≠ id) →
  Forall (λ r, dataid r = id) newrows →
  ascending lo newrows →
  blocks_content newrows (st_block s') = Some bytes →
  stored_content id s' = Some bytes.
Proof.
  intros Hm Hold Hnew Hasc Hcont. unfold stored_content, blockmap_of.
  rewrite Hm, List.filter_app.
  rewrite (filter_none _ (st_blockmap s)), (filter_all _ newrows).
  - simpl. rewrite (order_by_offset_ascending lo _ Hasc). exact Hcont.
  - intros r Hr. apply Z.eqb_eq. rewrite Forall_forall in Hnew. apply Hnew, Hr.
  - intros r Hr. apply Z.eqb_neq, Hold, Hr.
Qed.

(** A stored data object with the sha256 of the payload is found by its
    id and reads as the payload. *)
Lemma found_data_reads (n : nat) (payload : list byte) (s : store) (d : data_row) :
  consistent s → no_collision n payload s →
  find_stored_data (sha256 payload) (st_data s) = Some d →
  data_by_id (data_id d) (st_data s) = Some d ∧
  data_stored d = 1 ∧
  data_sha256 d = sha256 payload ∧
  data_size d = Z.of_nat (length payload) ∧
  stored_content (data_id d) s = Some payload.
Proof.
  intros Hs [Hnc _] E.
  apply find_some in E as [Hin Hd]. apply list_elem_of_In in Hin.
  apply andb_prop in Hd as [Hsha Hst].
  apply String.eqb_eq in Hsha. apply Z.eqb_eq in Hst.
  destruct (stored_readable s Hs d Hin Hst) as (bytes & Hc & Hh & Hsz).
  assert (bytes = payload) as ->
    by (apply (Hnc d bytes Hin Hst Hc); congruence).
  split; [apply (find_unique data_id); [apply Hs | exact Hin]|].
  repeat split; assumption.
Qed.

(** What [store_data] does to a consistent store with which the payload
    does not collide: the store stays consistent, and the id it returns is
    that of a stored data row with the sha256 and the size of the payload
    whose blocks read back as the payload. *)
Lemma store_data_spec (n : nat) (payload : list byte) (s : store) :
  (0 < n)%nat → consistent s → no_collision n payload s →
  consistent (snd (store_data n payload s)) ∧
  ∃ d, data_by_id (fst (store_data n payload s))
         (st_data (snd (store_data n payload s))) = Some d ∧
       data_id d = fst (store_data n payload s) ∧
       data_stored d = 1 ∧
       data_sha256 d = sha256 payload ∧
       data_size d = Z.of_nat (length payload) ∧
       stored_content (fst (store_data n payload s))
         (snd (store_data n payload s)) = Some payload.
Proof.
  intros Hn Hs Hnc. unfold store_data.
  destruct (find_stored_data _ (st_data s)) as [d|] eqn:E.
  - simpl. split; [exact Hs|]. exists d.
    destruct (found_data_reads n payload s d Hs Hnc E) as (H1 & H2 & H3 & H4 & H5).
    repeat split; assumption.
  - set (did := st_seq_data s + 1).
    set (row := mkdata did (md5 payload) (sha1 payload) (sha256 payload)
                  (Z.of_nat (length payload)) 1).
    set (s0 := set_data_tables (st_data s ++ [row]) (st_block s)
                 (st_blockmap s) did (st_seq_block s) s).
    assert (Hb0 : blocks_consistent s0)
      by exact (conj (blocks_hashed s Hs)
                  (conj (block_ids_fresh s Hs) (block_ids_unique s Hs))).
    destruct (insert_blocks_spec (slices n payload) did 0 s0 Hb0 (proj2 Hnc))
      as (newrows & extra & Hm & Hb & Hd & Hsd & Hall & Hasc & Hcont & Hc).
    rewrite (slices_concat n payload Hn) in Hcont.
    cbn [fst snd].
    set (s' := insert_blocks did 0 (slices n payload) s0) in *.
    simpl in Hm, Hb, Hd, Hsd.
    assert (Hold : ∀ r, r ∈ st_blockmap s → dataid r ≠ did).
    { intros r Hr. pose proof (blockmap_fresh s Hs r Hr). unfold did. lia. }
    assert (Hnew : stored_content did s' = Some payload).
    { apply (stored_content_new did s0 s' newrows 0); assumption. }
    assert (Hfresh : ∀ x, x ∈ st_data s → (data_id x =? did) = false).
    { intros x Hx. apply Z.eqb_neq. pose proof (data_ids_fresh s Hs x Hx).
      unfold did. lia. }
    split.
    + destruct Hc as (Hh & Hf & Hu).
      split; try assumption.
      * intros d Hd'. rewrite Hd in Hd'. rewrite Hsd.
        apply elem_of_app in Hd' as [Hd'|Hd'].
        -- pose proof (data_ids_fresh s Hs d Hd'). unfold did. lia.
        -- apply list_elem_of_singleton in Hd'. subst d. simpl. lia.
      * rewrite Hd, List.map_app. apply NoDup_app.
        split; [apply Hs|]. split; [|apply NoDup_singleton].
        intros i Hi Hi'. simpl in Hi'. apply list_elem_of_singleton in Hi'.
        apply list_elem_of_In, in_map_iff in Hi as (x & <- & Hx).
        apply list_elem_of_In in Hx.
        pose proof (data_ids_fresh s Hs x Hx). unfold did in Hi'. lia.
      * intros r Hr. rewrite Hm in Hr. rewrite Hsd.
        apply elem_of_app in Hr as [Hr|Hr].
        -- pose proof (blockmap_fresh s Hs r Hr). unfold did. lia.
        -- rewrite Forall_forall in Hall. rewrite (Hall r Hr). lia.
      * intros d Hd' Hst. rewrite Hd in Hd'.
        apply elem_of_app in Hd' as [Hd'|Hd'].
        -- destruct (stored_readable s Hs d Hd' Hst) as (bytes & Hcb & Hhb & Hsz).
           exists bytes. split; [|split; assumption].
           apply (stored_content_extend (data_id d) s s' newrows extra);
             try assumption.
           intros r Hr. rewrite Forall_forall in Hall. rewrite (Hall r Hr).
           pose proof (data_ids_fresh s Hs d Hd'). unfold did. lia.
        -- apply list_elem_of_singleton in Hd'. subst d.
           exists payload. split; [exact Hnew|]. split; reflexivity.
    + exists row. rewrite Hd. unfold data_by_id.
      change did with (data_id row) at 1.
      rewrite (find_app_r _ _ _ Hfresh). simpl. rewrite Z.eqb_refl.
      repeat split; try reflexivity. exact Hnew.
Qed.

Lemma insert_data_with_eq (n : nat) (stream : list byte) (db : Database) :
  ∃ db' : Database,
    insert_data_with n stream db =
      (Returns (fst (store_data n stream (content (dbcon db)))), db') ∧
    content (dbcon db') = snd (store_data n stream (content (dbcon db))) ∧
    journal (dbcon db') = journal (dbcon db).
Proof.
  unfold insert_data_with, bind.
  destruct (journal (dbcon db)) as [j|] eqn:E.
  - rewrite (begin_transaction_active db j E). unfold modify_content. simpl.
    destruct (store_data n stream (content (dbcon db))) as [id s']. simpl.
    eexists. split; [reflexivity|]. split; reflexivity.
  - rewrite (begin_transaction_idle db E). unfold modify_content. simpl.
    destruct (store_data n stream (content (dbcon db))) as [id s']. simpl.
    eexists. split; [reflexivity|]. split; reflexivity.
Qed.

Lemma get_data_eq (id : Z) (db : Database) :
  get_data id db =
  (match data_by_id id (st_data (content (dbcon db))) with
   | None => Raises (NoSuchDataObjectError "data object not found")
   | Some d =>
       Returns (mkDataHandle (data_id d) (data_md5 d) (data_sha1 d)
                  (data_sha256 d) (data_size d) (data_stored d))
   end, db).
Proof.
  unfold get_data, bind, attr.
  destruct (data_by_id id _); reflexivity.
Qed.

Lemma read_eq (h : DataHandle) (db : Database) :
  read h db =
  (if handle_stored h =? 1 then
     match stored_content (handle_id h) (content (dbcon db)) with
     | Some bytes => Returns bytes
     | None => Raises (SQLError "SQLError: no such block")
     end
   else Raises (ValueError "data object is not stored"), db).
Proof.
  unfold read, bind, attr.
  destruct (handle_stored h =? 1); [|reflexivity].
  destruct (stored_content _ _); reflexivity.
Qed.

Lemma BLOCKSIZE_positive : (0 < Z.to_nat BLOCKSIZE)%nat.
Proof. unfold BLOCKSIZE. lia. Qed.

(** Round trip for any positive block size. *)
Lemma insert_data_with_round_trip (n : nat) (db : Database) (s : list byte) :
  (0 < n)%nat → consistent (content (dbcon db)) →
  no_collision n s (content (dbcon db)) →
  ∃ (id : Z) (db' : Database) (h : DataHandle),
    insert_data_with n s db = (Returns id, db') ∧
    id = fst (store_data n s (content (dbcon db))) ∧
    journal (dbcon db') = journal (dbcon db) ∧
    consistent (content (dbcon db')) ∧
    (∀ d : Database, content (dbcon d) = content (dbcon db') →
       get_data id d = (Returns h, d) ∧ read h d = (Returns s, d)) ∧
    handle_sha256 h = sha256 s ∧
    handle_length h = Z.of_nat (length s).
Proof.
  intros Hn Hs Hnc.
  destruct (insert_data_with_eq n s db) as (db' & Hi & Hc & Hj).
  destruct (store_data_spec n s _ Hn Hs Hnc)
    as (Hs' & d & Hfind & Hid & Hst & Hsha & Hsz & Hcont).
  exists (fst (store_data n s (content (dbcon db)))), db'.
  exists (mkDataHandle (data_id d) (data_md5 d) (data_sha1 d)
            (data_sha256 d) (data_size d) (data_stored d)).
  split; [exact Hi|]. split; [reflexivity|]. split; [exact Hj|].
  split; [rewrite Hc; exact Hs'|].
  split; [|split; assumption].
  intros d0 Hd0. rewrite get_data_eq, read_eq, Hd0, Hc, Hfind. simpl.
  rewrite Hst, Hid, Hcont. split; reflexivity.
Qed.

(** Digests without any collision give the local condition for every
    payload and every store. *)
Lemma collision_free_no_collision (n : nat) (payload : list byte) (s : store) :
  collision_free H → no_collision n payload s.
Proof.
  intros [H1 H256]. split.
  - intros d bytes _ _ _. apply H256.
  - intros blk x _ _ Hx _. apply H1, Hx.
Qed.
End DataStore.

Lemma create_consistent {H : hashlib} (APIVERSION : Z) (name : string) :
  consistent (content (dbcon (create APIVERSION name))).
Proof.
  split; simpl; first [apply NoDup_nil_2 | intros x Hx; inversion Hx].
Qed.

(** With the first byte as digest, the repository with the seven bytes is
    the one [insert_data] leaves on a new repository, for a block size of
    seven bytes or more, and it is consistent. *)
Lemma first_byte_db_reached (n : nat) :
  (7 ≤ n)%nat →
  insert_data_with (H := first_byte_digests) n seven_bytes (create 1 "stored.db") =
  (Returns 1, first_byte_db).
Proof.
  intros Hn.
  assert (Hsl : slices n seven_bytes = [seven_bytes])
    by (apply slices_short; [discriminate | exact Hn]).
  unfold insert_data_with, bind, modify_content, store_data.
  rewrite Hsl. reflexivity.
Qed.

Lemma first_byte_db_consistent :
  consistent (H := first_byte_digests) (content (dbcon first_byte_db)).
Proof.
  split; simpl.
  - intros b Hb. apply list_elem_of_singleton in Hb. subst b. split; reflexivity.
  - intros b Hb. apply list_elem_of_singleton in Hb. subst b. simpl. lia.
  - apply NoDup_singleton.
  - intros d Hd. apply list_elem_of_singleton in Hd. subst d. simpl. lia.
  - apply NoDup_singleton.
  - intros r Hr. apply list_elem_of_singleton in Hr. subst r. simpl. lia.
  - intros d Hd _. apply list_elem_of_singleton in Hd. subst d.
    exists seven_bytes. split; [reflexivity|]. split; reflexivity.
Qed.

(** The two bytes collide with nothing in it, although the digest has
    collisions. *)
Lemma two_bytes_no_collision (n : nat) :
  (2 ≤ n)%nat →
  no_collision (H := first_byte_digests) n two_bytes (content (dbcon first_byte_db)).
Proof.
  intros Hn.
  assert (Hsl : slices n two_bytes = [two_bytes])
    by (apply slices_short; [discriminate | exact Hn]).
  split.
  - intros d bytes Hd _ Hc Hsha. simpl in Hd.
    apply list_elem_of_singleton in Hd. subst d.
    vm_compute in Hc. injection Hc as <-. vm_compute in Hsha. discriminate.
  - rewrite Hsl. intros blk x Hblk Hx Hsha _.
    apply list_elem_of_singleton in Hblk. subst blk. simpl in Hx.
    apply elem_of_cons in Hx as [->|Hx].
    + vm_compute in Hsha. discriminate.
    + apply list_elem_of_singleton in Hx. exact Hx.
Qed.

(** The digest does have collisions. *)
Lemma first_byte_collision :
  sha256 (hashlib := first_byte_digests) [x07; x08] =
  sha256 (hashlib := first_byte_digests) [x07; x09].
Proof. reflexivity. Qed.

(** C1: on a consistent repository with which the stream [s] does not
    collide, the id [insert_data] returns for [s] gives a handle whose
    [read()] is [s], whose sha256 is that of [s] and whose length is the
    number of bytes of [s]; the repository stays consistent. *)
Theorem blob_round_trip {H : hashlib} (db : Database) (s : list byte) :
  no_collision (Z.to_nat BLOCKSIZE) s (content (dbcon db)) →
  consistent (content (dbcon db)) →
  ∃ (id : Z) (db' : Database) (h : DataHandle),
    insert_data s db = (Returns id, db') ∧
    get_data id db' = (Returns h, db') ∧
    read h db' = (Returns s, db') ∧
    handle_sha256 h = sha256 s ∧
    handle_length h = Z.of_nat (length s) ∧
    consistent (content (dbcon db')).
Proof.
  intros Hnc Hs. unfold insert_data.
  destruct (insert_data_with_round_trip _ db s BLOCKSIZE_positive Hs Hnc)
    as (id & db' & h & Hi & _ & _ & Hs' & Hread & Hsha & Hlen).
  exists id, db', h. split; [exact Hi|].
  destruct (Hread db' eq_refl) as [Hg Hr].
  split; [exact Hg|]. split; [exact Hr|]. split; [exact Hsha|].
  split; [exact Hlen | exact Hs'].
Qed.

Lemma verbatim_collision_free : collision_free verbatim_digests.
Proof.
  split; intros a b Hab; simpl in Hab;
    rewrite <- (list_byte_of_string_of_list_byte a),
            <- (list_byte_of_string_of_list_byte b), Hab; reflexivity.
Qed.

(** The witness runs on digests with collisions and on a repository that
    is not empty. *)
Lemma blob_round_trip_witness :
  no_collision (H := first_byte_digests) (Z.to_nat BLOCKSIZE) two_bytes
    (content (dbcon first_byte_db)) ∧
  consistent (H := first_byte_digests) (content (dbcon first_byte_db)) ∧
  ∃ (id : Z) (db' : Database) (h : DataHandle),
    insert_data (H := first_byte_digests) two_bytes first_byte_db = (Returns id, db') ∧
    read h db' = (Returns two_bytes, db') ∧
    handle_length h = 2.
Proof.
  assert (Hnc : no_collision (H := first_byte_digests) (Z.to_nat BLOCKSIZE) two_bytes
                  (content (dbcon first_byte_db)))
    by (apply two_bytes_no_collision; unfold BLOCKSIZE; lia).
  split; [exact Hnc|].
  split; [exact first_byte_db_consistent|].
  destruct (blob_round_trip (H := first_byte_digests) first_byte_db two_bytes
              Hnc first_byte_db_consistent)
    as (id & db' & h & Hi & _ & Hr & _ & Hl & _).
  exists id, db', h. split; [exact Hi|]. split; [exact Hr | exact Hl].
Defined.

(** ** Transactions and the data store *)







(** ** More on the timeline code *)

Lemma parse_create_view_cases (p : string) (allfields : list string) :
  parse (create_view_text p allfields) = None ∨
  ∃ v body, parse (create_view_text p allfields) = Some (CREATE_VIEW v body).
Proof.
  unfold create_view_text.
  set (body := join _ allfields +:+ " ORDER BY timestamp_").
  unfold parse.
  change (String.eqb ("CREATE VIEW " +:+ p +:+ "Timeline_ AS " +:+ body)
            "BEGIN TRANSACTION") with false.
  change (String.eqb ("CREATE VIEW " +:+ p +:+ "Timeline_ AS " +:+ body)
            "COMMIT") with false.
  change (String.eqb ("CREATE VIEW " +:+ p +:+ "Timeline_ AS " +:+ body)
            "ROLLBACK") with false.
  change (strip_prefix "DROP VIEW IF EXISTS "
            ("CREATE VIEW " +:+ p +:+ "Timeline_ AS " +:+ body)) with (@None string).
  cbv iota.
  change (strip_prefix "CREATE VIEW "
            ("CREATE VIEW " +:+ p +:+ "Timeline_ AS " +:+ body))
    with (Some (p +:+ "Timeline_ AS " +:+ body)).
  cbv iota.
  destruct (split_space _) as [v [r|]]; [|left; reflexivity].
  destruct (strip_prefix "AS " r); [right; eauto | left; reflexivity].
Qed.

(** A CREATE VIEW of the timeline changes neither the transaction state nor
    anything in the repository but its views, whether it succeeds or not. *)
Lemma execute_create_view_frame (p : string) (allfields : list string) (D : Database) :
  journal (dbcon (snd (execute (create_view_text p allfields) D))) = journal (dbcon D) ∧
  (∀ V, set_views V (content (dbcon (snd (execute (create_view_text p allfields) D)))) =
        set_views V (content (dbcon D))) ∧
  catalog (snd (execute (create_view_text p allfields) D)) = catalog D.
Proof.
  unfold execute.
  destruct (parse_create_view_cases p allfields) as [Hp|(v & body & Hp)];
    rewrite Hp; simpl.
  - repeat split.
  - destruct (st_views (content (dbcon D)) !! v); simpl; repeat split.
Qed.

Lemma end_if_started_frame (started : bool) (D : Database) :
  (∀ V, set_views V (content (dbcon (snd (end_if_started started D)))) =
        set_views V (content (dbcon D))) ∧
  views (snd (end_if_started started D)) = views D ∧
  catalog (snd (end_if_started started D)) = catalog D.
Proof.
  destruct started; simpl; [|repeat split].
  unfold end_transaction, execute. simpl.
  destruct (journal (dbcon D)); simpl; repeat split.
Qed.

Lemma execute_create_view_after_drop_eq (allfields : list string) db :
  no_space (prefix db) = true →
  execute (create_view_text (prefix db) allfields) (after_drop db) =
  (Returns tt,
   set_dbcon
     (mkconnection
        (set_views (<[timeline_name db := union_text allfields]>
                      (delete (timeline_name db) (views db)))
           (content (dbcon db)))
        (journal (dbcon (after_drop db)))
        (executed (dbcon (after_drop db)) ++
         [create_view_text (prefix db) allfields]))
     db).
Proof.
  intros Hp. unfold execute. rewrite (parse_create_view _ _ Hp).
  unfold run_statement. cbn [content journal executed dbcon after_drop set_dbcon].
  fold (timeline_name db).
  replace (st_views (set_views (delete (timeline_name db) (views db))
                       (content (dbcon db))) !! timeline_name db)
    with (@None string) by (symmetry; apply lookup_delete_eq).
  reflexivity.
Qed.

Lemma create_timeline_view_returns excluded db subs :
  no_space (prefix db) = true →
  fst (timeline_subqueries excluded db) = Returns subs →
  ∃ db' : Database,
    create_timeline_view excluded db = (Returns tt, db') ∧
    content (dbcon db') = timeline_content db subs ∧
    journal (dbcon db') = journal (dbcon db) ∧
    catalog db' = catalog db.
Proof.
  intros Hp Hs. rewrite create_timeline_view_eq, Hs. unfold timeline_content.
  destruct (Z.of_nat (length subs) =? 0).
  - rewrite end_if_started_after_drop. eexists. split; [reflexivity|].
    split; [reflexivity|]. split; [|reflexivity].
    unfold active. simpl. destruct (journal (dbcon db)); reflexivity.
  - unfold bind. rewrite (execute_create_view_after_drop_eq subs db Hp).
    unfold active, end_if_started, end_transaction, execute.
    destruct (journal (dbcon db)) as [j|] eqn:E; simpl.
    + eexists. split; [reflexivity|]. rewrite E. repeat split.
    + eexists. split; [reflexivity|]. rewrite E. repeat split.
Qed.

Lemma create_timeline_view_returns_inv excluded db :
  fst (create_timeline_view excluded db) = Returns tt →
  ∃ subs, fst (timeline_subqueries excluded db) = Returns subs.
Proof.
  rewrite create_timeline_view_eq.
  destruct (fst (timeline_subqueries excluded db)) as [subs|e]; [eauto|].
  simpl. discriminate.
Qed.


(** X1: a second call of [create_timeline_view] right after a call that
    returned normally returns normally too and leaves the repository and
    the transaction state as the first call left them. *)
Theorem create_timeline_view_idempotent (db : Database) (excluded : exclusion) :
  no_space (prefix db) = true →
  fst (create_timeline_view excluded db) = Returns tt →
  let db1 := snd (create_timeline_view excluded db) in
  fst (create_timeline_view excluded db1) = Returns tt ∧
  content (dbcon (snd (create_timeline_view excluded db1))) = content (dbcon db1) ∧
  journal (dbcon (snd (create_timeline_view excluded db1))) = journal (dbcon db1).
Proof.
  intros Hp Hret.
  destruct (create_timeline_view_returns_inv excluded db Hret) as [subs Hs].
  destruct (create_timeline_view_returns excluded db subs Hp Hs)
    as (db1 & H1 & Hc1 & Hj1 & Hcat1).
  rewrite H1. cbn [snd].
  assert (Hp1 : no_space (prefix db1) = true).
  { unfold catalog in Hcat1. congruence. }
  assert (Hs1 : fst (timeline_subqueries excluded db1) = Returns subs).
  { rewrite (proj2 (query_timeline_subqueries excluded db1) db Hcat1). exact Hs. }
  destruct (create_timeline_view_returns excluded db1 subs Hp1 Hs1)
    as (db2 & H2 & Hc2 & Hj2 & _).
  rewrite H2. split; [reflexivity|]. split; [|exact Hj2].
  cbn [snd]. rewrite Hc2. unfold timeline_content, timeline_name, views.
  assert (Hpre : prefix db1 = prefix db) by (unfold catalog in Hcat1; congruence).
  rewrite Hpre, Hc1. unfold timeline_content, timeline_name, views. simpl.
  destruct (Z.of_nat (length subs) =? 0).
  - rewrite delete_delete_eq. reflexivity.
  - rewrite delete_insert_eq, delete_delete_eq. reflexivity.
Qed.

Lemma create_timeline_view_idempotent_witness :
  no_space (prefix example_db) = true ∧
  fst (create_timeline_view PyNone example_db) = Returns tt ∧
  fst (create_timeline_view PyNone (snd (create_timeline_view PyNone example_db))) =
    Returns tt.
Proof.
  assert (H1 : no_space (prefix example_db) = true) by reflexivity.
  assert (H2 : fst (create_timeline_view PyNone example_db) = Returns tt)
    by (vm_compute; reflexivity).
  split; [exact H1|]. split; [exact H2|].
  exact (proj1 (create_timeline_view_idempotent example_db PyNone H1 H2)).
Defined.

(** X2: whatever the outcome, [create_timeline_view] changes nothing in the
    repository but its views and leaves the catalog it read as it was; with
    a prefix without a space, every view other than the timeline view is as
    it was before the call. *)
Theorem create_timeline_view_frame (db : Database) (excluded : exclusion) :
  let db' := snd (create_timeline_view excluded db) in
  (∀ V, set_views V (content (dbcon db')) = set_views V (content (dbcon db))) ∧
  catalog db' = catalog db ∧
  (no_space (prefix db) = true →
   ∀ v, v ≠ timeline_name db → views db' !! v = views db !! v).
Proof.
  cbv zeta. rewrite create_timeline_view_eq.
  destruct (fst (timeline_subqueries excluded db)) as [subs|e].
  - destruct (Z.of_nat (length subs) =? 0).
    + destruct (end_if_started_frame (negb (active db)) (after_drop db))
        as (Hf & Hv & Hc).
      split; [intros V; rewrite Hf; reflexivity|].
      split; [rewrite Hc; reflexivity|].
      intros _ v Hv'. rewrite Hv. unfold views, after_drop. simpl.
      apply lookup_delete_ne. congruence.
    + unfold bind.
      destruct (execute_create_view_frame (prefix db) subs (after_drop db))
        as (Hj & Hf & Hc).
      destruct (execute (create_view_text (prefix db) subs) (after_drop db))
        as [[[]|e] d] eqn:E; cbn [snd] in Hj, Hf, Hc.
      * destruct (end_if_started_frame (negb (active db)) d) as (Hf' & Hv' & Hc').
        split; [intros V; rewrite Hf', Hf; reflexivity|].
        split; [rewrite Hc', Hc; reflexivity|].
        intros Hp v Hne. rewrite Hv'.
        rewrite (execute_create_view_after_drop_eq subs db Hp) in E.
        injection E as <-. unfold views. simpl.
        rewrite lookup_insert_ne by congruence.
        apply lookup_delete_ne. congruence.
      * cbn [snd]. split; [exact Hf|]. split; [exact Hc|].
        intros Hp. rewrite (execute_create_view_after_drop_eq subs db Hp) in E.
        discriminate.
  - cbn [snd]. split; [intros V; reflexivity|]. split; [reflexivity|].
    intros _ v Hne. unfold views, after_drop. simpl.
    apply lookup_delete_ne. congruence.
Qed.

Lemma create_timeline_view_frame_witness :
  no_space (prefix example_db) = true ∧
  ∀ v, v ≠ "xTimeline_" →
       views (snd (create_timeline_view PyNone example_db)) !! v =
       views example_db !! v.
Proof.
  assert (H1 : no_space (prefix example_db) = true) by reflexivity.
  split; [exact H1|].
  exact (proj2 (proj2 (create_timeline_view_frame example_db PyNone)) H1).
Defined.

(** X3: a call that returns normally leaves the transaction state as it
    found it (it commits exactly when it began the transaction); a call
    that raises, for whatever reason, leaves a transaction active. *)
Theorem create_timeline_view_transaction (db : Database) (excluded : exclusion) :
  match fst (create_timeline_view excluded db) with
  | Returns _ =>
      journal (dbcon (snd (create_timeline_view excluded db))) = journal (dbcon db)
  | Raises _ => active (snd (create_timeline_view excluded db)) = true
  end.
Proof.
  rewrite create_timeline_view_eq.
  destruct (fst (timeline_subqueries excluded db)) as [subs|e]; [|reflexivity].
  assert (Hend : ∀ d, journal (dbcon d) = journal (dbcon (after_drop db)) →
            fst (end_if_started (negb (active db)) d) = Returns tt ∧
            journal (dbcon (snd (end_if_started (negb (active db)) d))) =
              journal (dbcon db)).
  { intros d Hd. unfold active, end_if_started, end_transaction, execute.
    destruct (journal (dbcon db)) as [j|] eqn:E; simpl.
    - split; [reflexivity|]. rewrite Hd. simpl. rewrite ?E. reflexivity.
    - rewrite Hd. simpl. rewrite ?E. simpl. split; reflexivity. }
  destruct (Z.of_nat (length subs) =? 0).
  - destruct (Hend (after_drop db) eq_refl) as [H1 H2]. rewrite H1. exact H2.
  - unfold bind.
    destruct (execute_create_view_frame (prefix db) subs (after_drop db))
      as (Hj & _ & _).
    destruct (execute (create_view_text (prefix db) subs) (after_drop db))
      as [[[]|e] d]; cbn [snd] in Hj.
    + destruct (Hend d Hj) as [H1 H2].
      destruct (end_if_started (negb (active db)) d) as [r d'].
      simpl in H1, H2. subst r. exact H2.
    + cbn [fst snd]. unfold active. rewrite Hj. reflexivity.
Qed.

Lemma for_each_raises {A B} (body : A → py B) (e : exn) (xs : list A) (x : A) db :
  (∀ y, query (body y)) →
  (∀ y e', fst (body y db) = Raises e' → e' = e) →
  x ∈ xs → fst (body x db) = Raises e →
  fst (for_each body xs db) = Raises e.
Proof.
  intros Hq Honly Hin Hx. induction xs as [|y xs IH]; [inversion Hin|].
  simpl. rewrite (fst_bind_query (body y)) by apply Hq.
  destruct (fst (body y db)) as [b|e'] eqn:Ey.
  - rewrite (fst_bind_query (for_each body xs)) by apply query_for_each, Hq.
    apply elem_of_cons in Hin as [->|Hin]; [congruence|].
    rewrite (IH Hin). reflexivity.
  - f_equal. apply (Honly y), Ey.
Qed.

Lemma format_s_raises v db e :
  fst (format_s v db) = Raises e → e = format_None.
Proof. destruct v; simpl; [discriminate|]. intros [= <-]. reflexivity. Qed.

Lemma preview_expression_raises colnames db e :
  fst (preview_expression colnames db) = Raises e → e = format_None.
Proof.
  unfold preview_expression. destruct (_ =? 0); [discriminate|].
  rewrite (fst_bind_query (for_each preview_entry colnames))
    by apply query_for_each, query_preview_entry.
  destruct (fst (for_each preview_entry colnames db)) as [l|e'] eqn:E;
    [discriminate|].
  intros [= <-]. clear -E. revert e' E.
  induction colnames as [|c cs IH]; intros e' E; [discriminate|].
  simpl in E. rewrite (fst_bind_query (preview_entry c)) in E
    by apply query_preview_entry.
  destruct (fst (preview_entry c db)) as [s|e1] eqn:Ec.
  - rewrite (fst_bind_query (for_each preview_entry cs)) in E
      by apply query_for_each, query_preview_entry.
    destruct (fst (for_each preview_entry cs db)) as [l|e2] eqn:E2;
      [discriminate|].
    injection E as <-. apply (IH e2 eq_refl).
  - injection E as <-. unfold preview_entry in Ec.
    rewrite (fst_bind_query (format_s _)) in Ec by apply query_format_s.
    destruct (fst (format_s (snd c) db)) eqn:Ef; [discriminate|].
    injection Ec as <-. apply (format_s_raises _ _ _ Ef).
Qed.

(** The only exception [_modeltimeline_subquery] raises is the TypeError of
    a [{:s}] field given None. *)
Lemma modeltimeline_subquery_raises fd db e :
  fst (_modeltimeline_subquery fd db) = Raises e → e = format_None.
Proof.
  unfold _modeltimeline_subquery, bind. rewrite preview_columns_eq.
  rewrite (query_run (preview_expression _) db (query_preview_expression _)).
  destruct (fst (preview_expression _ db)) as [pv|e1] eqn:Ep.
  - destruct (columnname_ fd); simpl; [|intros [= <-]; reflexivity].
    destruct (modeltable_ fd); simpl; [discriminate|intros [= <-]; reflexivity].
  - simpl. intros [= <-]. apply (preview_expression_raises _ _ _ Ep).
Qed.

Lemma modeltimeline_subquery_unnamed fd db :
  named fd = false → fst (_modeltimeline_subquery fd db) = Raises format_None.
Proof.
  intros Hn.
  destruct (fst (_modeltimeline_subquery fd db)) as [q|e] eqn:E.
  - exfalso. revert E. unfold _modeltimeline_subquery, bind.
    rewrite preview_columns_eq.
    rewrite (query_run (preview_expression _) db (query_preview_expression _)).
    destruct (fst (preview_expression _ db)); [|discriminate].
    unfold named in Hn.
    destruct (columnname_ fd); simpl; [|discriminate].
    destruct (modeltable_ fd); simpl; [discriminate Hn|discriminate].
  - f_equal. apply (modeltimeline_subquery_raises _ _ _ E).
Qed.

(** X4: when the exclusion list is accepted and one of the temporal fields
    that are kept has no column name or no model table (NULL in
    [_fieldinfo_]), [create_timeline_view] raises the TypeError of the
    [{:s}] format; the timeline view has been dropped and the transaction
    is left active. *)
Theorem create_timeline_view_unnamed_field
    (db : Database) (excluded : exclusion) (fd : fieldinfo) :
  accepted db excluded = true →
  fd ∈ temporal_fields (st_fieldinfo (content (dbcon db))) (excluded_names excluded) →
  named fd = false →
  fst (create_timeline_view excluded db) =
    Raises (TypeError "unsupported format string passed to NoneType.__format__") ∧
  views (snd (create_timeline_view excluded db)) !! timeline_name db = None ∧
  active (snd (create_timeline_view excluded db)) = true.
Proof.
  intros Hacc Hin Hn. rewrite create_timeline_view_eq.
  assert (Hs : fst (timeline_subqueries excluded db) = Raises format_None).
  { unfold timeline_subqueries.
    rewrite (fst_bind_query (timeline_fields excluded)) by apply query_timeline_fields.
    rewrite (timeline_fields_accepted excluded db Hacc).
    apply (for_each_raises _ _ _ fd).
    - apply query_modeltimeline_subquery.
    - intros y e'. apply modeltimeline_subquery_raises.
    - exact Hin.
    - apply modeltimeline_subquery_unnamed, Hn. }
  rewrite Hs. split; [reflexivity|]. split; [apply lookup_after_drop|reflexivity].
Qed.

Lemma create_timeline_view_unnamed_field_witness :
  let fd := mkfieldinfo (Some "event") (Some "xevent") "seen" None (Some "Datetime") (Some 1) in
  accepted unnamed_db PyNone = true ∧
  fd ∈ temporal_fields (st_fieldinfo (content (dbcon unnamed_db))) [] ∧
  named fd = false ∧
  fst (create_timeline_view PyNone unnamed_db) =
    Raises (TypeError "unsupported format string passed to NoneType.__format__").
Proof.
  cbv zeta.
  assert (H1 : accepted unnamed_db PyNone = true) by reflexivity.
  assert (H2 : mkfieldinfo (Some "event") (Some "xevent") "seen" None (Some "Datetime") (Some 1)
               ∈ temporal_fields (st_fieldinfo (content (dbcon unnamed_db)))
                   (excluded_names PyNone))
    by (apply list_elem_of_In; vm_compute; tauto).
  assert (H3 : named (mkfieldinfo (Some "event") (Some "xevent") "seen" None
                        (Some "Datetime") (Some 1)) = false) by reflexivity.
  split; [exact H1|]. split; [exact H2|]. split; [exact H3|].
  exact (proj1 (create_timeline_view_unnamed_field unnamed_db PyNone _ H1 H2 H3)).
Defined.

(** X5: an [excluded] argument that is neither None nor a list makes both
    functions raise ValueError, whatever it holds; [timeline_fields] leaves
    the handle untouched, [create_timeline_view] has by then begun a
    transaction and dropped the timeline view. *)
Theorem exclusion_must_be_a_list (db : Database) :
  timeline_fields PyOther db =
    (Raises (ValueError "expected list of modelnames to exclude from timeline"), db) ∧
  fst (create_timeline_view PyOther db) =
    Raises (ValueError "expected list of modelnames to exclude from timeline") ∧
  views (snd (create_timeline_view PyOther db)) !! timeline_name db = None ∧
  active (snd (create_timeline_view PyOther db)) = true.
Proof.
  assert (Hf : fst (timeline_fields PyOther db) =
    Raises (ValueError "expected list of modelnames to exclude from timeline")).
  { rewrite timeline_fields_eq. reflexivity. }
  split.
  - rewrite (query_run _ db (query_timeline_fields PyOther)), Hf. reflexivity.
  - rewrite (create_timeline_view_raises _ _ _ Hf).
    split; [reflexivity|]. split; [apply lookup_after_drop|reflexivity].
Qed.

(** X6: an empty exclusion list is the same as no exclusion list, for both
    functions. *)
Theorem empty_exclusion_is_none (db : Database) :
  timeline_fields (PyList []) db = timeline_fields PyNone db ∧
  create_timeline_view (PyList []) db = create_timeline_view PyNone db.
Proof.
  assert (Hf : fst (timeline_fields (PyList []) db) = fst (timeline_fields PyNone db)).
  { assert (Hall : ∀ l : list fieldinfo,
              List.filter (λ f, negb (in_names (modelname_ f) [])) l = l).
    { intros l. apply filter_all. intros x _. rewrite in_names_nil. reflexivity. }
    rewrite !timeline_fields_eq. unfold apply_exclusion, check_excluded, bind, ret.
    cbn [fst snd]. rewrite !Hall. reflexivity. }
  split.
  - rewrite (query_run _ db (query_timeline_fields (PyList []))),
            (query_run _ db (query_timeline_fields PyNone)), Hf. reflexivity.
  - rewrite !create_timeline_view_eq. unfold timeline_subqueries.
    rewrite !(fst_bind_query (timeline_fields _)) by apply query_timeline_fields.
    rewrite Hf. reflexivity.
Qed.

(** ** validname *)

Lemma replace_char_length old new s :
  String.length (replace_char old new s) = String.length s.
Proof. induction s as [|c s IH]; simpl; [reflexivity|]. rewrite IH. reflexivity. Qed.

Lemma replace_char_get old new s i :
  String.get i (replace_char old new s) =
  match String.get i s with
  | Some c => Some (if Ascii.eqb c old then new else c)
  | None => None
  end.
Proof.
  revert i. induction s as [|c s IH]; intros i; simpl; [reflexivity|].
  destruct i; [reflexivity|]. apply IH.
Qed.

Lemma replace_char_app old new a b :
  replace_char old new (a +:+ b) = replace_char old new a +:+ replace_char old new b.
Proof.
  induction a as [|c a IH]; [reflexivity|].
  change (String (if Ascii.eqb c old then new else c) (replace_char old new (a +:+ b)) =
          String (if Ascii.eqb c old then new else c)
            (replace_char old new a +:+ replace_char old new b)).
  rewrite IH. reflexivity.
Qed.

Lemma get_app_prefix (p s : string) (i : nat) :
  String.get (String.length p + i) (p +:+ s) = String.get i s.
Proof.
  induction p as [|c p IH]; [reflexivity|].
  change (String.get (S (String.length p + i)) (String c (p +:+ s)) = String.get i s).
  simpl. exact IH.
Qed.

Lemma length_app_string (a b : string) :
  String.length (a +:+ b) = (String.length a + String.length b)%nat.
Proof.
  induction a as [|c a IH]; [reflexivity|].
  change (S (String.length (a +:+ b)) = S (String.length a + String.length b)).
  rewrite IH. reflexivity.
Qed.

(** X7: [validname] puts the prefix in front of the name and, character by
    character, replaces ['.'] and ['+'] by ['_'] and leaves every other
    character as it is (so the length is that of prefix plus name); the
    prefix itself is not touched. *)
Theorem validname_characters (name prefix : string) (i : nat) :
  String.length (validname name prefix) =
    (String.length prefix + String.length name)%nat ∧
  String.get (String.length prefix + i) (validname name prefix) =
    match String.get i name with
    | Some c => Some (if Ascii.eqb c "." || Ascii.eqb c "+" then "_"%char else c)
    | None => None
    end ∧
  (∀ j, (j < String.length prefix)%nat →
        String.get j (validname name prefix) = String.get j prefix).
Proof.
  unfold validname. split; [|split].
  - rewrite length_app_string, !replace_char_length. reflexivity.
  - rewrite get_app_prefix, !replace_char_get.
    destruct (String.get i name) as [c|]; [|reflexivity].
    destruct (Ascii.eqb c ".") eqn:E1; simpl; [reflexivity|].
    reflexivity.
  - intros j Hj. revert j Hj.
    induction prefix as [|c p IH]; intros j Hj; [simpl in Hj; lia|].
    change (String.get j (String c (p +:+ replace_char "+" "_" (replace_char "." "_" name))) =
            String.get j (String c p)).
    destruct j; [reflexivity|]. simpl. apply IH. simpl in Hj. lia.
Qed.

(** X8: [validname] is not injective: names that differ only in having
    ['.'], ['+'] or ['_'] at some place get the same SQLite name. *)
Theorem validname_collisions (a b prefix : string) :
  validname (a +:+ "." +:+ b) prefix = validname (a +:+ "_" +:+ b) prefix ∧
  validname (a +:+ "+" +:+ b) prefix = validname (a +:+ "_" +:+ b) prefix.
Proof.
  unfold validname. rewrite !replace_char_app. split; reflexivity.
Qed.

(** ** The two copies of the field selection *)

(** X9: [timeline_fields] leaves the handle untouched, and
    [create_timeline_view] selects the same fields: it raises what
    [timeline_fields] raises for the same arguments, it raises what the
    first failing sub-select raises, and otherwise the statement after the
    DROP VIEW is the CREATE VIEW over the sub-selects of the fields
    [timeline_fields] returns, in their order. *)
Theorem create_timeline_view_follows_timeline_fields
    (db : Database) (excluded : exclusion) :
  snd (timeline_fields excluded db) = db ∧
  match fst (timeline_fields excluded db) with
  | Raises e => fst (create_timeline_view excluded db) = Raises e
  | Returns fds =>
      match fst (for_each _modeltimeline_subquery fds db) with
      | Raises e => fst (create_timeline_view excluded db) = Raises e
      | Returns [] =>
          executed (dbcon (snd (create_timeline_view excluded db))) =
          executed (dbcon db) ++
          ["BEGIN TRANSACTION"; "DROP VIEW IF EXISTS " +:+ timeline_name db] ++
          (if active db then [] else ["COMMIT"])
      | Returns (q :: subs) =>
          ∃ rest,
            executed (dbcon (snd (create_timeline_view excluded db))) =
            executed (dbcon db) ++
            ["BEGIN TRANSACTION"; "DROP VIEW IF EXISTS " +:+ timeline_name db;
             "CREATE VIEW " +:+ prefix db +:+ "Timeline_ AS " +:+
             join (nl +:+ nl +:+ "UNION" +:+ nl +:+ nl) (q :: subs) +:+
             " ORDER BY timestamp_"] ++ rest
      end
  end.
Proof.
  split; [apply query_timeline_fields|].
  rewrite create_timeline_view_eq. unfold timeline_subqueries.
  rewrite (fst_bind_query (timeline_fields excluded)) by apply query_timeline_fields.
  destruct (fst (timeline_fields excluded db)) as [fds|e]; [|reflexivity].
  destruct (fst (for_each _modeltimeline_subquery fds db)) as [[|q subs]|e];
    [| |reflexivity].
  - simpl. rewrite end_if_started_after_drop. simpl.
    rewrite <- app_assoc. reflexivity.
  - replace (Z.of_nat (length (q :: subs)) =? 0) with false
      by (symmetry; apply Z.eqb_neq; simpl length; lia).
    unfold bind.
    pose proof (execute_executed (create_view_text (prefix db) (q :: subs))
                  (after_drop db)) as Hx.
    destruct (execute _ (after_drop db)) as [[[]|e] d']; simpl in Hx.
    + destruct (end_if_started_executed (negb (active db)) d') as [rest Hrest].
      exists rest. rewrite Hrest, Hx. rewrite <- !app_assoc. reflexivity.
    + exists []. simpl. rewrite Hx, <- !app_assoc. reflexivity.
Qed.


(** ** The extra field parser *)

Lemma byte_of_Z_value (v : Z) : Z.of_N (Byte.to_N (byte_of_Z v)) = v mod 256.
Proof.
  unfold byte_of_Z.
  assert (Hr : 0 ≤ v mod 256 < 256) by (apply Z.mod_pos_bound; lia).
  destruct (Byte.of_N (Z.to_N (v mod 256))) as [b|] eqn:E.
  - apply Byte.to_of_N in E. rewrite E. lia.
  - apply Byte.of_N_None_iff in E. lia.
Qed.

Lemma le_uint_le_bytes (n : nat) :
  ∀ v, 0 ≤ v < 256 ^ Z.of_nat n → le_uint (le_bytes n v) = v.
Proof.
  induction n as [|n IH]; intros v Hv.
  - simpl in *. lia.
  - cbn [le_bytes le_uint]. rewrite byte_of_Z_value, IH.
    + pose proof (Z.div_mod v 256). lia.
    + rewrite Nat2Z.inj_succ, Z.pow_succ_r in Hv by lia.
      split; [apply Z.div_pos; lia|].
      apply Z.div_lt_upper_bound; lia.
Qed.

Lemma length_le_bytes (n : nat) (v : Z) : length (le_bytes n v) = n.
Proof. revert v. induction n; intros v; simpl; [reflexivity|]. rewrite IHn. reflexivity. Qed.

Lemma slice_app_shift {A} (pre rest : list A) (a b : nat) :
  slice (length pre + a) (length pre + b) (pre ++ rest) = slice a b rest.
Proof.
  unfold slice. rewrite drop_app_add.
  replace (length pre + b - (length pre + a))%nat with (b - a)%nat by lia.
  reflexivity.
Qed.

(** The loop sees only what lies after [pos]: bytes before the position do
    not matter. *)
Lemma parse_loop_shift (fuel : nat) (pre rest : list byte) :
  ∀ pos s,
    parse_loop fuel (pre ++ rest) (length pre + pos) s = parse_loop fuel rest pos s.
Proof.
  induction fuel as [|fuel IH]; intros pos s.
  - simpl. rewrite length_app.
    replace (Z.of_nat (length pre + pos) <? Z.of_nat (length pre + length rest) - 4)
      with (Z.of_nat pos <? Z.of_nat (length rest) - 4); [reflexivity|].
    destruct (Z.ltb_spec (Z.of_nat pos) (Z.of_nat (length rest) - 4));
      symmetry; [apply Z.ltb_lt | apply Z.ltb_ge]; lia.
  - cbn [parse_loop]. rewrite length_app.
    replace (Z.of_nat (length pre + pos) <? Z.of_nat (length pre + length rest) - 4)
      with (Z.of_nat pos <? Z.of_nat (length rest) - 4).
    2:{ destruct (Z.ltb_spec (Z.of_nat pos) (Z.of_nat (length rest) - 4));
          symmetry; [apply Z.ltb_lt | apply Z.ltb_ge]; lia. }
    destruct (Z.of_nat pos <? Z.of_nat (length rest) - 4); [|reflexivity].
    replace (length pre + pos + 4)%nat with (length pre + (pos + 4))%nat by lia.
    rewrite slice_app_shift.
    destruct (_unpack "<HH" (slice pos (pos + 4) rest)) as [header|e]; [|reflexivity].
    replace (length pre + (pos + 4) + Z.to_nat (nth 1 header 0%Z))%nat
      with (length pre + (pos + 4 + Z.to_nat (nth 1 header 0%Z)))%nat by lia.
    rewrite slice_app_shift.
    destruct (parse_block _ _ _ s) as [s'|e]; [|reflexivity].
    apply IH.
Qed.

(** Any fuel that covers what is left of the data gives the same result,
    and that result is never "out of fuel". *)
Lemma parse_loop_fuel (fuel : nat) :
  ∀ fuel' data pos s,
    (length data ≤ pos + fuel)%nat → (length data ≤ pos + fuel')%nat →
    parse_loop fuel data pos s = parse_loop fuel' data pos s ∧
    parse_loop fuel data pos s ≠ None.
Proof.
  induction fuel as [|fuel IH]; intros fuel' data pos s Hf Hf'.
  - assert (Hc : (Z.of_nat pos <? Z.of_nat (length data) - 4) = false)
      by (apply Z.ltb_ge; lia).
    destruct fuel'; simpl; rewrite Hc; split; congruence.
  - destruct fuel' as [|fuel'].
    + assert (Hc : (Z.of_nat pos <? Z.of_nat (length data) - 4) = false)
        by (apply Z.ltb_ge; lia).
      simpl. rewrite Hc. split; congruence.
    + cbn [parse_loop].
      destruct (Z.of_nat pos <? Z.of_nat (length data) - 4); [|split; congruence].
      destruct (_unpack "<HH" _) as [header|e]; [|split; congruence].
      destruct (parse_block _ _ _ s) as [s'|e]; [|split; congruence].
      apply IH; lia.
Qed.


Lemma parse_extra_after_loop (data : list byte) :
  _parse_extra data = after_loop (parse_from extra_defaults data).
Proof. reflexivity. Qed.

Lemma unpack_header (magic size : Z) :
  0 ≤ magic < 65536 → 0 ≤ size < 65536 →
  _unpack "<HH" (le_bytes 2 magic ++ le_bytes 2 size) = Done [magic; size].
Proof.
  intros Hm Hs. unfold _unpack.
  change (_unpack "<HH" (le_bytes 2 magic ++ le_bytes 2 size)) with
    (Done [le_uint (le_bytes 2 magic); le_uint (le_bytes 2 size)]) ||
  change (Done [le_uint (le_bytes 2 magic); le_uint (le_bytes 2 size)] =
          Done [magic; size]).
  rewrite !le_uint_le_bytes by (simpl; lia). reflexivity.
Qed.

Lemma parse_from_short (s : extra_state) (data : list byte) :
  (length data ≤ 4)%nat → parse_from s data = Some (Done s).
Proof.
  intros Hlen. unfold parse_from.
  assert (Hc : (Z.of_nat 0 <? Z.of_nat (length data) - 4) = false)
    by (apply Z.ltb_ge; lia).
  destruct (length data) eqn:E; simpl; rewrite ?E in *; rewrite Hc; reflexivity.
Qed.

(** The first block of the data: its effect on the variables, then the
    loop on what follows it. *)
Lemma parse_from_block (magic : Z) (payload rest : list byte) (s : extra_state) :
  0 ≤ magic < 65536 → Z.of_nat (length payload) < 65536 →
  payload ≠ [] ∨ rest ≠ [] →
  parse_from s (extra_block magic payload ++ rest) =
  match parse_block magic (Z.of_nat (length payload)) payload s with
  | Raised e => Some (Raised e)
  | Done s' => parse_from s' rest
  end.
Proof.
  intros Hm Hp Hne. unfold parse_from.
  set (block := extra_block magic payload).
  set (header := le_bytes 2 magic ++ le_bytes 2 (Z.of_nat (length payload))).
  assert (Hblock : block = header ++ payload)
    by (unfold block, header, extra_block; rewrite <- app_assoc; reflexivity).
  assert (Hh : length header = 4%nat) by reflexivity.
  assert (Hlen : length (block ++ rest) = S (3 + length payload + length rest)).
  { rewrite Hblock, !length_app, Hh. lia. }
  rewrite Hlen at 1. cbn [parse_loop].
  assert (Hc : (Z.of_nat 0 <? Z.of_nat (length (block ++ rest)) - 4) = true).
  { apply Z.ltb_lt. rewrite Hlen.
    destruct Hne as [Hne|Hne]; [destruct payload|destruct rest];
      try congruence; simpl length; lia. }
  rewrite Hc.
  assert (Hs1 : slice 0 (0 + 4) (block ++ rest) = header).
  { unfold slice. rewrite Hblock, <- !app_assoc, drop_0.
    replace (0 + 4 - 0)%nat with (length header) by (rewrite Hh; reflexivity).
    apply take_app_length. }
  rewrite Hs1. unfold header at 1.
  rewrite unpack_header by lia. cbn [nth].
  rewrite Nat2Z.id.
  assert (Hs2 : slice (0 + 4) (0 + 4 + length payload) (block ++ rest) = payload).
  { unfold slice. rewrite Hblock, <- !app_assoc.
    replace (0 + 4)%nat with (length header) by (rewrite Hh; reflexivity).
    rewrite drop_app_length.
    replace (length header + length payload - length header)%nat
      with (length payload) by lia.
    apply take_app_length. }
  rewrite Hs2.
  destruct (parse_block magic (Z.of_nat (length payload)) payload s) as [s'|e];
    [|reflexivity].
  replace (0 + 4 + length payload)%nat with (length block + 0)%nat
    by (rewrite Hblock, length_app, Hh; lia).
  rewrite parse_loop_shift.
  apply parse_loop_fuel; lia.
Qed.


Lemma parse_from_total (s : extra_state) (data : list byte) :
  ∃ r, parse_from s data = Some r.
Proof.
  unfold parse_from.
  destruct (parse_loop (length data) data 0 s) as [r|] eqn:E; [eauto|].
  exfalso. revert E.
  apply (parse_loop_fuel (length data) (length data) data 0 s); lia.
Qed.

Lemma parse_block_unknown magic size field s :
  known_magic magic = false → parse_block magic size field s = Done s.
Proof.
  unfold known_magic, parse_block. intros H.
  repeat (apply orb_false_elim in H as [H ?]).
  repeat match goal with E : (_ =? _) = false |- _ => rewrite E; clear E end.
  reflexivity.
Qed.

Lemma extra_blocks_cons b bs tail :
  extra_blocks (b :: bs) ++ tail =
  extra_block (fst b) (snd b) ++ (extra_blocks bs ++ tail).
Proof. unfold extra_blocks. simpl. rewrite <- app_assoc. reflexivity. Qed.

(** Two tails that the loop treats alike after any state are treated alike
    after any sequence of proper blocks in front of them. *)
Lemma parse_from_blocks_tail (blocks : list (Z * list byte)) (t1 t2 : list byte) :
  Forall proper_block blocks →
  (∀ s, parse_from s t1 = parse_from s t2) →
  ∀ s, parse_from s (extra_blocks blocks ++ t1) =
       parse_from s (extra_blocks blocks ++ t2).
Proof.
  intros Hall Htail. induction Hall as [|b bs [Hm Hp] Hbs IH]; intros s.
  - exact (Htail s).
  - rewrite !extra_blocks_cons.
    assert (Hne : ∀ r : list byte, snd b ≠ [] ∨ r ≠ []).
    { intros r. left. destruct (snd b); [simpl in Hp; lia | discriminate]. }
    rewrite !parse_from_block by (try apply Hne; lia).
    destruct (parse_block _ _ _ s) as [s'|e]; [apply IH | reflexivity].
Qed.

(** X10: [_parse_extra] ends on every input, with a tuple or with an
    exception: a turn of its loop moves the position forward by at least
    four bytes. *)
Theorem parse_extra_terminates (data : list byte) :
  ∃ r, _parse_extra data = Some r.
Proof.
  rewrite parse_extra_after_loop.
  destruct (parse_from_total extra_defaults data) as [[s|e] Hr]; rewrite Hr; simpl.
  - destruct (swap_timestamps s); eauto.
  - eauto.
Qed.

(** X11: a block with a magic the parser does not know is skipped: with
    any sequence of proper blocks in front of it and anything behind it,
    the result is the same as without the block. *)
Theorem unknown_block_is_skipped
    (blocks : list (Z * list byte)) (magic : Z) (payload rest : list byte) :
  Forall proper_block blocks →
  0 ≤ magic < 65536 → Z.of_nat (length payload) < 65536 →
  known_magic magic = false →
  _parse_extra (extra_blocks blocks ++ extra_block magic payload ++ rest) =
  _parse_extra (extra_blocks blocks ++ rest).
Proof.
  intros Hall Hm Hp Hunknown. rewrite !parse_extra_after_loop. f_equal.
  apply parse_from_blocks_tail; [exact Hall|]. intros s.
  destruct payload as [|p payload].
  - destruct rest as [|r rest].
    + rewrite !parse_from_short by (simpl; lia). reflexivity.
    + rewrite parse_from_block by (try (right; discriminate); simpl in *; lia).
      rewrite parse_block_unknown by exact Hunknown. reflexivity.
  - rewrite parse_from_block by (try (left; discriminate); lia).
    rewrite parse_block_unknown by exact Hunknown. reflexivity.
Qed.

Lemma unknown_block_is_skipped_witness :
  Forall proper_block [(0x5455, [x01; x10; x20; x30; x40])] ∧
  known_magic 0x0001 = false ∧
  _parse_extra (extra_blocks [(0x5455, [x01; x10; x20; x30; x40])] ++
                extra_block 0x0001 [xaa; xbb] ++ [x00]) =
  _parse_extra (extra_blocks [(0x5455, [x01; x10; x20; x30; x40])] ++ [x00]).
Proof.
  assert (H1 : Forall proper_block [(0x5455, [x01; x10; x20; x30; x40])]).
  { constructor; [|constructor]. unfold proper_block. simpl. lia. }
  assert (H2 : known_magic 0x0001 = false) by reflexivity.
  split; [exact H1|]. split; [exact H2|].
  apply (unknown_block_is_skipped _ 0x0001 [xaa; xbb] [x00] H1);
    [lia | simpl; lia | exact H2].
Defined.

(** X12: up to four bytes after the last proper block are ignored, even
    when they are the complete header of a block with an empty payload. *)
Theorem trailing_bytes_are_ignored (blocks : list (Z * list byte)) (tail : list byte) :
  Forall proper_block blocks →
  (length tail ≤ 4)%nat →
  _parse_extra (extra_blocks blocks ++ tail) = _parse_extra (extra_blocks blocks).
Proof.
  intros Hall Htail. rewrite !parse_extra_after_loop. f_equal.
  rewrite <- (app_nil_r (extra_blocks blocks)) at 2.
  apply parse_from_blocks_tail; [exact Hall|]. intros s.
  rewrite !parse_from_short by (simpl; lia). reflexivity.
Qed.

Lemma trailing_bytes_are_ignored_witness :
  Forall proper_block [(0x5455, [x01; x10; x20; x30; x40])] ∧
  (length (extra_block 0x4b47 []) ≤ 4)%nat ∧
  _parse_extra (extra_blocks [(0x5455, [x01; x10; x20; x30; x40])] ++
                extra_block 0x4b47 []) =
  _parse_extra (extra_blocks [(0x5455, [x01; x10; x20; x30; x40])]).
Proof.
  assert (H1 : Forall proper_block [(0x5455, [x01; x10; x20; x30; x40])]).
  { constructor; [|constructor]. unfold proper_block. simpl. lia. }
  assert (H2 : (length (extra_block 0x4b47 []) ≤ 4)%nat) by (simpl; lia).
  split; [exact H1|]. split; [exact H2|].
  exact (trailing_bytes_are_ignored _ _ H1 H2).
Defined.


Lemma ut_timestamp_keeps_swap bit flags size field set acc acc' :
  (∀ v s, swap_timestamps (set v s) = swap_timestamps s) →
  ut_timestamp bit flags size field set acc = Done acc' →
  swap_timestamps (fst acc') = swap_timestamps (fst acc).
Proof.
  intros Hset. unfold ut_timestamp. destruct acc as [s off].
  destruct (_ && _).
  - destruct (_unpack "<I" _) as [t|e]; simpl; [|discriminate].
    intros [= <-]. apply Hset.
  - intros [= <-]. reflexivity.
Qed.

Lemma parse_block_keeps_swap magic size field s s' :
  parse_block magic size field s = Done s' →
  swap_timestamps s = true → swap_timestamps s' = true.
Proof.
  unfold parse_block.
  destruct (magic =? 21589).
  { destruct field as [|f0 field]; [discriminate|].
    destruct (ut_timestamp 1 _ _ _ set_mtime _) as [a1|] eqn:E1;
      cbn [and_then]; [|discriminate].
    destruct (ut_timestamp 2 _ _ _ set_atime _) as [a2|] eqn:E2;
      cbn [and_then]; [|discriminate].
    destruct (ut_timestamp 4 _ _ _ set_btime _) as [a3|] eqn:E3;
      cbn [and_then]; [|discriminate].
    destruct (ut_timestamp 8 _ _ _ set_ctime _) as [a4|] eqn:E4;
      cbn [and_then]; [|discriminate].
    intros [= <-] Hs.
    apply ut_timestamp_keeps_swap in E1, E2, E3, E4; try reflexivity.
    simpl in E1. congruence. }
  destruct (magic =? 20041).
  { destruct (_unpack "<QI" field); simpl; [|discriminate].
    intros [= <-] Hs. exact Hs. }
  destruct (magic =? 22613).
  { destruct (size =? 8).
    { destruct (_unpack "<LL" field); simpl; [|discriminate].
      intros [= <-] Hs. exact Hs. }
    destruct (size =? 12).
    { destruct (_unpack "<LLHH" field); simpl; [|discriminate].
      intros [= <-] Hs. exact Hs. }
    intros [= <-] Hs. exact Hs. }
  destruct (magic =? 30837).
  { destruct (_unpack "<BB" _) as [v|]; simpl; [|discriminate].
    destruct (nth 1 v 0 =? 4); [|intros [= <-] Hs; exact Hs].
    destruct (_unpack "<IB" _) as [w|]; simpl; [|discriminate].
    destruct (_unpack "<I" _) as [g|]; simpl; [|discriminate].
    intros [= <-] Hs. exact Hs. }
  destruct (magic =? 19271).
  { destruct field as [|f0 field]; [discriminate|].
    destruct (negb _); [discriminate|]. intros [= <-] _. reflexivity. }
  intros [= <-] Hs. exact Hs.
Qed.

Lemma parse_loop_keeps_swap (fuel : nat) :
  ∀ data pos s s',
    parse_loop fuel data pos s = Some (Done s') →
    swap_timestamps s = true → swap_timestamps s' = true.
Proof.
  induction fuel as [|fuel IH]; intros data pos s s'; cbn [parse_loop];
    destruct (_ <? _); try discriminate; try (intros [= <-] Hs; exact Hs).
  destruct (_unpack "<HH" _) as [header|]; [|discriminate].
  destruct (parse_block _ _ _ s) as [s1|] eqn:E; [|discriminate].
  intros Hloop Hs. apply (IH _ _ _ _ Hloop).
  apply (parse_block_keeps_swap _ _ _ _ _ E Hs).
Qed.

(** X13: a block with the magic 0x4b47 and a payload makes [_parse_extra]
    raise, whatever proper blocks come before it and whatever follows it:
    the function never returns a tuple for such data. *)
Theorem swap_block_never_returns
    (blocks : list (Z * list byte)) (payload rest : list byte) :
  Forall proper_block blocks →
  0 < Z.of_nat (length payload) < 65536 →
  ∃ e, _parse_extra (extra_blocks blocks ++ extra_block 0x4b47 payload ++ rest) =
       Some (Raised e).
Proof.
  intros Hall Hp. rewrite parse_extra_after_loop.
  assert (Hgen : ∀ s,
    match parse_from s (extra_blocks blocks ++ extra_block 0x4b47 payload ++ rest) with
    | Some (Raised _) => True
    | Some (Done s') => swap_timestamps s' = true
    | None => False
    end).
  { induction Hall as [|b bs [Hm Hb] Hbs IH]; intros s.
    - change (extra_blocks [] ++ ?x) with x. rewrite parse_from_block; [|lia|lia|].
      2:{ left. destruct payload; [simpl in Hp; lia | discriminate]. }
      destruct payload as [|f0 payload]; [simpl in Hp; lia|].
      unfold parse_block. simpl (_ =? _).
      destruct (negb _); [exact I|].
      destruct (parse_from_total (set_swap_timestamps s) rest) as [[s'|e] Hr];
        rewrite Hr; [|exact I].
      apply (parse_loop_keeps_swap _ _ _ _ _ Hr). reflexivity.
    - rewrite extra_blocks_cons. rewrite parse_from_block; [|lia|lia|].
      2:{ left. destruct (snd b); [simpl in Hb; lia | discriminate]. }
      destruct (parse_block _ _ _ s) as [s'|e]; [apply IH | exact I]. }
  specialize (Hgen extra_defaults).
  destruct (parse_from extra_defaults _) as [[s'|e]|]; simpl.
  - rewrite Hgen. eauto.
  - eauto.
  - contradiction.
Qed.

Lemma swap_block_never_returns_witness :
  Forall proper_block [(0x5455, [x01; x10; x20; x30; x40])] ∧
  ∃ e, _parse_extra (extra_blocks [(0x5455, [x01; x10; x20; x30; x40])] ++
                     extra_block 0x4b47 [x01] ++ []) = Some (Raised e).
Proof.
  assert (H1 : Forall proper_block [(0x5455, [x01; x10; x20; x30; x40])]).
  { constructor; [|constructor]. unfold proper_block. simpl. lia. }
  split; [exact H1|].
  apply (swap_block_never_returns _ [x01] [] H1). simpl. lia.
Defined.


Lemma parse_extra_single_block (magic : Z) (payload : list byte) :
  0 ≤ magic < 65536 → 0 < Z.of_nat (length payload) < 65536 →
  _parse_extra (extra_block magic payload) =
  after_loop (Some (parse_block magic (Z.of_nat (length payload)) payload
                      extra_defaults)).
Proof.
  intros Hm Hp. rewrite parse_extra_after_loop.
  rewrite <- (app_nil_r (extra_block magic payload)).
  rewrite parse_from_block; [|lia|lia|].
  2:{ left. destruct payload; [simpl in Hp; lia | discriminate]. }
  destruct (parse_block _ _ _ _) as [s|e]; [|reflexivity].
  rewrite parse_from_short; [reflexivity | simpl; lia].
Qed.

Ltac stored_number v H :=
  generalize (le_uint_le_bytes 4 v H).

Ltac name_bytes :=
  cbn [le_bytes];
  repeat match goal with
         | |- context [byte_of_Z ?v] =>
             let b := fresh "b" in generalize (byte_of_Z v); intro b
         end.

(** X14: a UT block whose flags announce the timestamps it stores is read
    back: the first stored timestamp is mtime, the second atime, the third
    btime and the fourth ctime of the returned tuple
    (mtime, atime, ctime, btime, ...); what is not stored stays None. *)
Theorem ut_block_round_trip (t1 t2 t3 t4 : option Z) :
  timestamp32 t1 → timestamp32 t2 → timestamp32 t3 → timestamp32 t4 →
  _parse_extra (extra_block 0x5455 (ut_payload t1 t2 t3 t4)) =
  Some (Done (fromtimestamp <$> t1, fromtimestamp <$> t2,
              fromtimestamp <$> t4, fromtimestamp <$> t3,
              None, None, None, None)).
Proof.
  intros H1 H2 H3 H4.
  rewrite parse_extra_single_block; [|lia|].
  2:{ unfold ut_payload. cbn [length]. rewrite !length_app.
      destruct t1, t2, t3, t4; cbn [ut_time]; rewrite ?length_le_bytes;
        simpl; lia. }
  unfold ut_payload.
  destruct t1 as [v1|], t2 as [v2|], t3 as [v3|], t4 as [v4|];
    cbn [ut_flag ut_time timestamp32 fmap option_fmap option_map] in *;
    try stored_number v1 H1; try stored_number v2 H2;
    try stored_number v3 H3; try stored_number v4 H4;
    match goal with
    | |- context [byte_of_Z (?a + ?b)] =>
        let r := eval vm_compute in (byte_of_Z (a + b)) in
        change (byte_of_Z (a + b)) with r
    end;
    name_bytes; intros; subst; reflexivity.
Qed.

Lemma ut_block_round_trip_witness :
  _parse_extra (extra_block 0x5455 (ut_payload (Some 1076895760) None (Some 5) None)) =
  Some (Done (Some (fromtimestamp 1076895760), None, None, Some (fromtimestamp 5),
              None, None, None, None)).
Proof.
  apply (ut_block_round_trip (Some 1076895760) None (Some 5) None);
    simpl; lia.
Defined.


Lemma ut_timestamp_skip bit flags size field set s off :
  Z.land flags bit = 0 ∨ size < Z.of_nat off + 4 →
  ut_timestamp bit flags size field set (s, off) = Done (s, off).
Proof.
  intros H. unfold ut_timestamp.
  destruct H as [H|H].
  - rewrite H. reflexivity.
  - replace (Z.of_nat off + 4 <=? size) with false
      by (symmetry; apply Z.leb_gt; lia).
    rewrite andb_false_r. reflexivity.
Qed.

Lemma ut_timestamp_read bit flags size field set s off v :
  Z.land flags bit ≠ 0 → Z.of_nat off + 4 ≤ size →
  0 ≤ v < 2 ^ 32 →
  slice off (off + 4) field = le_bytes 4 v →
  ut_timestamp bit flags size field set (s, off) =
  Done (set (fromtimestamp v) s, (off + 4)%nat).
Proof.
  intros Hbit Hsize Hv Hslice. unfold ut_timestamp.
  replace (Z.land flags bit =? 0) with false
    by (symmetry; apply Z.eqb_neq; exact Hbit).
  replace (Z.of_nat off + 4 <=? size) with true
    by (symmetry; apply Z.leb_le; exact Hsize).
  rewrite Hslice. generalize (le_uint_le_bytes 4 v Hv).
  name_bytes. intros <-. reflexivity.
Qed.

(** X15: the boundary check of the UT block: when the flags announce more
    timestamps than the block stores, a block of five bytes with the
    mtime flag set gives the mtime and nothing else, whatever the other
    flags say. *)
Theorem ut_surplus_flags (flags v : Z) :
  0 ≤ flags < 256 → Z.land flags 1 ≠ 0 → 0 ≤ v < 2 ^ 32 →
  _parse_extra (extra_block 0x5455 (byte_of_Z flags :: le_bytes 4 v)) =
  Some (Done (Some (fromtimestamp v), None, None, None, None, None, None, None)).
Proof.
  intros Hf Hbit Hv.
  rewrite parse_extra_single_block; [|lia|simpl; lia].
  change (Z.of_nat (length (byte_of_Z flags :: le_bytes 4 v))) with 5.
  unfold parse_block. change (21589 =? 21589) with true. cbv iota.
  rewrite byte_of_Z_value, Z.mod_small by exact Hf.
  rewrite (ut_timestamp_read 1 flags 5 _ set_mtime _ 1 v Hbit);
    [|lia|exact Hv|reflexivity].
  repeat (cbn [and_then]; rewrite ut_timestamp_skip by (right; simpl; lia)).
  reflexivity.
Qed.

Lemma ut_surplus_flags_witness :
  _parse_extra (extra_block 0x5455 (byte_of_Z 3 :: le_bytes 4 1076895760)) =
  Some (Done (Some (fromtimestamp 1076895760), None, None, None,
              None, None, None, None)).
Proof.
  apply (ut_surplus_flags 3 1076895760); [lia | cbv; discriminate | lia].
Defined.

(** X16: the UX block stores atime before mtime: a payload of eight bytes
    gives atime and mtime, one of twelve bytes gives uid and gid as well. *)
Theorem ux_block_round_trip (a m u g : Z) :
  0 ≤ a < 2 ^ 32 → 0 ≤ m < 2 ^ 32 → 0 ≤ u < 2 ^ 16 → 0 ≤ g < 2 ^ 16 →
  _parse_extra (extra_block 0x5855 (le_bytes 4 a ++ le_bytes 4 m)) =
  Some (Done (Some (fromtimestamp m), Some (fromtimestamp a), None, None,
              None, None, None, None)) ∧
  _parse_extra (extra_block 0x5855
                  (le_bytes 4 a ++ le_bytes 4 m ++ le_bytes 2 u ++ le_bytes 2 g)) =
  Some (Done (Some (fromtimestamp m), Some (fromtimestamp a), None, None,
              Some u, Some g, None, None)).
Proof.
  intros Ha Hm Hu Hg. split.
  - rewrite parse_extra_single_block; [|lia|simpl; lia].
    generalize (le_uint_le_bytes 4 a Ha) (le_uint_le_bytes 4 m Hm).
    name_bytes. intros <- <-. reflexivity.
  - rewrite parse_extra_single_block; [|lia|simpl; lia].
    generalize (le_uint_le_bytes 4 a Ha) (le_uint_le_bytes 4 m Hm)
               (le_uint_le_bytes 2 u Hu) (le_uint_le_bytes 2 g Hg).
    name_bytes. intros <- <- <- <-. reflexivity.
Qed.

Lemma ux_block_round_trip_witness :
  _parse_extra (extra_block 0x5855 (le_bytes 4 7 ++ le_bytes 4 9)) =
  Some (Done (Some (fromtimestamp 9), Some (fromtimestamp 7), None, None,
              None, None, None, None)) ∧
  _parse_extra (extra_block 0x5855
                  (le_bytes 4 7 ++ le_bytes 4 9 ++ le_bytes 2 1000 ++ le_bytes 2 100)) =
  Some (Done (Some (fromtimestamp 9), Some (fromtimestamp 7), None, None,
              Some 1000, Some 100, None, None)).
Proof.
  apply (ux_block_round_trip 7 9 1000 100); lia.
Defined.

Lemma skipped_block (blocks : list (Z * list byte)) (magic : Z)
    (payload rest : list byte) :
  Forall proper_block blocks →
  0 ≤ magic < 65536 → Z.of_nat (length payload) < 65536 →
  (∀ s, parse_block magic (Z.of_nat (length payload)) payload s = Done s) →
  _parse_extra (extra_blocks blocks ++ extra_block magic payload ++ rest) =
  _parse_extra (extra_blocks blocks ++ rest).
Proof.
  intros Hall Hm Hp Hskip. rewrite !parse_extra_after_loop. f_equal.
  apply parse_from_blocks_tail; [exact Hall|]. intros s.
  destruct payload as [|p payload].
  - destruct rest as [|r rest].
    + rewrite !parse_from_short by (simpl; lia). reflexivity.
    + rewrite parse_from_block by (try (right; discriminate); simpl in *; lia).
      rewrite Hskip. reflexivity.
  - rewrite parse_from_block by (try (left; discriminate); lia).
    rewrite Hskip. reflexivity.
Qed.

(** X17: a UX block whose payload has neither eight nor twelve bytes is
    skipped without an error, wherever it stands among proper blocks. *)
Theorem ux_block_of_other_size_is_skipped
    (blocks : list (Z * list byte)) (payload rest : list byte) :
  Forall proper_block blocks →
  Z.of_nat (length payload) < 65536 →
  length payload ≠ 8%nat → length payload ≠ 12%nat →
  _parse_extra (extra_blocks blocks ++ extra_block 0x5855 payload ++ rest) =
  _parse_extra (extra_blocks blocks ++ rest).
Proof.
  intros Hall Hp H8 H12. apply skipped_block; [exact Hall|lia|exact Hp|].
  intros s. unfold parse_block. change (22613 =? 21589) with false.
  change (22613 =? 20041) with false. change (22613 =? 22613) with true.
  cbv iota.
  replace (Z.of_nat (length payload) =? 8) with false
    by (symmetry; apply Z.eqb_neq; lia).
  replace (Z.of_nat (length payload) =? 12) with false
    by (symmetry; apply Z.eqb_neq; lia).
  reflexivity.
Qed.

Lemma ux_block_of_other_size_is_skipped_witness :
  _parse_extra (extra_blocks [(0x5455, [x01; x10; x20; x30; x40])] ++
                extra_block 0x5855 [x01; x02; x03] ++ [x00]) =
  _parse_extra (extra_blocks [(0x5455, [x01; x10; x20; x30; x40])] ++ [x00]).
Proof.
  apply (ux_block_of_other_size_is_skipped
           [(0x5455, [x01; x10; x20; x30; x40])] [x01; x02; x03] [x00]).
  - constructor; [|constructor]. unfold proper_block. simpl. lia.
  - simpl. lia.
  - simpl. lia.
  - simpl. lia.
Defined.

(** X18: the new-style ux block (0x7875) with a uid of four bytes: the gid
    is read as the four bytes after the gid size whatever that size says,
    so the block is read back when four bytes or more follow the gid size,
    and makes [_parse_extra] raise [struct.error] when fewer do, also when
    they are as many as the gid size announces. *)
Theorem ux_new_block_gid (version gidsize : byte) (u g : Z) (more short : list byte) :
  0 ≤ u < 2 ^ 32 → 0 ≤ g < 2 ^ 32 →
  Z.of_nat (length more) < 65000 → (length short < 4)%nat →
  _parse_extra (extra_block 0x7875
                  ([version; x04] ++ le_bytes 4 u ++ [gidsize] ++ le_bytes 4 g ++ more)) =
  Some (Done (None, None, None, None, Some u, Some g, None, None)) ∧
  _parse_extra (extra_block 0x7875
                  ([version; x04] ++ le_bytes 4 u ++ [gidsize] ++ short)) =
  Some (Raised struct_error).
Proof.
  intros Hu Hg Hmore Hshort. split.
  - rewrite parse_extra_single_block; [|lia|].
    2:{ rewrite !length_app, !length_le_bytes. simpl. lia. }
    generalize (le_uint_le_bytes 4 u Hu) (le_uint_le_bytes 4 g Hg).
    name_bytes. intros <- <-. reflexivity.
  - rewrite parse_extra_single_block; [|lia|].
    2:{ rewrite !length_app, !length_le_bytes. simpl. lia. }
    name_bytes.
    destruct short as [|s0 [|s1 [|s2 [|s3 short]]]];
      [reflexivity..|simpl in Hshort; lia].
Qed.

Lemma ux_new_block_gid_witness :
  _parse_extra (extra_block 0x7875
                  ([x01; x04] ++ le_bytes 4 1000 ++ [x04] ++ le_bytes 4 100 ++ [])) =
  Some (Done (None, None, None, None, Some 1000, Some 100, None, None)) ∧
  _parse_extra (extra_block 0x7875
                  ([x01; x04] ++ le_bytes 4 1000 ++ [x02] ++ [x64; x00])) =
  Some (Raised struct_error).
Proof.
  apply (ux_new_block_gid x01 x04 1000 100 [] [x64; x00]); simpl; lia.
Defined.


(** X19: the IN block is read back as inode and device when its payload
    has the twelve bytes of the two numbers; with a payload of any other
    length [_parse_extra] raises [struct.error]. *)
Theorem in_block_round_trip (i d : Z) (payload : list byte) :
  0 ≤ i < 2 ^ 64 → 0 ≤ d < 2 ^ 32 →
  0 < Z.of_nat (length payload) < 65536 → length payload ≠ 12%nat →
  _parse_extra (extra_block 0x4e49 (le_bytes 8 i ++ le_bytes 4 d)) =
  Some (Done (None, None, None, None, None, None, Some i, Some d)) ∧
  _parse_extra (extra_block 0x4e49 payload) = Some (Raised struct_error).
Proof.
  intros Hi Hd Hp H12. split.
  - rewrite parse_extra_single_block; [|lia|simpl; lia].
    generalize (le_uint_le_bytes 8 i Hi) (le_uint_le_bytes 4 d Hd).
    name_bytes. intros <- <-. reflexivity.
  - rewrite parse_extra_single_block; [|lia|exact Hp].
    unfold parse_block. change (20041 =? 21589) with false.
    change (20041 =? 20041) with true. cbv iota.
    unfold _unpack. change (list_sum (format_sizes "<QI")) with 12%nat.
    destruct (Nat.eqb_spec (length payload) 12); [contradiction|reflexivity].
Qed.

Lemma in_block_round_trip_witness :
  _parse_extra (extra_block 0x4e49 (le_bytes 8 123456789012 ++ le_bytes 4 2049)) =
  Some (Done (None, None, None, None, None, None, Some 123456789012, Some 2049)) ∧
  _parse_extra (extra_block 0x4e49 [x01; x02]) = Some (Raised struct_error).
Proof.
  apply (in_block_round_trip 123456789012 2049 [x01; x02]); simpl; lia.
Defined.

Lemma parse_from_blocks (blocks : list (Z * list byte)) :
  Forall proper_block blocks →
  ∀ s, parse_from s (extra_blocks blocks) = Some (parse_blocks blocks s).
Proof.
  intros Hall. induction Hall as [|b bs [Hm Hp] Hbs IH]; intros s.
  - reflexivity.
  - rewrite <- (app_nil_r (extra_blocks (b :: bs))), extra_blocks_cons, app_nil_r.
    rewrite parse_from_block; [|lia|lia|].
    2:{ left. destruct (snd b); [simpl in Hp; lia | discriminate]. }
    cbn [parse_blocks and_then].
    destruct (parse_block _ _ _ s) as [s'|e]; [apply IH | reflexivity].
Qed.

(** X20: on a sequence of proper blocks [_parse_extra] handles every block,
    in the order of the data and each with exactly its own payload, up to
    the first block that raises; the variables a block does not set keep
    what the blocks before it gave them. *)
Theorem parse_extra_blocks (blocks : list (Z * list byte)) :
  Forall proper_block blocks →
  _parse_extra (extra_blocks blocks) =
  match parse_blocks blocks extra_defaults with
  | Raised e => Some (Raised e)
  | Done s =>
      if swap_timestamps s
      then Some (Raised (ExtraValueError "This needs more testing."))
      else Some (Done (mtime s, atime s, ctime s, btime s,
                       uid s, gid s, inode s, device s))
  end.
Proof.
  intros Hall. rewrite parse_extra_after_loop, parse_from_blocks by exact Hall.
  reflexivity.
Qed.

Lemma parse_extra_blocks_witness :
  _parse_extra (extra_blocks [(0x5455, [x01; x10; x20; x30; x40]);
                              (0x5855, [x01; x00; x00; x00; x02; x00; x00; x00])]) =
  Some (Done (Some (fromtimestamp 2), Some (fromtimestamp 1), None, None,
              None, None, None, None)).
Proof.
  rewrite (parse_extra_blocks [(0x5455, [x01; x10; x20; x30; x40]);
                               (0x5855, [x01; x00; x00; x00; x02; x00; x00; x00])]).
  - reflexivity.
  - repeat constructor; simpl; lia.
Defined.

(** ** Search terms *)

Lemma split_on_not_nil sep s : split_on sep s ≠ [].
Proof.
  destruct s as [|c s]; simpl; [discriminate|].
  destruct (Ascii.eqb c sep); [discriminate|].
  destruct (split_on sep s); discriminate.
Qed.

Lemma split_on_app sep (a b : string) :
  split_on sep (a +:+ String sep b) = split_on sep a ++ split_on sep b.
Proof.
  induction a as [|c a IH].
  - change ("" +:+ String sep b) with (String sep b). simpl.
    rewrite Ascii.eqb_refl. reflexivity.
  - change (String c a +:+ String sep b) with (String c (a +:+ String sep b)).
    simpl. destruct (Ascii.eqb c sep).
    + rewrite IH. reflexivity.
    + rewrite IH. pose proof (split_on_not_nil sep a) as Hne.
      destruct (split_on sep a) as [|w ws]; [contradiction|]. reflexivity.
Qed.

Lemma split_on_plain sep s : occurs sep s = false → split_on sep s = [s].
Proof.
  induction s as [|c s IH]; simpl; [reflexivity|].
  intros H. apply orb_false_elim in H as [Hc Hs].
  rewrite Hc, (IH Hs). reflexivity.
Qed.

Lemma split_on_pieces sep s : Forall (λ w, occurs sep w = false) (split_on sep s).
Proof.
  induction s as [|c s IH]; simpl.
  - constructor; [reflexivity|constructor].
  - destruct (Ascii.eqb c sep) eqn:E.
    + constructor; [reflexivity|exact IH].
    + destruct (split_on sep s) as [|w ws]; simpl.
      * constructor; [simpl; rewrite E; reflexivity|constructor].
      * inversion IH; subst. constructor; [simpl; rewrite E; assumption|assumption].
Qed.

Lemma occurs_app c (a b : string) : occurs c (a +:+ b) = occurs c a || occurs c b.
Proof.
  induction a as [|x a IH].
  - reflexivity.
  - change (String x a +:+ b) with (String x (a +:+ b)). simpl.
    rewrite IH, orb_assoc. reflexivity.
Qed.

Lemma occurs_join c sep (ws : list string) :
  occurs c sep = false → Forall (λ w, occurs c w = false) ws →
  occurs c (join sep ws) = false.
Proof.
  intros Hsep Hall. induction Hall as [|w ws Hw Hws IH]; [reflexivity|].
  destruct ws as [|w' ws]; [exact Hw|].
  change (join sep (w :: w' :: ws)) with (w +:+ sep +:+ join sep (w' :: ws)).
  rewrite !occurs_app, Hw, Hsep, IH. reflexivity.
Qed.

Lemma drop_empty_app (a b : list string) :
  drop_empty (a ++ b) = drop_empty a ++ drop_empty b.
Proof. apply List.filter_app. Qed.

Lemma components_of_words (ws : list string) :
  Forall search_word ws →
  drop_empty (split_on "*" (join "*" ws)) = ws.
Proof.
  intros Hall. induction Hall as [|w ws [Hne Hw] Hws IH]; [reflexivity|].
  assert (Hone : drop_empty [w] = [w]).
  { unfold drop_empty. simpl. destruct (String.eqb_spec w ""); [contradiction|reflexivity]. }
  destruct ws as [|w' ws].
  - simpl join. rewrite (split_on_plain _ _ Hw). exact Hone.
  - change (join "*" (w :: w' :: ws)) with (w +:+ String "*" (join "*" (w' :: ws))).
    rewrite split_on_app, drop_empty_app, (split_on_plain _ _ Hw), Hone, IH.
    reflexivity.
Qed.

(** X21: the LIKE pattern [_like_query] builds never contains an asterisk:
    every wildcard of the search string is turned into a percent sign or
    dropped. *)
Theorem like_query_has_no_asterisk (search_string : string) :
  occurs "*" (_like_query search_string) = false.
Proof.
  unfold _like_query. rewrite !occurs_app.
  rewrite occurs_join; [reflexivity|reflexivity|].
  unfold drop_empty. apply List.Forall_forall. intros w Hw.
  apply List.filter_In in Hw as [Hw _]. revert w Hw.
  apply List.Forall_forall. apply split_on_pieces.
Qed.

(** X22: a search string made of search words (not empty, without an
    asterisk) with one asterisk between them becomes the LIKE pattern of
    the words, unchanged, with percent signs between and around them, and
    the FTS phrase of the words, each in double quotes, with asterisks
    between and after them; no character of a word is escaped. *)
Theorem search_words_round_trip (ws : list string) :
  Forall search_word ws →
  _like_query (join "*" ws) = "%" +:+ join "%" ws +:+ "%" ∧
  _string_to_fts_phrase (join "*" ws) =
    join "*" (map (λ w, dquote +:+ w +:+ dquote) ws) +:+ "*".
Proof.
  intros Hall. unfold _like_query, _string_to_fts_phrase.
  rewrite (components_of_words ws Hall). split; reflexivity.
Qed.

Lemma search_words_round_trip_witness :
  _like_query "50%*a_b" = "%50%%a_b%" ∧
  _string_to_fts_phrase "50%*a_b" =
    dquote +:+ "50%" +:+ dquote +:+ "*" +:+ dquote +:+ "a_b" +:+ dquote +:+ "*".
Proof.
  apply (search_words_round_trip ["50%"; "a_b"]).
  repeat constructor; discriminate.
Defined.

(** X23: asterisks at the start and at the end of the search string and
    the repetition of an asterisk make no difference, neither to the LIKE
    pattern nor to the FTS phrase. *)
Theorem surplus_wildcards_are_dropped (a b : string) :
  (_like_query ("*" +:+ a) = _like_query a ∧
   _like_query (a +:+ "*") = _like_query a ∧
   _like_query (a +:+ "**" +:+ b) = _like_query (a +:+ "*" +:+ b)) ∧
  (_string_to_fts_phrase ("*" +:+ a) = _string_to_fts_phrase a ∧
   _string_to_fts_phrase (a +:+ "*") = _string_to_fts_phrase a ∧
   _string_to_fts_phrase (a +:+ "**" +:+ b) = _string_to_fts_phrase (a +:+ "*" +:+ b)).
Proof.
  assert (H1 : drop_empty (split_on "*" ("*" +:+ a)) = drop_empty (split_on "*" a)).
  { reflexivity. }
  assert (H2 : drop_empty (split_on "*" (a +:+ "*")) = drop_empty (split_on "*" a)).
  { rewrite split_on_app, drop_empty_app. apply app_nil_r. }
  assert (H3 : drop_empty (split_on "*" (a +:+ "**" +:+ b)) =
               drop_empty (split_on "*" (a +:+ "*" +:+ b))).
  { change (a +:+ "**" +:+ b) with (a +:+ String "*" ("*" +:+ b)).
    change (a +:+ "*" +:+ b) with (a +:+ String "*" b).
    rewrite !split_on_app, !drop_empty_app. reflexivity. }
  unfold _like_query, _string_to_fts_phrase.
  rewrite H1, H2, H3. repeat split.
Qed.

(** ** Reading a file block by block *)

Lemma span_below_blocksize :
  0 < stringsmodel.MAX_HIT_SPAN < stringsmodel.BLOCKSIZE.
Proof. unfold stringsmodel.MAX_HIT_SPAN, stringsmodel.BLOCKSIZE. lia. Qed.

Lemma length_read_at (data : list byte) (offset n : Z) :
  0 ≤ offset → 0 ≤ n →
  Z.of_nat (length (stringsmodel.read_at data offset n)) =
  Z.max 0 (Z.min n (Z.of_nat (length data) - offset)).
Proof.
  intros Ho Hn. unfold stringsmodel.read_at.
  rewrite length_take, length_drop. lia.
Qed.

Lemma read_at_all (data : list byte) (n : Z) :
  Z.of_nat (length data) ≤ n → stringsmodel.read_at data 0 n = data.
Proof.
  intros Hn. unfold stringsmodel.read_at.
  change (Z.to_nat 0) with 0%nat. rewrite drop_0. apply take_ge. lia.
Qed.

Lemma process_loop_total pb (fuel : nat) :
  ∀ data encoding offset,
    0 ≤ offset → Z.of_nat (length data) - offset ≤ Z.of_nat fuel →
    ∃ yields, stringsmodel.process_loop pb fuel data encoding offset = Some yields.
Proof.
  pose proof span_below_blocksize as HB.
  induction fuel as [|fuel IH]; intros data encoding offset Ho Hfuel;
    cbn [stringsmodel.process_loop];
    destruct (Z.ltb_spec offset (Z.of_nat (length data))) as [Hlt|Hge];
    eauto; [lia|].
  pose proof (length_read_at data offset stringsmodel.BLOCKSIZE Ho ltac:(lia)) as Hlen.
  set (block := stringsmodel.read_at data offset stringsmodel.BLOCKSIZE) in *.
  destruct (pb block encoding) as [result error].
  destruct (Z.eqb_spec (offset + Z.of_nat (length block)) (Z.of_nat (length data)))
    as [Hend|Hmore]; [eauto|].
  destruct (IH data encoding
              (offset + (Z.of_nat (length block) - stringsmodel.MAX_HIT_SPAN)))
    as [rest Hrest]; [lia|lia|].
  rewrite Hrest. eauto.
Qed.

Lemma process_loop_covers pb (fuel : nat) :
  ∀ data encoding offset a n yields,
    0 ≤ offset ≤ a → 0 ≤ n ≤ stringsmodel.MAX_HIT_SPAN →
    a + n ≤ Z.of_nat (length data) → offset < Z.of_nat (length data) →
    stringsmodel.process_loop pb fuel data encoding offset = Some yields →
    ∃ block_offset,
      let block := stringsmodel.read_at data block_offset stringsmodel.BLOCKSIZE in
      block_offset ≤ a ∧ a + n ≤ block_offset + Z.of_nat (length block) ∧
      ∀ result error,
        pb block encoding = (Some result, error) →
        (block_offset, Some result, error) ∈ yields.
Proof.
  pose proof span_below_blocksize as HB.
  induction fuel as [|fuel IH]; intros data encoding offset a n yields Ho Hn Ha Hlt;
    cbn [stringsmodel.process_loop];
    destruct (Z.ltb_spec offset (Z.of_nat (length data))) as [_|Hge];
    try lia; [discriminate|].
  pose proof (length_read_at data offset stringsmodel.BLOCKSIZE ltac:(lia) ltac:(lia))
    as Hlen.
  destruct (pb (stringsmodel.read_at data offset stringsmodel.BLOCKSIZE) encoding)
    as [result error] eqn:E.
  assert (Hhere : ∀ (rest : list stringsmodel.strings_output) r e,
    pb (stringsmodel.read_at data offset stringsmodel.BLOCKSIZE) encoding =
      (Some r, e) →
    (offset, Some r, e) ∈
      match result with
      | Some _ => [(offset, result, error)]
      | None => []
      end ++ rest).
  { intros rest r e E'. rewrite E in E'. injection E' as -> ->.
    apply elem_of_app. left. apply list_elem_of_here. }
  destruct (Z.eqb_spec
              (offset + Z.of_nat (length (stringsmodel.read_at data offset
                                            stringsmodel.BLOCKSIZE)))
              (Z.of_nat (length data))) as [Hend|Hmore].
  - intros [= <-]. exists offset. cbv zeta.
    split; [lia|]. split; [lia|].
    intros r e Hr. specialize (Hhere [] r e Hr). rewrite app_nil_r in Hhere.
    exact Hhere.
  - destruct (stringsmodel.process_loop pb fuel data encoding _) as [rest|] eqn:Hrest;
      [|discriminate].
    intros [= <-].
    destruct (Z.le_gt_cases (a + n) (offset + stringsmodel.BLOCKSIZE)) as [Hin|Hout].
    + exists offset. cbv zeta. split; [lia|]. split; [lia|].
      apply Hhere.
    + eapply (IH _ _ _ a n) in Hrest as (block_offset & H1 & H2 & H3);
        [|lia|exact Hn|exact Ha|lia].
      exists block_offset. cbv zeta. split; [exact H1|]. split; [exact H2|].
      intros r e Hr. apply elem_of_app. right. apply (H3 r e Hr).
Qed.

(** X24: [_process_file] ends on every file, and no string of up to
    MAX_HIT_SPAN bytes is lost at a block boundary: every such range of
    the file lies as a whole in one of the blocks handed to the strings
    command, and the output of that block, if it has one, is yielded with
    the offset of the block. *)
Theorem process_file_covers_block_boundaries
    (_process_block : list byte → string → option string * option string)
    (data : list byte) (encoding : string) (a n : Z) :
  0 ≤ a → 0 ≤ n ≤ stringsmodel.MAX_HIT_SPAN → a + n ≤ Z.of_nat (length data) →
  ∃ yields,
    stringsmodel._process_file _process_block data encoding = Some yields ∧
    ∃ block_offset,
      let block := stringsmodel.read_at data block_offset stringsmodel.BLOCKSIZE in
      block_offset ≤ a ∧ a + n ≤ block_offset + Z.of_nat (length block) ∧
      ∀ result error,
        _process_block block encoding = (Some result, error) →
        (block_offset, Some result, error) ∈ yields.
Proof.
  intros Ha Hn Hrange. pose proof span_below_blocksize as HB.
  unfold stringsmodel._process_file.
  destruct (Z.ltb_spec (Z.of_nat (length data)) stringsmodel.BLOCKSIZE) as [Hsmall|Hlarge].
  - destruct (_process_block data encoding) as [out err] eqn:E.
    eexists. split; [reflexivity|]. exists 0. cbv zeta.
    rewrite read_at_all by lia. split; [lia|]. split; [lia|].
    intros result error E'. rewrite E in E'. injection E' as -> ->.
    apply list_elem_of_here.
  - destruct (process_loop_total _process_block (length data) data encoding 0)
      as [yields Hy]; [lia|lia|].
    exists yields. split; [exact Hy|].
    apply (process_loop_covers _process_block (length data) data encoding 0 a n yields);
      try lia. exact Hy.
Qed.

Lemma process_file_covers_block_boundaries_witness :
  ∃ yields,
    stringsmodel._process_file (λ block _, (Some "abc", None)) [x61; x62; x63; x00] "s"
      = Some yields ∧
    ∃ block_offset,
      let block := stringsmodel.read_at [x61; x62; x63; x00] block_offset
                     stringsmodel.BLOCKSIZE in
      block_offset ≤ 1 ∧ 1 + 2 ≤ block_offset + Z.of_nat (length block) ∧
      ∀ result error,
        (Some "abc", None) = (Some result, error) →
        (block_offset, Some result, error) ∈ yields.
Proof.
  apply (process_file_covers_block_boundaries
           (λ block _, (Some "abc", None)) [x61; x62; x63; x00] "s" 1 2).
  - lia.
  - unfold stringsmodel.MAX_HIT_SPAN. lia.
  - simpl. lia.
Defined.

(** ** Search hits *)

Section search_hits.
Context {regex : Type}.
Variable finditer : regex → list byte → list (Z * Z).











End search_hits.




